(** * enhancedjson: the selection, expansion and merge engine of
    plugins/parsers/enhancedjson/parser.go

A shallow embedding of the parser: JSON query results as a tree, Go
interface values as a tagged union, telegraf metrics as cells of a heap
addressed by pointers (the parser shares and mutates them), and the
functions of parser.go as state-passing programs over that heap. *)

From Stdlib Require Import ZArith Ascii String List PrimFloat FloatOps SpecFloat.
From stdpp Require Import base option list strings gmap sorting.

Set Warnings "-register-all".

Local Open Scope string_scope.
Local Open Scope list_scope.
Local Open Scope Z_scope.

(** ** Go's strconv, as far as convertType calls it *)
Module strconv.

Inductive NumError := ErrSyntax | ErrRange.

Definition digit (c : ascii) : option Z :=
  let n := Z.of_nat (nat_of_ascii c) in
  if (48 <=? n) && (n <=? 57) then Some (n - 48) else None.

(** The decimal value of a run of digits, most significant first. *)
Fixpoint digits (acc : Z) (s : string) : option Z :=
  match s with
  | EmptyString => Some acc
  | String c s' =>
      match digit c with
      | Some d => digits (acc * 10 + d) s'
      | None => None
      end
  end.

(** [Atoi]: an optional sign, then at least one decimal digit; the value
    has to fit Go's [int], 64 bits wide here. *)
Definition Atoi (s : string) : Z * option NumError :=
  let '(neg, body) :=
    match s with
    | String "-" r => (true, r)
    | String "+" r => (false, r)
    | _ => (false, s)
    end in
  match body with
  | EmptyString => (0, Some ErrSyntax)
  | _ =>
      match digits 0 body with
      | None => (0, Some ErrSyntax)
      | Some n =>
          let v := if neg then - n else n in
          if (- 2 ^ 63 <=? v) && (v <? 2 ^ 63) then (v, None)
          else ((if neg then - 2 ^ 63 else 2 ^ 63 - 1), Some ErrRange)
      end
  end.

(** [ParseBool] accepts 1, t, T, TRUE, true, True, 0, f, F, FALSE, false,
    False and nothing else. *)
Definition ParseBool (s : string) : bool * option NumError :=
  if existsb (String.eqb s) ["1"; "t"; "T"; "TRUE"; "true"; "True"]
  then (true, None)
  else if existsb (String.eqb s) ["0"; "f"; "F"; "FALSE"; "false"; "False"]
  then (false, None)
  else (false, Some ErrSyntax).

Definition FormatBool (b : bool) : string :=
  if b then "true" else "false".

End strconv.

(** ** Go's strings package: Split on a one-byte separator, ReplaceAll *)
Module strings.

(** [Split s sep] for a separator of one byte, the only kind parser.go
    passes: the pieces between the separators, at least one piece. *)
Fixpoint Split (s : string) (sep : ascii) : list string :=
  match s with
  | EmptyString => [EmptyString]
  | String c s' =>
      if Ascii.eqb c sep then EmptyString :: Split s' sep
      else
        match Split s' sep with
        | [] => [String c EmptyString]
        | piece :: pieces => String c piece :: pieces
        end
  end.

(** [ReplaceAll s old ""] for [old] of one byte: every such byte removed. *)
Fixpoint RemoveAll (s : string) (old : ascii) : string :=
  match s with
  | EmptyString => EmptyString
  | String c s' =>
      if Ascii.eqb c old then RemoveAll s' old
      else String c (RemoveAll s' old)
  end.

End strings.

(** [s[len(s)-1]] of a slice of strings; the empty string stands for the
    index panic, which [strings.Split] never provokes (it returns at least
    one piece). *)
Definition lastString (s : list string) : string := List.last s "".

(** ** Go interface values *)

(** What an [interface{}] holds in this parser: the results of
    [gjson.Result.Value] and of the conversions. *)
Inductive interface : Type :=
| Nil
| GoString (s : string)
| GoBool (b : bool)
| Float64 (f : float)
| Int (n : Z)
| Int64 (n : Z)
| Slice (elems : list interface)
| Map (members : list (string * interface)).

(** ** Metrics (packages telegraf and metric) *)
Module telegraf.

Definition Time := Z.

Record Field := { Key : string; Value : interface }.

Record Metric := {
  name : string;
  tags : list (string * string);
  fields : list Field;
  tm : Time
}.

(** Modelled from the spec: the field map of a metric, which lives in the
    repository's metric package and is not among the sources at hand.
    Fields are insertion-ordered, keys are unique within a metric, and a
    later write to the same key overwrites the earlier value. *)
Fixpoint addField (fs : list Field) (key : string) (value : interface)
  : list Field :=
  match fs with
  | [] => [{| Key := key; Value := value |}]
  | f :: fs' =>
      if String.eqb (Key f) key then {| Key := key; Value := value |} :: fs'
      else f :: addField fs' key value
  end.

Definition setFields (m : Metric) (fs : list Field) : Metric :=
  {| name := name m; tags := tags m; fields := fs; tm := tm m |}.

End telegraf.

(** ** The heap of metrics and the programs that run over it *)

(** A [telegraf.Metric] value is a pointer to a metric; [metric.New]
    allocates, [AddField] updates in place. *)
Abbreviation ptr := nat (only parsing).

Record world := {
  heap : list telegraf.Metric;   (* the metrics allocated so far *)
  ticks : nat                    (* how often the clock was read *)
}.

Definition M (A : Type) : Type := world -> A * world.

Definition ret {A} (a : A) : M A := fun w => (a, w).

Definition bind {A B} (m : M A) (k : A -> M B) : M B :=
  fun w => let (a, w') := m w in k a w'.

Notation "'do' x <- m ;; k" := (bind m (fun x => k))
  (at level 10, x name, m at level 99, k at level 200).
Notation "'do' ' pat <- m ;; k" := (bind m (fun x => match x with pat => k end))
  (at level 10, pat pattern, m at level 99, k at level 200).
Notation "'run' m ;; k" := (bind m (fun _ => k))
  (at level 10, m at level 99, k at level 200).

(** [for _, x := range l { body x }] *)
Fixpoint forRange {A} (l : list A) (body : A -> M unit) : M unit :=
  match l with
  | [] => ret tt
  | x :: l' => run body x ;; forRange l' body
  end.

Module metric.
Section Metric.

(** The injected clock [p.TimeFunc], read once per call. *)
Variable TimeFunc : nat -> telegraf.Time.

Definition now : M telegraf.Time :=
  fun w => (TimeFunc (ticks w), {| heap := heap w; ticks := S (ticks w) |}).

(** Modelled from the spec: [metric.New(name, tags, fields, t)] with empty
    tags and fields, from the repository's metric package (not among the
    sources at hand): a new metric with an empty field map. *)
Definition New (name : string) (t : telegraf.Time) : M ptr :=
  fun w =>
    (length (heap w),
     {| heap := heap w ++ [{| telegraf.name := name; telegraf.tags := [];
                              telegraf.fields := []; telegraf.tm := t |}];
        ticks := ticks w |}).

(** Modelled from the spec: [m.AddField(key, value)] of the same package,
    last write wins.  A pointer outside the heap would be a nil
    dereference in Go; none is ever built, and the update does nothing
    there. *)
Definition AddField (m : ptr) (key : string) (value : interface) : M unit :=
  fun w =>
    (tt,
     {| heap := alter (fun c => telegraf.setFields c
                                  (telegraf.addField (telegraf.fields c) key value))
                      m (heap w);
        ticks := ticks w |}).

(** Modelled from the spec: [m.FieldList()], the fields in insertion
    order. *)
Definition FieldList (m : ptr) : M (list telegraf.Field) :=
  fun w =>
    (match heap w !! m with Some c => telegraf.fields c | None => [] end, w).

(** Modelled from the spec: [m.Name()]. *)
Definition Name (m : ptr) : M string :=
  fun w => (match heap w !! m with Some c => telegraf.name c | None => "" end, w).

End Metric.
End metric.

(** ** The results of JSON queries (package gjson) *)
Module gjson.

(** A [gjson.Result]: the zero Result of a query that matched nothing, or
    a JSON value.  Object members keep document order and duplicates. *)
Inductive Result : Type :=
| Missing
| Null
| Bool (b : bool)
| Number (n : float)
| Str (s : string)
| Array (elems : list Result)
| Object (members : list (string * Result)).

Definition IsObject (t : Result) : bool :=
  match t with Object _ => true | _ => false end.

Definition IsArray (t : Result) : bool :=
  match t with Array _ => true | _ => false end.

Definition Exists (t : Result) : bool :=
  match t with Missing => false | _ => true end.

(** [Value]: nil for null and for the zero Result, the Go value of a
    scalar, a slice for an array and a map for an object. *)
Fixpoint Value (t : Result) : interface :=
  match t with
  | Missing | Null => Nil
  | Bool b => GoBool b
  | Number n => Float64 n
  | Str s => GoString s
  | Array elems => Slice (List.map Value elems)
  | Object members =>
      Map (List.map (fun kv => match kv with (k, v) => (k, Value v) end) members)
  end.

(** [ForEach]: the iterator is called on each child in document order
    until it answers false.  It receives the key as [key.String()] gives
    it, which is all the parser reads of a key, and [S] stands for the
    variables the closure captures and assigns. *)
Section ForEach.
Context {S : Type}.
(** The key gjson hands over with the [i]-th element of an array: empty
    in the releases that pass the zero Result, the index in those that
    count. *)
Variable arrayKey : nat -> string.
Variable iterator : string -> Result -> S -> M (bool * S).

Fixpoint eachElem (i : nat) (elems : list Result) (s : S) : M S :=
  match elems with
  | [] => ret s
  | value :: elems' =>
      do '(more, s') <- iterator (arrayKey i) value s ;;
      if more : bool then eachElem (Datatypes.S i) elems' s' else ret s'
  end.

Fixpoint eachMember (members : list (string * Result)) (s : S) : M S :=
  match members with
  | [] => ret s
  | (key, value) :: members' =>
      do '(more, s') <- iterator key value s ;;
      if more : bool then eachMember members' s' else ret s'
  end.

Definition ForEach (t : Result) (s : S) : M S :=
  match t with
  | Missing => ret s
  | Array elems => eachElem 0 elems s
  | Object members => eachMember members s
  | _ => do '(_, s') <- iterator "" t s ;; ret s'
  end.
End ForEach.

End gjson.

(** ** Errors of the parser *)
Inductive error : Type :=
| ErrInvalidJSON                      (* Invalid JSON provided, unable to parse *)
| ErrUseObjectField                   (* use object_field *)
| ErrEncounteredObject                (* encountered object *)
| ErrUnableToConvert (name target : string) (cause : option strconv.NumError)
| ErrUnknownFormat (name : string)    (* unknown format '%T' for field '%s' *)
| ErrParseLine.

(** ** float64 to int64 *)

(** The integer part of a finite float, rounding toward zero; [None] for
    infinities and NaN. *)
Definition truncSF (x : spec_float) : option Z :=
  match x with
  | S754_zero _ => Some 0
  | S754_finite s m e =>
      let a := Z.shiftl (Z.pos m) e in
      Some (if s then - a else a)
  | _ => None
  end.

Section Conversions.

(** Go leaves [int64(f)] implementation-dependent when [f] has no int64
    value; [int64_unrepresentable] is what the platform answers then. *)
Variable int64_unrepresentable : float -> Z.
(** [strconv.ParseFloat(s, 64)] and [fmt.Sprint] of a float64. *)
Variable ParseFloat : string -> float * option strconv.NumError.
Variable Sprint : float -> string.

Definition int64_of_float64 (f : float) : Z :=
  match truncSF (Prim2SF f) with
  | Some z =>
      if (- 2 ^ 63 <=? z) && (z <? 2 ^ 63) then z
      else int64_unrepresentable f
  | None => int64_unrepresentable f
  end.

(** convertType will convert the value parsed from the input JSON to the
    specified type in the config. *)
Definition convertType (input : interface) (desiredType name : string)
  : interface * option error :=
  match input with
  | GoString inputType =>
      if negb (String.eqb desiredType "string") then
        if String.eqb desiredType "int" then
          match strconv.Atoi inputType with
          | (_, Some err) => (Nil, Some (ErrUnableToConvert name "int" (Some err)))
          | (r, None) => (Int r, None)
          end
        else if String.eqb desiredType "float" then
          match ParseFloat inputType with
          | (_, Some err) => (Nil, Some (ErrUnableToConvert name "float" (Some err)))
          | (r, None) => (Float64 r, None)
          end
        else if String.eqb desiredType "bool" then
          match strconv.ParseBool inputType with
          | (_, Some err) => (Nil, Some (ErrUnableToConvert name "bool" (Some err)))
          | (r, None) => (GoBool r, None)
          end
        else (input, None)
      else (input, None)
  | GoBool inputType =>
      if negb (String.eqb desiredType "bool") then
        if String.eqb desiredType "string" then
          (GoString (strconv.FormatBool inputType), None)
        else if String.eqb desiredType "int" then
          if inputType then (Int64 1, None) else (Int64 0, None)
        else (input, None)
      else (input, None)
  | Float64 inputType =>
      if negb (String.eqb desiredType "float") then
        if String.eqb desiredType "string" then
          (GoString (Sprint inputType), None)
        else if String.eqb desiredType "int" then
          (Int64 (int64_of_float64 inputType), None)
        else if String.eqb desiredType "bool" then
          if PrimFloat.eqb inputType 0 then (GoBool false, None)
          else if PrimFloat.eqb inputType 1 then (GoBool true, None)
          else (Nil, Some (ErrUnableToConvert name "bool" None))
        else (input, None)
      else (input, None)
  | _ => (Nil, Some (ErrUnknownFormat name))
  end.

End Conversions.


(** ** Configuration and working rows *)
Module BasicField.
Record t := {
  Query : string;   (* REQUIRED *)
  Name : string;    (* OPTIONAL *)
  Type_ : string    (* OPTIONAL *)
}.
End BasicField.

Module ObjectField.
Record t := {
  Query : string;                 (* REQUIRED *)
  NameMap : gmap string string;   (* OPTIONAL *)
  TypeMap : gmap string string    (* OPTIONAL *)
}.
End ObjectField.

Module Config.
Record t := {
  MetricSelection : string;
  MetricName : string;
  BasicFields : list BasicField.t;
  ObjectFields : list ObjectField.t
}.
End Config.

Module MetricNode.
Record t := {
  RootFieldName : string;
  DesiredType : string;
  Metric : ptr;
  Result : gjson.Result
}.
End MetricNode.

Import MetricNode.

(** ** A concrete setting *)

(** A clock, the externals of the parser and a document, to run the parser
    on: the query primitive looks a top-level key up in [document]. *)
Module Example.

Definition TimeFunc (n : nat) : telegraf.Time := Z.of_nat n.

Definition arrayKey (i : nat) : string := "".

(** What amd64 answers: the smallest int64. *)
Definition int64_unrepresentable (f : float) : Z := - 2 ^ 63.

Definition ParseFloat (s : string) : float * option strconv.NumError :=
  if String.eqb s "1.5" then (1.5%float, None)
  else (0%float, Some strconv.ErrSyntax).

Definition Sprint (f : float) : string :=
  if PrimFloat.eqb f 1.5 then "1.5" else "0".

Definition Valid (input : string) : bool := true.

Definition document : list (string * gjson.Result) :=
  [("a", gjson.Array [gjson.Number 1; gjson.Number 2]);
   ("b", gjson.Array [gjson.Number 10; gjson.Number 20; gjson.Number 30]);
   ("obj", gjson.Object
             [("a", gjson.Number 1);
              ("items", gjson.Array [gjson.Number 10; gjson.Number 20])]);
   ("bad", gjson.Object [("a", gjson.Str "x")]);
   ("nulls", gjson.Array [gjson.Null]);
   ("strs", gjson.Array [gjson.Str "7"; gjson.Str "x"]);
   ("mixed", gjson.Array [gjson.Number 1; gjson.Str "x"; gjson.Number 3]);
   ("deep", gjson.Array [gjson.Array [gjson.Number 1];
                         gjson.Array [gjson.Object []]]);
   ("grid", gjson.Array
              [gjson.Array [gjson.Number 1; gjson.Number 2; gjson.Number 3];
               gjson.Array [gjson.Number 4; gjson.Number 5; gjson.Number 6]])].

Definition GetBytes (input query : string) : gjson.Result :=
  match List.find (fun kv => String.eqb kv.1 query) document with
  | Some kv => kv.2
  | None => gjson.Missing
  end.

(** A sort that is stable, as sort.Slice is on short slices. *)
Definition sort_Slice (less : list nat -> list nat -> bool) (l : list (list nat))
  : list (list nat) :=
  @merge_sort _ (fun a b => less b a = false)
    (fun a b => decide (less b a = false)) l.

(** The heap before the first metric, and a heap of one empty metric. *)
Definition w0 : world := {| heap := []; ticks := 0 |}.

Definition w1 : world :=
  {| heap := [{| telegraf.name := "m"; telegraf.tags := [];
                 telegraf.fields := []; telegraf.tm := 0 |}];
     ticks := 1 |}.

(** A heap of one metric that already holds a field named items. *)
Definition w2 : world :=
  {| heap := [{| telegraf.name := "m"; telegraf.tags := [];
                 telegraf.fields := [{| telegraf.Key := "items";
                                        telegraf.Value := GoString "old" |}];
                 telegraf.tm := 0 |}];
     ticks := 1 |}.

Definition basic (query type : string) : BasicField.t :=
  {| BasicField.Query := query; BasicField.Name := ""; BasicField.Type_ := type |}.

Definition object (query : string) (typeMap : gmap string string) : ObjectField.t :=
  {| ObjectField.Query := query; ObjectField.NameMap := ∅;
     ObjectField.TypeMap := typeMap |}.

Definition node (fn ty : string) (m : nat) (json : gjson.Result) : MetricNode.t :=
  {| MetricNode.RootFieldName := fn; MetricNode.DesiredType := ty;
     MetricNode.Metric := m; MetricNode.Result := json |}.

(** A second document, with scalars and nested objects at the top. *)
Definition profile : list (string * gjson.Result) :=
  [("n", gjson.Number 7);
   ("s", gjson.Str "42");
   ("flag", gjson.Bool true);
   ("nothing", gjson.Null);
   ("host", gjson.Object
              [("name", gjson.Str "a b");
               ("up time", gjson.Number 3);
               ("os", gjson.Object [("kernel", gjson.Str "6.1")])]);
   ("svc", gjson.Object
             [("id", gjson.Number 1);
              ("ports", gjson.Array [gjson.Number 80; gjson.Number 443]);
              ("ok", gjson.Bool true)])].

Definition GetProfile (input query : string) : gjson.Result :=
  match List.find (fun kv => String.eqb kv.1 query) profile with
  | Some kv => kv.2
  | None => gjson.Missing
  end.

Definition config (metricName : string) (basicFields : list BasicField.t)
    (objectFields : list ObjectField.t) : Config.t :=
  {| Config.MetricSelection := ""; Config.MetricName := metricName;
     Config.BasicFields := basicFields; Config.ObjectFields := objectFields |}.

End Example.

(** ** The parser *)
Section Parser.

Variable TimeFunc : nat -> telegraf.Time.
Variable arrayKey : nat -> string.
Variable int64_unrepresentable : float -> Z.
Variable ParseFloat : string -> float * option strconv.NumError.
Variable Sprint : float -> string.
(** [gjson.Valid] and [gjson.GetBytes], the query primitive. *)
Variable Valid : string -> bool.
Variable GetBytes : string -> string -> gjson.Result.
(** [sort.Slice(metricFields, less)], which need not be stable. *)
Variable sort_Slice : (list ptr -> list ptr -> bool) -> list (list ptr) -> list (list ptr).

Abbreviation convertType := (convertType int64_unrepresentable ParseFloat Sprint).
Abbreviation now := (metric.now TimeFunc).

(** [for _, f := range src.FieldList() { dst.AddField(f.Key, f.Value) }] *)
Definition copyFields (src dst : ptr) : M unit :=
  do fl <- metric.FieldList src ;;
  forRange fl (fun f => metric.AddField dst (telegraf.Key f) (telegraf.Value f)).

(** The closure expandArray hands to [ForEach].  It captures [err] and
    [results]; [r, err := ...] and [v, err := ...] declare an [err] of
    their own. *)
Definition expandArray_iterator
    (expandArray : MetricNode.t -> string -> M (list MetricNode.t * option error))
    (result : MetricNode.t) (metricName : string)
    (_ : string) (val : gjson.Result)
    (captured : option error * list MetricNode.t)
  : M (bool * (option error * list MetricNode.t)) :=
  let '(err, results) := captured in
  if gjson.IsObject val then
    ret (false, (Some ErrEncounteredObject, results))
  else
    do t <- now ;;
    do m <- metric.New metricName t ;;
    run copyFields (Metric result) m ;;
    if gjson.IsArray val then
      let n := {| RootFieldName := RootFieldName result; DesiredType := "";
                  Metric := m; Result := val |} in
      do '(r, err') <- expandArray n metricName ;;
      match err' with
      | Some _ => ret (false, (err, results))
      | None => ret (true, (err, results ++ r))
      end
    else
      match convertType (gjson.Value val) (DesiredType result) (RootFieldName result) with
      | (_, Some _) => ret (false, (err, results))
      | (v, None) =>
          run metric.AddField m (RootFieldName result) v ;;
          run copyFields (Metric result) m ;;
          let n := {| RootFieldName := RootFieldName result; DesiredType := "";
                      Metric := m; Result := val |} in
          ret (true, (err, results ++ [n]))
      end.

(** What expandArray does after the object test, given the loop over the
    elements. *)
Definition expandArray_rest
    (loop : option error * list MetricNode.t -> M (option error * list MetricNode.t))
    (result : MetricNode.t) : M (list MetricNode.t * option error) :=
  if gjson.IsArray (Result result) then
    do '(err, results) <- loop (None, []) ;;
    match err with
    | Some e => ret ([], Some e)
    | None => ret (results, None)
    end
  else if gjson.Exists (Result result) then
    match convertType (gjson.Value (Result result)) (DesiredType result)
                      (RootFieldName result) with
    | (_, Some e) => ret ([], Some e)
    | (v, None) =>
        run metric.AddField (Metric result) (RootFieldName result) v ;;
        ret ([result], None)
    end
  else ret ([], None).

(** expandArray, by recursion on the JSON subtree of the row. *)
Fixpoint expandArray_at (json : gjson.Result) (rootFieldName desiredType : string)
    (m : ptr) (metricName : string) {struct json}
  : M (list MetricNode.t * option error) :=
  let result := {| RootFieldName := rootFieldName; DesiredType := desiredType;
                   Metric := m; Result := json |} in
  match json with
  | gjson.Object _ => ret ([], Some ErrEncounteredObject)
  | gjson.Array elems =>
      expandArray_rest
        (gjson.eachElem arrayKey
           (expandArray_iterator
              (fun n name => expandArray_at (Result n) (RootFieldName n)
                               (DesiredType n) (Metric n) name)
              result metricName) 0 elems)
        result
  | _ => expandArray_rest ret result
  end.

(** expandArray will recursively create a new MetricNode for each element
    in a JSON array. *)
Definition expandArray (result : MetricNode.t) (metricName : string)
  : M (list MetricNode.t * option error) :=
  expandArray_at (Result result) (RootFieldName result) (DesiredType result)
    (Metric result) metricName.

(** The body of expandArray as parser.go writes it, over [ForEach]. *)
Definition expandArray_body (result : MetricNode.t) (metricName : string)
  : M (list MetricNode.t * option error) :=
  if gjson.IsObject (Result result) then ret ([], Some ErrEncounteredObject)
  else
    expandArray_rest
      (gjson.ForEach arrayKey (expandArray_iterator expandArray result metricName)
         (Result result))
      result.

(** The closure combineObject hands to [ForEach]; it captures [metrics]. *)
Definition combineObject_iterator
    (combineObject : MetricNode.t -> gmap string string -> gmap string string ->
                     M (list MetricNode.t * option error))
    (result : MetricNode.t) (nameMap typeMap : gmap string string)
    (key : string) (val : gjson.Result) (metrics : list MetricNode.t)
  : M (bool * list MetricNode.t) :=
  (* Update key with user configuration *)
  let fieldName :=
    if negb (String.eqb key "") then
      let fieldName := match nameMap !! key with
                       | Some newName => newName
                       | None => key
                       end in
      (* Sanitize fieldname *)
      strings.RemoveAll fieldName " "
    else RootFieldName result in
  if gjson.IsArray val then
    let arrayNode := {| RootFieldName := key; DesiredType := "";
                        Metric := Metric result; Result := val |} in
    do metricName <- metric.Name (Metric result) ;;
    do '(m, err) <- expandArray arrayNode metricName ;;
    match err with
    | Some _ => ret (false, metrics)
    | None => ret (true, metrics ++ m)
    end
  else if gjson.IsObject val then
    let arrayNode := {| RootFieldName := key; DesiredType := "";
                        Metric := Metric result; Result := val |} in
    do '(_, err) <- combineObject arrayNode nameMap typeMap ;;
    match err with
    | Some _ => ret (false, metrics)
    | None => ret (true, metrics)
    end
  else
    match typeMap !! key with
    | Some desiredType =>
        match convertType (gjson.Value val) desiredType key with
        | (_, Some _) => ret (false, metrics)
        | (fieldValue, None) =>
            run metric.AddField (Metric result) fieldName fieldValue ;;
            ret (true, metrics)
        end
    | None =>
        run metric.AddField (Metric result) fieldName (gjson.Value val) ;;
        ret (true, metrics)
    end.

(** combineObject, by recursion on the JSON subtree of the row.  A scalar
    is handed to the closure once, with the empty key; the closure does not
    recurse on it. *)
Fixpoint combineObject_at (json : gjson.Result) (rootFieldName desiredType : string)
    (m : ptr) (nameMap typeMap : gmap string string) {struct json}
  : M (list MetricNode.t * option error) :=
  let result := {| RootFieldName := rootFieldName; DesiredType := desiredType;
                   Metric := m; Result := json |} in
  let self := fun n nm tm => combineObject_at (Result n) (RootFieldName n)
                               (DesiredType n) (Metric n) nm tm in
  do metrics <-
    match json with
    | gjson.Missing => ret []
    | gjson.Array elems =>
        gjson.eachElem arrayKey
          (combineObject_iterator self result nameMap typeMap) 0 elems []
    | gjson.Object members =>
        gjson.eachMember
          (combineObject_iterator self result nameMap typeMap) members []
    | _ =>
        do '(_, metrics) <-
          combineObject_iterator (fun _ _ _ => ret ([], None))
            result nameMap typeMap "" json [] ;;
        ret metrics
    end ;;
  ret (metrics ++ [result], None).

Definition combineObject (result : MetricNode.t) (nameMap typeMap : gmap string string)
  : M (list MetricNode.t * option error) :=
  combineObject_at (Result result) (RootFieldName result) (DesiredType result)
    (Metric result) nameMap typeMap.

(** The body of combineObject as parser.go writes it, over [ForEach]. *)
Definition combineObject_body (result : MetricNode.t)
    (nameMap typeMap : gmap string string)
  : M (list MetricNode.t * option error) :=
  do metrics <-
    gjson.ForEach arrayKey
      (combineObject_iterator combineObject result nameMap typeMap)
      (Result result) [] ;;
  ret (metrics ++ [result], None).

(** The first loop of processBasicFields: one group of metrics per
    basic_field configuration. *)
Fixpoint collectBasicFields (metricName : string) (basicFields : list BasicField.t)
    (input : string) (metricFields : list (list ptr))
  : M (list (list ptr) * option error) :=
  match basicFields with
  | [] => ret (metricFields, None)
  | field :: basicFields' =>
      let result := GetBytes input (BasicField.Query field) in
      if gjson.IsObject result then ret ([], Some ErrUseObjectField)
      else
        let fieldName :=
          if String.eqb (BasicField.Name field) "" then
            lastString (strings.Split (BasicField.Query field) ".")
          else BasicField.Name field in
        do t <- now ;;
        do m <- metric.New metricName t ;;
        let mNode := {| RootFieldName := fieldName;
                        DesiredType := BasicField.Type_ field;
                        Metric := m; Result := result |} in
        do '(nodes, err) <- expandArray mNode metricName ;;
        match err with
        | Some e => ret ([], Some e)
        | None =>
            collectBasicFields metricName basicFields' input
              (metricFields ++ [List.map Metric nodes])
        end
  end.

(** [len(metricFields[i]) < len(metricFields[j])] *)
Definition lessLen (a b : list ptr) : bool := (length a <? length b)%nat.

(** What [sort.Slice] promises for this [less]: the groups are permuted, and
    none of them is less than one before it. *)
Hypothesis sort_Slice_perm : forall less l, sort_Slice less l ≡ₚ l.
Hypothesis sort_Slice_sorted :
  forall l, StronglySorted (fun a b => lessLen b a = false) (sort_Slice lessLen l).

(** The merge loop: for [i] from 1, every metric of group [i-1] has its
    fields added to every metric of group [i]. *)
Definition mergeMetricFields (metricFields : list (list ptr)) : M unit :=
  forRange (seq 1 (length metricFields - 1)) (fun i =>
    forRange (nth (i - 1) metricFields []) (fun p =>
      forRange (nth i metricFields []) (fun c =>
        copyFields p c))).

Definition processBasicFields (metricName : string) (basicFields : list BasicField.t)
    (input : string) : M (list ptr * option error) :=
  do '(metricFields, err) <- collectBasicFields metricName basicFields input [] ;;
  match err with
  | Some e => ret ([], Some e)
  | None =>
      let metricFields := sort_Slice lessLen metricFields in
      run (if (1 <? length metricFields)%nat then mergeMetricFields metricFields
           else ret tt) ;;
      let last := nth (length metricFields - 1) metricFields [] in
      if (0 <? length metricFields)%nat && (0 <? length last)%nat then
        ret (last, None)
      else ret ([], None)
  end.

Fixpoint processObjectFields_loop (metricName : string)
    (objectFields : list ObjectField.t) (input : string) (t : list ptr)
  : M (list ptr * option error) :=
  match objectFields with
  | [] => ret (t, None)
  | field :: objectFields' =>
      let result := GetBytes input (ObjectField.Query field) in
      let fieldName := lastString (strings.Split (ObjectField.Query field) ".") in
      do t0 <- now ;;
      do m <- metric.New metricName t0 ;;
      let rootObject := {| RootFieldName := fieldName; DesiredType := "";
                           Metric := m; Result := result |} in
      do '(metrics, err) <-
        combineObject rootObject (ObjectField.NameMap field)
          (ObjectField.TypeMap field) ;;
      match err with
      | Some e => ret ([], Some e)
      | None =>
          processObjectFields_loop metricName objectFields' input
            (t ++ List.map Metric metrics)
      end
  end.

Definition processObjectFields (metricName : string)
    (objectFields : list ObjectField.t) (input : string)
  : M (list ptr * option error) :=
  processObjectFields_loop metricName objectFields input [].

Fixpoint Parse_loop (configs : list Config.t) (input : string) (t : list ptr)
  : M (list ptr * option error) :=
  match configs with
  | [] => ret (t, None)
  | config :: configs' =>
      (* Process all `basic_fields` configurations *)
      do '(basicMetrics, err) <-
        processBasicFields (Config.MetricName config) (Config.BasicFields config)
          input ;;
      match err with
      | Some e => ret ([], Some e)
      | None =>
          let t := t ++ basicMetrics in
          do '(objectMetrics, err) <-
            processObjectFields (Config.MetricName config)
              (Config.ObjectFields config) input ;;
          match err with
          | Some e => ret ([], Some e)
          | None => Parse_loop configs' input (t ++ objectMetrics)
          end
      end
  end.

Definition Parse (Configs : list Config.t) (input : string)
  : M (list ptr * option error) :=
  (* Only valid JSON is supported *)
  if negb (Valid input) then ret ([], Some ErrInvalidJSON)
  else Parse_loop Configs input [].

(** ** What the proofs speak about *)

(** The fields of the metric a pointer leads to. *)
Definition fieldsAt (w : world) (p : ptr) : list telegraf.Field :=
  match heap w !! p with Some c => telegraf.fields c | None => [] end.

(** [AddField] of every field of [fl], in order. *)
Definition addFields (fs fl : list telegraf.Field) : list telegraf.Field :=
  fold_left (fun acc f => telegraf.addField acc (telegraf.Key f) (telegraf.Value f)) fl fs.

(** The value a field list holds under a key. *)
Definition getField (fs : list telegraf.Field) (key : string) : option interface :=
  telegraf.Value <$> List.find (fun f => String.eqb (telegraf.Key f) key) fs.

Definition keysOf (fs : list telegraf.Field) : list string :=
  List.map telegraf.Key fs.

(** The heap after [AddField]-like updates of one cell. *)
Definition updW (p : ptr) (f : list telegraf.Field -> list telegraf.Field)
    (w : world) : world :=
  {| heap := alter (fun c => telegraf.setFields c (f (telegraf.fields c))) p (heap w);
     ticks := ticks w |}.

(** The heap after reading the clock and allocating an empty metric. *)
Definition allocW (metricName : string) (w : world) : world :=
  {| heap := heap w ++ [{| telegraf.name := metricName; telegraf.tags := [];
                           telegraf.fields := []; telegraf.tm := TimeFunc (ticks w) |}];
     ticks := S (ticks w) |}.

(** The field name processBasicFields settles on for a rule. *)
Definition basicFieldName (field : BasicField.t) : string :=
  if String.eqb (BasicField.Name field) "" then
    lastString (strings.Split (BasicField.Query field) ".")
  else BasicField.Name field.

(** The row processBasicFields hands to expandArray for a rule, on the
    metric [m]. *)
Definition basicFieldNode (field : BasicField.t) (input : string) (m : ptr)
  : MetricNode.t :=
  {| RootFieldName := basicFieldName field; DesiredType := BasicField.Type_ field;
     Metric := m; Result := GetBytes input (BasicField.Query field) |}.

(** The heap only grew: the old cells are where they were, unchanged. *)
Definition grows (w0 w : world) : Prop := heap w0 `prefix_of` heap w.

(** [rows] are rows of an array expansion that took the heap from [w] to
    [w']: fresh, pairwise distinct metrics holding the field lists [rs], all
    under the field name [fn]. *)
Definition arrayRows (w w' : world) (fn : string) (rows : list MetricNode.t)
    (rs : list (list telegraf.Field)) : Prop :=
  grows w w' ∧
  List.map (fun r => fieldsAt w' (Metric r)) rows = rs ∧
  Forall (fun r => (length (heap w) <= Metric r < length (heap w'))%nat ∧
                   RootFieldName r = fn) rows ∧
  NoDup (List.map Metric rows).

(** The field lists of the rows expandArray returns, and its error, as a
    function of the JSON subtree, the field name, the declared type and the
    fields accumulated in the row's metric.  [expandArray_rows] below shows
    that expandArray computes exactly this on the heap. *)
Section RowsOfElems.
Variable rowsOfArray : gjson.Result -> list telegraf.Field ->
                       list (list telegraf.Field) * option error.
Variables (fn ty : string) (acc : list telegraf.Field).

Fixpoint rowsOfElems (elems : list gjson.Result)
  : list (list telegraf.Field) * option error :=
  match elems with
  | [] => ([], None)
  | val :: elems' =>
      if gjson.IsObject val then ([], Some ErrEncounteredObject)
      else if gjson.IsArray val then
        match rowsOfArray val (addFields [] acc) with
        | (_, Some _) => ([], None)
        | (r, None) => let (rs, e) := rowsOfElems elems' in (r ++ rs, e)
        end
      else
        match convertType (gjson.Value val) ty fn with
        | (_, Some _) => ([], None)
        | (v, None) =>
            let (rs, e) := rowsOfElems elems' in
            (addFields (telegraf.addField (addFields [] acc) fn v) acc :: rs, e)
        end
  end.
End RowsOfElems.

Fixpoint rowsOf (json : gjson.Result) (fn ty : string) (acc : list telegraf.Field)
  : list (list telegraf.Field) * option error :=
  match json with
  | gjson.Object _ => ([], Some ErrEncounteredObject)
  | gjson.Array elems =>
      match rowsOfElems (fun val acc' => rowsOf val fn "" acc') fn ty acc elems with
      | (_, Some e) => ([], Some e)
      | (rs, None) => (rs, None)
      end
  | gjson.Missing => ([], None)
  | _ =>
      match convertType (gjson.Value json) ty fn with
      | (_, Some e) => ([], Some e)
      | (v, None) => ([telegraf.addField acc fn v], None)
      end
  end.

(** Strings, booleans and numbers: the scalars convertType takes. *)
Definition isScalar (json : gjson.Result) : bool :=
  match json with
  | gjson.Bool _ | gjson.Number _ | gjson.Str _ => true
  | _ => false
  end.

(** A nested array of depth [length dims] whose arrays at depth [i] all
    have [dims !! i] elements, with scalars innermost. *)
Fixpoint uniform (dims : list nat) (json : gjson.Result) : Prop :=
  match dims with
  | [] => isScalar json = true
  | n :: dims' =>
      match json with
      | gjson.Array elems => length elems = n ∧ Forall (uniform dims') elems
      | _ => False
      end
  end.

(** The innermost values of a nested array, in document order. *)
Fixpoint leaves (json : gjson.Result) : list gjson.Result :=
  match json with
  | gjson.Array elems => concat (List.map leaves elems)
  | _ => [json]
  end.

(** Induction on query results, with the hypothesis for every element of an
    array and every member of an object. *)
Section ResultInd.
Variable P : gjson.Result -> Prop.
Hypothesis HMissing : P gjson.Missing.
Hypothesis HNull : P gjson.Null.
Hypothesis HBool : forall b, P (gjson.Bool b).
Hypothesis HNumber : forall n, P (gjson.Number n).
Hypothesis HStr : forall s, P (gjson.Str s).
Hypothesis HArray : forall elems, Forall P elems -> P (gjson.Array elems).
Hypothesis HObject :
  forall members, Forall (fun kv => P kv.2) members -> P (gjson.Object members).

Fixpoint Result_ind' (t : gjson.Result) : P t :=
  match t with
  | gjson.Missing => HMissing
  | gjson.Null => HNull
  | gjson.Bool b => HBool b
  | gjson.Number n => HNumber n
  | gjson.Str s => HStr s
  | gjson.Array elems =>
      HArray elems
        ((fix go (l : list gjson.Result) : Forall P l :=
            match l with
            | [] => @List.Forall_nil _ P
            | x :: l' => @List.Forall_cons _ P x l' (Result_ind' x) (go l')
            end) elems)
  | gjson.Object members =>
      HObject members
        ((fix go (l : list (string * gjson.Result)) : Forall (fun kv => P kv.2) l :=
            match l with
            | [] => @List.Forall_nil _ _
            | kv :: l' =>
                @List.Forall_cons _ (fun kv => P kv.2) kv l'
                  (match kv with (k, v) => Result_ind' v end) (go l')
            end) members)
  end.
End ResultInd.

Local Open Scope nat_scope.

(** The field list of the row of a scalar leaf: the accumulated fields
    copied, the leaf added, the accumulated fields copied once more. *)
Definition leafRow (fn : string) (acc : list telegraf.Field) (v : interface)
  : list telegraf.Field :=
  addFields (telegraf.addField (addFields [] acc) fn v) acc.

Definition rowOK (fn : string) (row : list telegraf.Field) : Prop :=
  NoDup (keysOf row) ∧ fn ∈ keysOf row.

(** The element [val] of an array converts to [v] under the row's declared
    type. *)
Definition convertsTo (ty fn : string) (val : gjson.Result) (v : interface) : Prop :=
  gjson.IsObject val = false ∧ gjson.IsArray val = false ∧
  convertType (gjson.Value val) ty fn = (v, None).


(** The heap once the closure has allocated the metric of a branch and
    copied the accumulated fields into it. *)
Definition branchW (metricName : string) (m : ptr) (w : world) : world :=
  updW (length (heap w)) (fun fs => addFields fs (fieldsAt w m)) (allocW metricName w).

(** What the induction carries for a nested array. *)
Definition expandsTo (metricName : string) (json : gjson.Result) : Prop :=
  forall fn ty m w,
    m < length (heap w) -> gjson.IsArray json = true ->
    exists rows w',
      expandArray_at json fn ty m metricName w
      = ((rows, (rowsOf json fn ty (fieldsAt w m)).2), w') ∧
      arrayRows w w' fn rows (rowsOf json fn ty (fieldsAt w m)).1.


(** The field name the closure of combineObject settles on for a key:
    the key, renamed by the name map and with its spaces removed, or the
    field name of the row when the key is empty. *)
Definition objectFieldName (nameMap : gmap string string)
    (rootFieldName key : string) : string :=
  if negb (String.eqb key "") then
    strings.RemoveAll (match nameMap !! key with
                       | Some newName => newName
                       | None => key
                       end) " "
  else rootFieldName.

(** The field the closure of combineObject adds for a child that is
    neither an array nor an object; [None] when the type map declares a
    type for the key and the conversion fails, which ends the loop. *)
Definition memberField (nameMap typeMap : gmap string string)
    (rootFieldName key : string) (val : gjson.Result) : option telegraf.Field :=
  match typeMap !! key with
  | Some desiredType =>
      match convertType (gjson.Value val) desiredType key with
      | (_, Some _) => None
      | (fieldValue, None) =>
          Some {| telegraf.Key := objectFieldName nameMap rootFieldName key;
                  telegraf.Value := fieldValue |}
      end
  | None =>
      Some {| telegraf.Key := objectFieldName nameMap rootFieldName key;
              telegraf.Value := gjson.Value val |}
  end.

(** No array anywhere in the JSON subtree. *)
Fixpoint arrayFree (json : gjson.Result) : bool :=
  match json with
  | gjson.Array _ => false
  | gjson.Object members =>
      forallb (fun kv => match kv with (_, v) => arrayFree v end) members
  | _ => true
  end.

(** What combineObject makes of the fields of the row's metric, as a
    function of the JSON subtree, for subtrees without arrays (an array is
    left alone here; [arrayFree] keeps them out).  [combineObject_flatten]
    below shows that combineObject computes exactly this on the heap. *)
Section FlattenMembers.
Variable flattenObject : gjson.Result -> string -> list telegraf.Field ->
                         list telegraf.Field.
Variables (nameMap typeMap : gmap string string) (rootFieldName : string).

Fixpoint flattenMembers (members : list (string * gjson.Result))
    (acc : list telegraf.Field) : list telegraf.Field :=
  match members with
  | [] => acc
  | (key, val) :: members' =>
      if gjson.IsArray val then acc
      else if gjson.IsObject val then
        flattenMembers members' (flattenObject val key acc)
      else
        match memberField nameMap typeMap rootFieldName key val with
        | Some f =>
            flattenMembers members'
              (telegraf.addField acc (telegraf.Key f) (telegraf.Value f))
        | None => acc
        end
  end.
End FlattenMembers.

Fixpoint flatten (nameMap typeMap : gmap string string) (json : gjson.Result)
    (rootFieldName : string) (acc : list telegraf.Field) : list telegraf.Field :=
  match json with
  | gjson.Missing => acc
  | gjson.Array _ => acc
  | gjson.Object members =>
      flattenMembers (fun val key acc' => flatten nameMap typeMap val key acc')
        nameMap typeMap rootFieldName members acc
  | _ =>
      match memberField nameMap typeMap rootFieldName "" json with
      | Some f => telegraf.addField acc (telegraf.Key f) (telegraf.Value f)
      | None => acc
      end
  end.

(** The children [members] are neither arrays nor objects, and convert to
    the values [vs] under the type map. *)
Definition membersConvert (typeMap : gmap string string)
    (members : list (string * gjson.Result)) (vs : list interface) : Prop :=
  Forall2 (fun kv v =>
             gjson.IsArray kv.2 = false ∧ gjson.IsObject kv.2 = false ∧
             match typeMap !! kv.1 with
             | Some desiredType =>
                 convertType (gjson.Value kv.2) desiredType kv.1 = (v, None)
             | None => v = gjson.Value kv.2
             end) members vs.

(** The fields combineObject adds for such children, in document order. *)
Definition membersFields (nameMap : gmap string string) (rootFieldName : string)
    (members : list (string * gjson.Result)) (vs : list interface)
  : list telegraf.Field :=
  zip_with (fun kv v => {| telegraf.Key := objectFieldName nameMap rootFieldName kv.1;
                           telegraf.Value := v |}) members vs.

(** The names of the metrics of the heap, by pointer. *)
Definition namesOf (w : world) : list string := telegraf.name <$> heap w.

(** From [w] to [w'] the metrics that existed kept their names, and every
    metric allocated since is named [metricName]. *)
Definition allocatedAs (metricName : string) (w w' : world) : Prop :=
  exists k, namesOf w' = namesOf w ++ replicate k metricName.

(** The metrics [ps] were allocated between [w] and [w']. *)
Definition allocatedIn (w w' : world) (ps : list ptr) : Prop :=
  Forall (fun p => length (heap w) <= p < length (heap w')) ps.

(** What the induction on the JSON subtree carries for combineObject: on
    a metric named [metricName] it returns rows on metrics allocated under
    that name, then the row itself, and no error. *)
Definition flattensAs (metricName : string) (json : gjson.Result) : Prop :=
  forall fn ty m nameMap typeMap w,
    namesOf w !! m = Some metricName ->
    exists metrics w',
      combineObject {| RootFieldName := fn; DesiredType := ty;
                       Metric := m; Result := json |} nameMap typeMap w
      = ((metrics ++ [{| RootFieldName := fn; DesiredType := ty;
                         Metric := m; Result := json |}], None), w') ∧
      allocatedAs metricName w w' ∧
      allocatedIn w w' (List.map Metric metrics).

(** The Go value [v] is of the kind the declared type [ty] names. *)
Definition hasKind (ty : string) (v : interface) : bool :=
  match v with
  | GoString _ => String.eqb ty "string"
  | GoBool _ => String.eqb ty "bool"
  | Float64 _ => String.eqb ty "float"
  | Int _ | Int64 _ => String.eqb ty "int"
  | _ => false
  end.

(** The byte [c] occurs in [s]. *)
Fixpoint contains (c : ascii) (s : string) : bool :=
  match s with
  | EmptyString => false
  | String c' s' => Ascii.eqb c' c || contains c s'
  end.

(** ** Field lists *)

Local Arguments String.eqb : simpl never.

Lemma setFields_fields c : telegraf.setFields c (telegraf.fields c) = c.
Proof. by destruct c. Qed.

Lemma Field_eta f : {| telegraf.Key := telegraf.Key f; telegraf.Value := telegraf.Value f |} = f.
Proof. by destruct f. Qed.

Lemma addField_notin fs key v :
  key ∉ keysOf fs ->
  telegraf.addField fs key v = fs ++ [{| telegraf.Key := key; telegraf.Value := v |}].
Proof.
  induction fs as [|f fs IH]; simpl; [done|].
  intros Hk. apply not_elem_of_cons in Hk as [Hne Hk].
  destruct (String.eqb_spec (telegraf.Key f) key) as [Heq|_]; [congruence|].
  by rewrite IH.
Qed.

Lemma addField_app_in pre f fs key v :
  key ∉ keysOf pre -> telegraf.Key f = key ->
  telegraf.addField (pre ++ f :: fs) key v
  = pre ++ {| telegraf.Key := key; telegraf.Value := v |} :: fs.
Proof.
  induction pre as [|g pre IH]; simpl.
  - intros _ ->. by rewrite String.eqb_refl.
  - intros Hk Hf. apply not_elem_of_cons in Hk as [Hne Hk].
    destruct (String.eqb_spec (telegraf.Key g) key) as [Heq|_]; [congruence|].
    by rewrite IH.
Qed.

Lemma keysOf_addField fs key v :
  keysOf (telegraf.addField fs key v)
  = if decide (key ∈ keysOf fs) then keysOf fs else keysOf fs ++ [key].
Proof.
  induction fs as [|f fs IH]; simpl.
  - done.
  - destruct (String.eqb_spec (telegraf.Key f) key) as [Heq|Hne]; simpl.
    + rewrite <-Heq. by rewrite decide_True by apply list_elem_of_here.
    + rewrite IH. destruct (decide (key ∈ keysOf fs)) as [Hin|Hnin].
      * by rewrite decide_True by by apply list_elem_of_further.
      * rewrite decide_False; [done|].
        intros [?|?]%elem_of_cons; congruence.
Qed.

Lemma elem_of_keysOf_addField fs key v k :
  k ∈ keysOf (telegraf.addField fs key v) <-> k = key ∨ k ∈ keysOf fs.
Proof.
  rewrite keysOf_addField. case_decide as Hin.
  - split; [by right|]. by intros [->|?].
  - rewrite elem_of_app, list_elem_of_singleton.
    split; (intros [?|?]; [by right|by left]).
Qed.

Lemma NoDup_addField fs key v :
  NoDup (keysOf fs) -> NoDup (keysOf (telegraf.addField fs key v)).
Proof.
  intros Hnd. rewrite keysOf_addField. case_decide as Hin; [done|].
  apply NoDup_app. split_and!; [done| |apply NoDup_singleton].
  intros k Hk ->%list_elem_of_singleton. done.
Qed.

Lemma addFields_cons fs f fl :
  addFields fs (f :: fl)
  = addFields (telegraf.addField fs (telegraf.Key f) (telegraf.Value f)) fl.
Proof. done. Qed.

Lemma addFields_nil fs : addFields fs [] = fs.
Proof. done. Qed.

Local Arguments addFields : simpl never.

Lemma NoDup_addFields fs fl :
  NoDup (keysOf fs) -> NoDup (keysOf (addFields fs fl)).
Proof.
  revert fs. induction fl as [|f fl IH]; intros fs Hnd; [done|].
  rewrite addFields_cons. by apply IH, NoDup_addField.
Qed.

Lemma elem_of_keysOf_addFields fs fl k :
  k ∈ keysOf (addFields fs fl) <-> k ∈ keysOf fs ∨ k ∈ keysOf fl.
Proof.
  revert fs. induction fl as [|f fl IH]; intros fs.
  - rewrite addFields_nil. split; [by left|].
    intros [?|Hk]; [done|]. by apply elem_of_nil in Hk.
  - rewrite addFields_cons, IH, elem_of_keysOf_addField. simpl.
    rewrite elem_of_cons.
    split; [intros [[?|?]|?]|intros [?|[?|?]]]; auto.
Qed.

Lemma getField_addField_eq fs key v :
  getField (telegraf.addField fs key v) key = Some v.
Proof.
  unfold getField. induction fs as [|f fs IH]; simpl.
  - by rewrite String.eqb_refl.
  - destruct (String.eqb_spec (telegraf.Key f) key) as [Heq|Hne]; simpl.
    + by rewrite String.eqb_refl.
    + by apply String.eqb_neq in Hne as ->.
Qed.

Lemma getField_addField_ne fs key v k :
  k <> key -> getField (telegraf.addField fs key v) k = getField fs k.
Proof.
  intros Hne. unfold getField. induction fs as [|f fs IH]; simpl.
  - assert (String.eqb key k = false) as -> by by apply String.eqb_neq.
    done.
  - destruct (String.eqb_spec (telegraf.Key f) key) as [Hk|Hk]; simpl.
    + rewrite Hk. assert (String.eqb key k = false) as -> by by apply String.eqb_neq.
      done.
    + destruct (String.eqb (telegraf.Key f) k); [done|apply IH].
Qed.

Lemma getField_Some_keysOf fs k : is_Some (getField fs k) <-> k ∈ keysOf fs.
Proof.
  unfold getField. induction fs as [|f fs IH]; simpl.
  - split; [by intros [? ?]|]. by intros ?%elem_of_nil.
  - destruct (String.eqb_spec (telegraf.Key f) k) as [<-|Hne]; simpl.
    + split; [intros _; apply list_elem_of_here|by eexists].
    + rewrite IH, elem_of_cons. split; [by right|]. by intros [?|?]; [congruence|].
Qed.

Lemma getField_addFields_notin fs fl k :
  k ∉ keysOf fl -> getField (addFields fs fl) k = getField fs k.
Proof.
  revert fs. induction fl as [|f fl IH]; intros fs Hk; [done|].
  apply not_elem_of_cons in Hk as [Hne Hk].
  rewrite addFields_cons, IH by done.
  by apply getField_addField_ne.
Qed.

Lemma getField_addFields_in fs fl k v :
  NoDup (keysOf fl) -> getField fl k = Some v ->
  getField (addFields fs fl) k = Some v.
Proof.
  revert fs. induction fl as [|f fl IH]; intros fs Hnd Hget; [done|].
  simpl in Hnd. apply NoDup_cons in Hnd as [Hf Hnd]. rewrite addFields_cons.
  unfold getField in Hget. simpl in Hget.
  destruct (String.eqb_spec (telegraf.Key f) k) as [<-|Hne]; simpl in Hget.
  - injection Hget as <-.
    rewrite getField_addFields_notin by done. apply getField_addField_eq.
  - by apply IH.
Qed.

(** Adding fields with fresh, distinct keys appends them. *)
Lemma addFields_fresh pre fl :
  NoDup (keysOf fl) -> (forall k, k ∈ keysOf fl -> k ∉ keysOf pre) ->
  addFields pre fl = pre ++ fl.
Proof.
  revert pre. induction fl as [|f fl IH]; intros pre Hnd Hdis.
  - by rewrite addFields_nil, app_nil_r.
  - simpl in Hnd. apply NoDup_cons in Hnd as [Hf Hnd]. rewrite addFields_cons.
    rewrite addField_notin by (apply Hdis, list_elem_of_here).
    rewrite Field_eta.
    rewrite IH; [by rewrite <-app_assoc|done|].
    intros k Hk. unfold keysOf. rewrite map_app.
    intros [Hin|Hin]%elem_of_app.
    + by apply (Hdis k); [apply list_elem_of_further|].
    + simpl in Hin. apply list_elem_of_singleton in Hin as ->. done.
Qed.

(** Adding the fields of [fl] over a stretch with the same keys writes
    [fl] there and leaves the rest alone. *)
Lemma addFields_overwrite pre fs post fl :
  NoDup (keysOf fl) -> keysOf fs = keysOf fl ->
  (forall k, k ∈ keysOf fl -> k ∉ keysOf pre) ->
  addFields (pre ++ fs ++ post) fl = pre ++ fl ++ post.
Proof.
  revert pre fs. induction fl as [|f fl IH]; intros pre fs Hnd Hkeys Hdis.
  - by destruct fs.
  - destruct fs as [|g fs]; [done|]. simpl in Hkeys. injection Hkeys as Hg Hkeys.
    simpl in Hnd. apply NoDup_cons in Hnd as [Hf Hnd].
    rewrite addFields_cons. simpl.
    rewrite addField_app_in; [|apply Hdis, list_elem_of_here|done].
    rewrite Field_eta.
    replace (pre ++ f :: fs ++ post) with ((pre ++ [f]) ++ fs ++ post)
      by by rewrite <-app_assoc.
    rewrite IH; [by rewrite <-app_assoc|done|done|].
    intros k Hk. unfold keysOf. rewrite map_app.
    intros [Hin|Hin]%elem_of_app.
    + by apply (Hdis k); [apply list_elem_of_further|].
    + simpl in Hin. apply list_elem_of_singleton in Hin as ->. done.
Qed.

Lemma addFields_nil_NoDup fl : NoDup (keysOf fl) -> addFields [] fl = fl.
Proof.
  intros Hnd. rewrite addFields_fresh; [done|done|].
  intros k _. apply not_elem_of_nil.
Qed.

(** ** The heap *)

Lemma world_eta w : {| heap := heap w; ticks := ticks w |} = w.
Proof. by destruct w. Qed.

Lemma updW_updW p f g w :
  updW p g (updW p f w) = updW p (fun fs => g (f fs)) w.
Proof.
  unfold updW. simpl. f_equal. rewrite list_alter_alter_eq.
  apply list_alter_ext; [|done]. by intros [].
Qed.

Lemma updW_id p w : updW p (fun fs => fs) w = w.
Proof.
  unfold updW. rewrite list_alter_id by apply setFields_fields.
  apply world_eta.
Qed.

Lemma length_updW p f w : length (heap (updW p f w)) = length (heap w).
Proof. apply length_alter. Qed.

Lemma fieldsAt_updW_eq p f w :
  p < length (heap w) -> fieldsAt (updW p f w) p = f (fieldsAt w p).
Proof.
  intros Hp. unfold fieldsAt, updW. simpl. rewrite list_lookup_alter_eq.
  destruct (heap w !! p) as [c|] eqn:E; [done|].
  apply lookup_ge_None in E. lia.
Qed.

Lemma fieldsAt_updW_ne p q f w : p <> q -> fieldsAt (updW p f w) q = fieldsAt w q.
Proof.
  intros Hne. unfold fieldsAt, updW. simpl.
  by rewrite list_lookup_alter_ne.
Qed.

Lemma length_allocW metricName w :
  length (heap (allocW metricName w)) = S (length (heap w)).
Proof. unfold allocW. simpl. rewrite length_app. simpl. lia. Qed.

Lemma fieldsAt_allocW_new metricName w :
  fieldsAt (allocW metricName w) (length (heap w)) = [].
Proof. unfold fieldsAt, allocW. simpl. by rewrite list_lookup_middle. Qed.

Lemma grows_refl w : grows w w.
Proof. unfold grows. done. Qed.

Lemma grows_trans w1 w2 w3 : grows w1 w2 -> grows w2 w3 -> grows w1 w3.
Proof. unfold grows. by intros ? ?; etrans. Qed.

Lemma grows_length w0 w : grows w0 w -> length (heap w0) <= length (heap w).
Proof. apply prefix_length. Qed.

Lemma grows_lookup w0 w p :
  grows w0 w -> p < length (heap w0) -> heap w !! p = heap w0 !! p.
Proof.
  intros [ext ->] Hp. by apply lookup_app_l.
Qed.

Lemma grows_fieldsAt w0 w p :
  grows w0 w -> p < length (heap w0) -> fieldsAt w p = fieldsAt w0 p.
Proof. intros Hg Hp. unfold fieldsAt. by rewrite (grows_lookup w0 w). Qed.

Lemma grows_allocW metricName w : grows w (allocW metricName w).
Proof. by eexists. Qed.

Lemma grows_updW w0 w p f :
  grows w0 w -> length (heap w0) <= p -> grows w0 (updW p f w).
Proof.
  intros [ext Hext] Hp. unfold grows, updW. simpl. rewrite Hext.
  replace p with (length (heap w0) + (p - length (heap w0))) by lia.
  rewrite alter_app_r. by eexists.
Qed.

(** ** Running the metric operations *)

Lemma AddField_run m key v w :
  metric.AddField m key v w = (tt, updW m (fun fs => telegraf.addField fs key v) w).
Proof. done. Qed.

Lemma alloc_run {A} metricName (k : ptr -> M A) w :
  bind now (fun t => bind (metric.New metricName t) k) w
  = k (length (heap w)) (allocW metricName w).
Proof. done. Qed.

Lemma forRange_AddField dst fl w :
  forRange fl (fun f => metric.AddField dst (telegraf.Key f) (telegraf.Value f)) w
  = (tt, updW dst (fun fs => addFields fs fl) w).
Proof.
  revert w. induction fl as [|f fl IH]; intros w.
  - simpl. unfold ret. by rewrite updW_id.
  - simpl. unfold bind. rewrite AddField_run, IH, updW_updW. done.
Qed.

Lemma copyFields_run src dst w :
  copyFields src dst w = (tt, updW dst (fun fs => addFields fs (fieldsAt w src)) w).
Proof. unfold copyFields, bind. simpl. apply forRange_AddField. Qed.

(** ** expandArray and combineObject are their bodies *)

Lemma expandArray_eq result metricName :
  expandArray result metricName = expandArray_body result metricName.
Proof. destruct result as [fn ty m json]. by destruct json. Qed.

Lemma combineObject_eq result nameMap typeMap :
  combineObject result nameMap typeMap = combineObject_body result nameMap typeMap.
Proof. destruct result as [fn ty m json]. by destruct json. Qed.

(** ** One turn of the closure of expandArray *)

Local Arguments expandArray_at : simpl never.
Local Arguments rowsOf : simpl never.

Lemma branchW_grows metricName m w : grows w (branchW metricName m w).
Proof. apply grows_updW; [apply grows_allocW|done]. Qed.

Lemma branchW_length metricName m w :
  length (heap (branchW metricName m w)) = S (length (heap w)).
Proof. unfold branchW. by rewrite length_updW, length_allocW. Qed.

Lemma branchW_new metricName m w :
  fieldsAt (branchW metricName m w) (length (heap w)) = addFields [] (fieldsAt w m).
Proof.
  unfold branchW. rewrite fieldsAt_updW_eq by (rewrite length_allocW; lia).
  by rewrite fieldsAt_allocW_new.
Qed.

Lemma branchW_old metricName m w p :
  p < length (heap w) -> fieldsAt (branchW metricName m w) p = fieldsAt w p.
Proof. intros Hp. by apply grows_fieldsAt; [apply branchW_grows|]. Qed.

Lemma iterator_object self result metricName key val err results w :
  gjson.IsObject val = true ->
  expandArray_iterator self result metricName key val (err, results) w
  = ((false, (Some ErrEncounteredObject, results)), w).
Proof. intros Hobj. unfold expandArray_iterator. by rewrite Hobj. Qed.

Lemma iterator_array self result metricName key val err results w :
  Metric result < length (heap w) ->
  gjson.IsObject val = false -> gjson.IsArray val = true ->
  expandArray_iterator self result metricName key val (err, results) w
  = (let '((r, err'), w') :=
       self {| RootFieldName := RootFieldName result; DesiredType := "";
               Metric := length (heap w); Result := val |} metricName
            (branchW metricName (Metric result) w) in
     match err' with
     | Some _ => ((false, (err, results)), w')
     | None => ((true, (err, results ++ r)), w')
     end).
Proof.
  intros Hm Hobj Harr. unfold expandArray_iterator. rewrite Hobj, Harr.
  rewrite alloc_run. unfold bind at 1. rewrite copyFields_run.
  rewrite (grows_fieldsAt w) by (done || apply grows_allocW).
  fold (branchW metricName (Metric result) w). unfold bind.
  destruct (self _ _ _) as [[r [e|]] w']; done.
Qed.

Lemma iterator_scalar self result metricName key val err results w :
  Metric result < length (heap w) ->
  gjson.IsObject val = false -> gjson.IsArray val = false ->
  expandArray_iterator self result metricName key val (err, results) w
  = match convertType (gjson.Value val) (DesiredType result) (RootFieldName result) with
    | (_, Some _) => ((false, (err, results)), branchW metricName (Metric result) w)
    | (v, None) =>
        ((true, (err, results ++ [{| RootFieldName := RootFieldName result;
                                     DesiredType := ""; Metric := length (heap w);
                                     Result := val |}])),
         updW (length (heap w))
           (fun fs => addFields (telegraf.addField fs (RootFieldName result) v)
                        (fieldsAt w (Metric result)))
           (branchW metricName (Metric result) w))
    end.
Proof.
  intros Hm Hobj Harr. unfold expandArray_iterator. rewrite Hobj, Harr.
  rewrite alloc_run. unfold bind at 1. rewrite copyFields_run.
  rewrite (grows_fieldsAt w) by (done || apply grows_allocW).
  fold (branchW metricName (Metric result) w).
  destruct (convertType _ _ _) as [v [e|]]; [done|].
  unfold bind. rewrite AddField_run, copyFields_run.
  rewrite fieldsAt_updW_ne by lia. rewrite branchW_old by done.
  by rewrite updW_updW.
Qed.

(** ** expandArray computes [rowsOf] *)

Lemma arrayRows_nil w w' fn : grows w w' -> arrayRows w w' fn [] [].
Proof. intros Hg. split_and!; [done|done|constructor|constructor]. Qed.

Lemma arrayRows_app w w1 w' fn rows1 rs1 rows2 rs2 :
  arrayRows w w1 fn rows1 rs1 -> arrayRows w1 w' fn rows2 rs2 ->
  arrayRows w w' fn (rows1 ++ rows2) (rs1 ++ rs2).
Proof.
  intros (Hg1 & Hf1 & Hb1 & Hn1) (Hg2 & Hf2 & Hb2 & Hn2).
  pose proof (grows_length _ _ Hg1). pose proof (grows_length _ _ Hg2).
  split_and!.
  - by eapply grows_trans.
  - rewrite map_app, Hf2. f_equal. rewrite <-Hf1.
    apply map_ext_Forall. eapply Forall_impl; [exact Hb1|].
    intros r [Hr _]. simpl in *. apply grows_fieldsAt; [done|lia].
  - apply Forall_app. split.
    + eapply Forall_impl; [exact Hb1|]. intros r [Hr ?]. split; [lia|done].
    + eapply Forall_impl; [exact Hb2|]. intros r [Hr ?]. split; [lia|done].
  - rewrite map_app. apply NoDup_app. split_and!; [done| |done].
    intros p [r1 [-> Hr1]]%list_elem_of_fmap [r2 [Heq Hr2]]%list_elem_of_fmap.
    rewrite Forall_forall in Hb1, Hb2.
    destruct (Hb1 _ Hr1) as [? _]. destruct (Hb2 _ Hr2) as [? _]. lia.
Qed.

Lemma arrayRows_shift w w0 w' fn rows rs :
  grows w w0 -> arrayRows w0 w' fn rows rs -> arrayRows w w' fn rows rs.
Proof.
  intros Hg (Hg' & Hf & Hb & Hn). pose proof (grows_length _ _ Hg).
  split_and!; [by eapply grows_trans|done| |done].
  eapply Forall_impl; [exact Hb|]. intros r [Hr ?]. split; [lia|done].
Qed.

Lemma eachElem_rows result metricName elems :
  Forall (expandsTo metricName) elems ->
  forall i err0 results0 w,
    Metric result < length (heap w) ->
    exists rows w',
      gjson.eachElem arrayKey (expandArray_iterator expandArray result metricName)
        i elems (err0, results0) w
      = ((match (rowsOfElems (fun val acc' => rowsOf val (RootFieldName result) "" acc')
                   (RootFieldName result) (DesiredType result)
                   (fieldsAt w (Metric result)) elems).2 with
          | Some e => Some e
          | None => err0
          end, results0 ++ rows), w') ∧
      arrayRows w w' (RootFieldName result) rows
        (rowsOfElems (fun val acc' => rowsOf val (RootFieldName result) "" acc')
           (RootFieldName result) (DesiredType result)
           (fieldsAt w (Metric result)) elems).1.
Proof.
  induction 1 as [|val elems Hval _ IH]; intros i err0 results0 w Hm.
  - exists [], w. simpl. rewrite app_nil_r. split; [done|].
    apply arrayRows_nil, grows_refl.
  - cbn [gjson.eachElem rowsOfElems]. unfold bind at 1.
    destruct (gjson.IsObject val) eqn:Hobj.
    { rewrite iterator_object by done. exists [], w. simpl. rewrite app_nil_r.
      split; [done|]. apply arrayRows_nil, grows_refl. }
    pose proof (branchW_grows metricName (Metric result) w) as Hgb.
    pose proof (branchW_length metricName (Metric result) w) as Hlb.
    destruct (gjson.IsArray val) eqn:Harr.
    + rewrite iterator_array by done.
      destruct (Hval (RootFieldName result) "" (length (heap w))
                  (branchW metricName (Metric result) w)) as (rows1 & w1 & Hrun & Hrows1);
        [lia|done|].
      rewrite branchW_new in Hrun, Hrows1.
      change (expandArray_at val (RootFieldName result) "" (length (heap w)) metricName)
        with (expandArray {| RootFieldName := RootFieldName result; DesiredType := "";
                             Metric := length (heap w); Result := val |} metricName)
        in Hrun.
      rewrite Hrun. clear Hrun.
      destruct (rowsOf val _ _ _) as [r [e|]]; simpl in *.
      * exists [], w1. rewrite app_nil_r. split; [done|].
        apply arrayRows_nil. eapply grows_trans; [exact Hgb|apply Hrows1].
      * assert (grows w w1) as Hg1 by (eapply grows_trans; [exact Hgb|apply Hrows1]).
        pose proof (grows_length _ _ Hg1).
        destruct (IH (S i) err0 (results0 ++ rows1) w1) as (rows2 & w' & Hloop & Hrows2);
          [lia|].
        rewrite (grows_fieldsAt w w1) in Hloop, Hrows2 by done.
        rewrite Hloop. exists (rows1 ++ rows2), w'.
        destruct (rowsOfElems _ _ _ _ elems) as [rs e]; simpl in *.
        rewrite app_assoc. split; [done|].
        eapply arrayRows_app; [|exact Hrows2].
        eapply arrayRows_shift; [exact Hgb|exact Hrows1].
    + rewrite iterator_scalar by done.
      destruct (convertType _ _ _) as [v [e|]]; simpl.
      * exists [], (branchW metricName (Metric result) w). rewrite app_nil_r.
        split; [done|]. by apply arrayRows_nil.
      * set (n := {| RootFieldName := RootFieldName result; DesiredType := "";
                     Metric := length (heap w); Result := val |}).
        set (w1 := updW _ _ _).
        assert (grows w w1) as Hg1 by by apply grows_updW.
        assert (length (heap w1) = S (length (heap w))) as Hl1
          by (unfold w1; by rewrite length_updW).
        assert (arrayRows w w1 (RootFieldName result) [n]
                  [addFields (telegraf.addField (addFields [] (fieldsAt w (Metric result)))
                                (RootFieldName result) v)
                     (fieldsAt w (Metric result))]) as Hrows1.
        { split_and!; [done| | |apply NoDup_singleton].
          - simpl. unfold w1. rewrite fieldsAt_updW_eq by lia.
            by rewrite branchW_new.
          - constructor; [|constructor].
            split; [change (Metric n) with (length (heap w)); lia|done]. }
        destruct (IH (S i) err0 (results0 ++ [n]) w1) as (rows2 & w' & Hloop & Hrows2);
          [lia|].
        rewrite (grows_fieldsAt w w1) in Hloop, Hrows2 by done.
        rewrite Hloop. exists ([n] ++ rows2), w'.
        destruct (rowsOfElems _ _ _ _ elems) as [rs e]; simpl in *.
        rewrite <-app_assoc. split; [done|].
        by apply (arrayRows_app w w1 w' _ [n] [_]).
Qed.

Lemma expandArray_at_expandsTo metricName json : expandsTo metricName json.
Proof.
  induction json as [| | | | |elems IH|] using Result_ind';
    intros fn ty m w Hm Harr; try discriminate.
  set (result := {| RootFieldName := fn; DesiredType := ty; Metric := m;
                    Result := gjson.Array elems |}).
  destruct (eachElem_rows result metricName elems IH 0 None [] w Hm)
    as (rows & w' & Hloop & Hrows).
  change (expandArray_at (gjson.Array elems) fn ty m metricName w)
    with (bind (gjson.eachElem arrayKey
                  (expandArray_iterator expandArray result metricName) 0 elems (None, []))
            (fun x => match x with
                      | (err, results) =>
                          match err with
                          | Some e => ret ([], Some e)
                          | None => ret (results, None)
                          end
                      end) w).
  unfold bind. rewrite Hloop. simpl in Hrows |- *.
  unfold rowsOf; fold rowsOf.
  destruct (rowsOfElems _ _ _ _ elems) as [rs [e|]]; simpl in *.
  - exists [], w'. split; [done|]. apply arrayRows_nil, Hrows.
  - by exists rows, w'.
Qed.

(** On an array, expandArray returns rows in fresh metrics whose field
    lists, and the error, are those of [rowsOf]. *)
Lemma expandArray_rows result metricName w :
  Metric result < length (heap w) -> gjson.IsArray (Result result) = true ->
  exists rows w',
    expandArray result metricName w
    = ((rows, (rowsOf (Result result) (RootFieldName result) (DesiredType result)
                 (fieldsAt w (Metric result))).2), w') ∧
    arrayRows w w' (RootFieldName result) rows
      (rowsOf (Result result) (RootFieldName result) (DesiredType result)
         (fieldsAt w (Metric result))).1.
Proof. intros Hm Harr. by apply expandArray_at_expandsTo. Qed.

(** Off arrays, expandArray returns at most the row it was given. *)
Lemma expandArray_not_array result metricName w :
  gjson.IsArray (Result result) = false ->
  expandArray result metricName w
  = if gjson.IsObject (Result result) then (([], Some ErrEncounteredObject), w)
    else if gjson.Exists (Result result) then
      match convertType (gjson.Value (Result result)) (DesiredType result)
                        (RootFieldName result) with
      | (_, Some e) => (([], Some e), w)
      | (v, None) =>
          (([result], None),
           updW (Metric result) (fun fs => telegraf.addField fs (RootFieldName result) v) w)
      end
    else (([], None), w).
Proof.
  intros Harr. rewrite expandArray_eq. unfold expandArray_body, expandArray_rest.
  rewrite Harr. destruct (gjson.IsObject _); [done|].
  destruct (gjson.Exists _); [|done].
  destruct (convertType _ _ _) as [v [e|]]; [done|].
  unfold bind. by rewrite AddField_run.
Qed.

Lemma expandArray_rows_le_1 result metricName w rows err w' :
  gjson.IsArray (Result result) = false ->
  expandArray result metricName w = ((rows, err), w') -> length rows <= 1.
Proof.
  intros Harr. rewrite expandArray_not_array by done.
  destruct (gjson.IsObject _); [intros [= <- _ _]; simpl; lia|].
  destruct (gjson.Exists _); [|intros [= <- _ _]; simpl; lia].
  destruct (convertType _ _ _) as [v [e|]]; intros [= <- _ _]; simpl; lia.
Qed.

(** ** The rows of an array expansion *)

Lemma rowsOf_Array elems fn ty acc :
  rowsOf (gjson.Array elems) fn ty acc
  = match rowsOfElems (fun val acc' => rowsOf val fn "" acc') fn ty acc elems with
    | (_, Some e) => ([], Some e)
    | (rs, None) => (rs, None)
    end.
Proof. done. Qed.

Lemma leafRow_NoDup fn acc v : NoDup (keysOf (leafRow fn acc v)).
Proof.
  unfold leafRow. apply NoDup_addFields, NoDup_addField, NoDup_addFields.
  constructor.
Qed.

Lemma leafRow_key fn acc v : fn ∈ keysOf (leafRow fn acc v).
Proof.
  unfold leafRow. apply elem_of_keysOf_addFields. left.
  apply elem_of_keysOf_addField. by left.
Qed.

(** A field name the accumulated fields do not hold yet: the row is the
    accumulated fields and then the leaf. *)
Lemma leafRow_fresh fn acc v :
  NoDup (keysOf acc) -> fn ∉ keysOf acc ->
  leafRow fn acc v = acc ++ [{| telegraf.Key := fn; telegraf.Value := v |}].
Proof.
  intros Hnd Hfn. unfold leafRow.
  rewrite addFields_nil_NoDup, addField_notin by done.
  apply (addFields_overwrite [] acc); [done|done|].
  intros k _. apply not_elem_of_nil.
Qed.

(** A field name the accumulated fields already hold: the second copy puts
    the accumulated value back, and the row is the accumulated fields. *)
Lemma leafRow_shadowed fn acc v :
  NoDup (keysOf acc) -> fn ∈ keysOf acc -> leafRow fn acc v = acc.
Proof.
  intros Hnd Hfn. unfold leafRow. rewrite addFields_nil_NoDup by done.
  pose proof (addFields_overwrite [] (telegraf.addField acc fn v) [] acc) as H.
  rewrite !app_nil_r in H. apply H; [done| |].
  - rewrite keysOf_addField. by rewrite decide_True.
  - intros k _. apply not_elem_of_nil.
Qed.

Lemma rowsOfElems_rowOK rowsOfArray fn ty acc elems :
  Forall (fun val => forall acc', gjson.IsArray val = true ->
                     Forall (rowOK fn) (rowsOfArray val acc').1) elems ->
  Forall (rowOK fn) (rowsOfElems rowsOfArray fn ty acc elems).1.
Proof.
  induction 1 as [|val elems Hval _ IH]; simpl; [constructor|].
  destruct (gjson.IsObject val); [constructor|].
  destruct (gjson.IsArray val) eqn:Harr.
  - specialize (Hval (addFields [] acc) eq_refl).
    destruct (rowsOfArray val _) as [r [e|]]; [constructor|].
    destruct (rowsOfElems _ _ _ _ elems) as [rs e]. simpl in *.
    by apply Forall_app.
  - destruct (convertType _ _ _) as [v [e|]]; [constructor|].
    destruct (rowsOfElems _ _ _ _ elems) as [rs e]. simpl in *.
    constructor; [|done]. split; [apply leafRow_NoDup|apply leafRow_key].
Qed.

Lemma rowsOf_rowOK json fn ty acc :
  gjson.IsArray json = true -> Forall (rowOK fn) (rowsOf json fn ty acc).1.
Proof.
  revert ty acc.
  induction json as [| | | | |elems IH|] using Result_ind';
    intros ty acc Harr; try discriminate.
  rewrite rowsOf_Array.
  pose proof (rowsOfElems_rowOK (fun val acc' => rowsOf val fn "" acc') fn ty acc elems)
    as H.
  destruct (rowsOfElems _ _ _ _ elems) as [rs [e|]]; [constructor|].
  apply H. eapply Forall_impl; [exact IH|]. intros val Hval acc'. apply Hval.
Qed.

(** A flat array whose elements all convert. *)
Lemma rowsOfElems_flat rowsOfArray fn ty acc elems vs :
  Forall2 (fun val v => gjson.IsObject val = false ∧ gjson.IsArray val = false ∧
                        convertType (gjson.Value val) ty fn = (v, None)) elems vs ->
  rowsOfElems rowsOfArray fn ty acc elems = (List.map (leafRow fn acc) vs, None).
Proof.
  induction 1 as [|val v elems vs (Hobj & Harr & Hconv) _ IH]; simpl; [done|].
  by rewrite Hobj, Harr, Hconv, IH.
Qed.

(** An array of arrays, each of which expands without error. *)
Lemma rowsOfElems_nested rowsOfArray fn ty acc elems
    (f : gjson.Result -> list (list telegraf.Field)) :
  Forall (fun val => gjson.IsObject val = false ∧ gjson.IsArray val = true ∧
                     rowsOfArray val (addFields [] acc) = (f val, None)) elems ->
  rowsOfElems rowsOfArray fn ty acc elems = (concat (List.map f elems), None).
Proof.
  induction 1 as [|val elems (Hobj & Harr & Hrec) _ IH]; simpl; [done|].
  by rewrite Hobj, Harr, Hrec, IH.
Qed.

Lemma convertType_keep json name :
  isScalar json = true ->
  convertType (gjson.Value json) "" name = (gjson.Value json, None).
Proof. by destruct json. Qed.

Lemma uniform_not_object dims json : uniform dims json -> gjson.IsObject json = false.
Proof. destruct dims as [|n dims]; by destruct json. Qed.

Lemma uniform_IsArray dims json :
  uniform dims json -> gjson.IsArray json = bool_decide (dims <> []).
Proof. destruct dims as [|n dims]; by destruct json. Qed.

Lemma leaves_scalar json : isScalar json = true -> leaves json = [json].
Proof. by destruct json. Qed.

(** A nested array with branching factors [dims] has their product as its
    number of leaves. *)
Lemma length_leaves dims json :
  uniform dims json -> length (leaves json) = foldr Nat.mul 1 dims.
Proof.
  revert json. induction dims as [|n dims IH]; intros json Hu.
  - simpl in *. by rewrite leaves_scalar.
  - destruct json as [| | | | |elems|]; try done. destruct Hu as [<- Hall].
    simpl. clear -IH Hall. induction Hall as [|val elems Hval _ IHl]; [done|].
    simpl. rewrite length_app, IHl, (IH val) by done. done.
Qed.

(** The rows of a uniform nested array: one per leaf, in document order,
    the accumulated fields and then the leaf as it is.  The declared type
    reaches the elements of the outermost array only. *)
Lemma rowsOf_uniform fn dims : forall json ty acc,
  dims <> [] -> uniform dims json ->
  ty = "" ∨ 2 <= length dims ->
  NoDup (keysOf acc) -> fn ∉ keysOf acc ->
  rowsOf json fn ty acc
  = (List.map (fun leaf => acc ++ [{| telegraf.Key := fn;
                                      telegraf.Value := gjson.Value leaf |}])
       (leaves json), None).
Proof.
  induction dims as [|n dims IH]; intros json ty acc Hne Hu Hty Hnd Hfn; [done|].
  destruct json as [| | | | |elems|]; try done. destruct Hu as [_ Hall].
  rewrite rowsOf_Array. destruct dims as [|n' dims].
  - destruct Hty as [->|Hlen]; [|simpl in Hlen; lia].
    rewrite (rowsOfElems_flat _ fn "" acc elems (List.map gjson.Value elems)).
    + f_equal. simpl. clear -Hall Hnd Hfn.
      induction Hall as [|val elems Hval _ IHl]; [done|].
      simpl in *. rewrite leaves_scalar by done. simpl.
      by rewrite leafRow_fresh, IHl.
    + clear -Hall. induction Hall as [|val elems Hval _ IHl]; constructor; [|done].
      simpl in Hval. split_and!; [by destruct val|by destruct val|].
      by apply convertType_keep.
  - rewrite (rowsOfElems_nested _ fn ty acc elems
               (fun val => List.map (fun leaf => acc ++ [{| telegraf.Key := fn;
                                        telegraf.Value := gjson.Value leaf |}])
                             (leaves val))).
    + f_equal. simpl. clear. induction elems as [|val elems IHl]; [done|].
      simpl. by rewrite map_app, IHl.
    + eapply Forall_impl; [exact Hall|]. intros val Hval.
      split_and!; [by eapply uniform_not_object|by rewrite (uniform_IsArray _ _ Hval)|].
      rewrite addFields_nil_NoDup by done.
      apply IH; [done|done|by left|done|done].
Qed.

(** ** The type converter *)

(** [truncSF] rounds toward zero: it is the quotient of the integer parts,
    and [Z.quot] rounds toward zero. *)
Lemma truncSF_finite s m e :
  truncSF (S754_finite s m e)
  = Some (((if s then - Z.pos m else Z.pos m) * 2 ^ Z.max e 0) ÷ 2 ^ Z.max (- e) 0)%Z.
Proof.
  unfold truncSF. f_equal.
  destruct (Z.le_gt_cases 0 e) as [He|He].
  - rewrite Z.max_l, Z.max_r by lia. rewrite Z.quot_1_r.
    rewrite Z.shiftl_mul_pow2 by done. destruct s; lia.
  - rewrite Z.max_r, Z.max_l by lia. rewrite Z.mul_1_r.
    assert (Z.shiftl (Z.pos m) e = Z.pos m / 2 ^ (- e))%Z as ->.
    { replace e with (- - e)%Z at 1 by lia.
      rewrite Z.shiftl_opp_r. apply Z.shiftr_div_pow2. lia. }
    assert (0 < 2 ^ (- e))%Z by (apply Z.pow_pos_nonneg; lia).
    destruct s.
    + rewrite Z.quot_opp_l by lia. by rewrite Z.quot_div_nonneg by lia.
    + by rewrite Z.quot_div_nonneg by lia.
Qed.

(** C7, as the code has it: "42" to int is the integer 42, true to int is
    1, 1.0 to bool is true and 0.0 is false, every other number to bool is a
    conversion error (3.0 as much as 3.5), "x" to int is a conversion error,
    and a float to int is cut toward zero (3.75 gives 3, -3.75 gives -3, 2.5
    gives 2): for every finite float whose integer part fits int64 the
    result is that integer part. *)
Theorem C7_convert_examples (name : string) :
  convertType (GoString "42") "int" name = (Int 42, None) ∧
  convertType (GoBool true) "int" name = (Int64 1, None) ∧
  convertType (Float64 1) "bool" name = (GoBool true, None) ∧
  convertType (Float64 0) "bool" name = (GoBool false, None) ∧
  convertType (Float64 3) "bool" name
    = (Nil, Some (ErrUnableToConvert name "bool" None)) ∧
  (forall f, PrimFloat.eqb f 0 = false -> PrimFloat.eqb f 1 = false ->
     convertType (Float64 f) "bool" name
     = (Nil, Some (ErrUnableToConvert name "bool" None))) ∧
  convertType (Float64 3.5) "bool" name
    = (Nil, Some (ErrUnableToConvert name "bool" None)) ∧
  convertType (GoString "x") "int" name
    = (Nil, Some (ErrUnableToConvert name "int" (Some strconv.ErrSyntax))) ∧
  convertType (Float64 3.75) "int" name = (Int64 3, None) ∧
  convertType (Float64 (-3.75)) "int" name = (Int64 (-3), None) ∧
  convertType (Float64 2.5) "int" name = (Int64 2, None) ∧
  (forall f s m e,
     Prim2SF f = S754_finite s m e ->
     let q := (((if s then - Z.pos m else Z.pos m) * 2 ^ Z.max e 0)
               ÷ 2 ^ Z.max (- e) 0)%Z in
     (- 2 ^ 63 <= q < 2 ^ 63)%Z ->
     convertType (Float64 f) "int" name = (Int64 q, None)).
Proof.
  split_and!; try reflexivity.
  { intros f H0 H1.
    change (convertType (Float64 f) "bool" name)
      with (if PrimFloat.eqb f 0 then (GoBool false, @None error)
            else if PrimFloat.eqb f 1 then (GoBool true, None)
            else (Nil, Some (ErrUnableToConvert name "bool" None))).
    by rewrite H0, H1. }
  intros f s m e Hf q Hq.
  change (convertType (Float64 f) "int" name)
    with (Int64 (int64_of_float64 int64_unrepresentable f), @None error).
  unfold int64_of_float64. rewrite Hf, truncSF_finite. fold q.
  destruct (Z.leb_spec (- 2 ^ 63) q); [|lia].
  destruct (Z.ltb_spec q (2 ^ 63)); [done|lia].
Qed.

(** C4, as the code has it: with an empty declared type a string, a
    boolean and a float64 come back unchanged, and every other kind of value
    (nil, a slice, a map, an integer) is refused with the unknown-format
    error. *)
Theorem C4_convert_empty_type (input : interface) (name : string) :
  convertType input "" name
  = match input with
    | GoString _ | GoBool _ | Float64 _ => (input, None)
    | _ => (Nil, Some (ErrUnknownFormat name))
    end.
Proof. by destruct input. Qed.

(** ** Array expansion *)

Lemma rowsOfElems_prefix rowsOfArray fn ty acc pre vs rest :
  Forall2 (fun val v => gjson.IsObject val = false ∧ gjson.IsArray val = false ∧
                        convertType (gjson.Value val) ty fn = (v, None)) pre vs ->
  rowsOfElems rowsOfArray fn ty acc (pre ++ rest)
  = (List.map (leafRow fn acc) vs ++ (rowsOfElems rowsOfArray fn ty acc rest).1,
     (rowsOfElems rowsOfArray fn ty acc rest).2).
Proof.
  induction 1 as [|val v pre vs (Hobj & Harr & Hconv) _ IH]; simpl.
  - by destruct (rowsOfElems _ _ _ _ rest).
  - by rewrite Hobj, Harr, Hconv, IH.
Qed.

Lemma arrayRows_length w w' fn rows rs :
  arrayRows w w' fn rows rs -> length rows = length rs.
Proof. intros (_ & <- & _). by rewrite length_map. Qed.

(** A flat array whose elements all convert expands to one row per
    element. *)
Lemma expandArray_flat result metricName w elems vs :
  Metric result < length (heap w) ->
  Result result = gjson.Array elems ->
  Forall2 (convertsTo (DesiredType result) (RootFieldName result)) elems vs ->
  exists rows w',
    expandArray result metricName w = ((rows, None), w') ∧
    arrayRows w w' (RootFieldName result) rows
      (List.map (leafRow (RootFieldName result) (fieldsAt w (Metric result))) vs).
Proof.
  intros Hm Hres Hconv.
  destruct (expandArray_rows result metricName w Hm) as (rows & w' & Hrun & Hrows);
    [by rewrite Hres|].
  rewrite Hres, rowsOf_Array in Hrun, Hrows.
  rewrite (rowsOfElems_flat _ _ _ _ elems vs) in Hrun, Hrows by done.
  by exists rows, w'.
Qed.

(** C1, as the code has it: in an array whose elements before [bad] all
    convert, an object at [bad] makes expandArray return the error and no
    rows, but a scalar at [bad] whose conversion fails only stops the loop:
    expandArray returns the rows of the elements before it together with a
    nil error. *)
Theorem C1_partial_rows result metricName w pre bad post vs :
  Metric result < length (heap w) ->
  Result result = gjson.Array (pre ++ bad :: post) ->
  Forall2 (convertsTo (DesiredType result) (RootFieldName result)) pre vs ->
  gjson.IsArray bad = false ->
  (gjson.IsObject bad = true ->
   exists w', expandArray result metricName w
              = (([], Some ErrEncounteredObject), w')) ∧
  (gjson.IsObject bad = false ->
   (convertType (gjson.Value bad) (DesiredType result) (RootFieldName result)).2
     <> None ->
   exists rows w',
     expandArray result metricName w = ((rows, None), w') ∧
     length rows = length pre ∧
     List.map (fun r => fieldsAt w' (Metric r)) rows
     = List.map (leafRow (RootFieldName result) (fieldsAt w (Metric result))) vs).
Proof.
  intros Hm Hres Hpre Harr.
  destruct (expandArray_rows result metricName w Hm) as (rows & w' & Hrun & Hrows);
    [by rewrite Hres|].
  rewrite Hres, rowsOf_Array in Hrun, Hrows.
  rewrite (rowsOfElems_prefix _ _ _ _ pre vs) in Hrun, Hrows by done.
  cbn [rowsOfElems] in Hrun, Hrows. rewrite Harr in Hrun, Hrows.
  split.
  - intros Hobj. rewrite Hobj in Hrun. simpl in Hrun.
    rewrite Hobj in Hrows. simpl in Hrows.
    apply arrayRows_length in Hrows. destruct rows; [|done]. by exists w'.
  - intros Hobj Hconv. rewrite Hobj in Hrun, Hrows.
    destruct (convertType _ _ _) as [v [e|]]; [|done]. simpl in Hrun, Hrows.
    rewrite app_nil_r in Hrows. exists rows, w'. split; [done|].
    split; [|apply Hrows].
    apply arrayRows_length in Hrows. rewrite length_map in Hrows.
    by rewrite Hrows, (Forall2_length _ _ _ Hpre).
Qed.

(** C10: the row of a scalar leaf holds the accumulated fields, then the
    converted leaf under the row's field name, then the accumulated fields
    written once more; so when the accumulated fields already hold that
    name, every row is the accumulated fields again and the value under the
    name is the accumulated one, whatever the leaf. *)
Theorem C10_accumulated_overwrites result metricName w elems vs :
  Metric result < length (heap w) ->
  Result result = gjson.Array elems ->
  Forall2 (convertsTo (DesiredType result) (RootFieldName result)) elems vs ->
  NoDup (keysOf (fieldsAt w (Metric result))) ->
  exists rows w',
    expandArray result metricName w = ((rows, None), w') ∧
    List.map (fun r => fieldsAt w' (Metric r)) rows
    = List.map (fun v =>
        addFields (telegraf.addField (addFields [] (fieldsAt w (Metric result)))
                     (RootFieldName result) v)
          (fieldsAt w (Metric result))) vs ∧
    (RootFieldName result ∈ keysOf (fieldsAt w (Metric result)) ->
     Forall (fun r =>
       fieldsAt w' (Metric r) = fieldsAt w (Metric result) ∧
       getField (fieldsAt w' (Metric r)) (RootFieldName result)
       = getField (fieldsAt w (Metric result)) (RootFieldName result)) rows).
Proof.
  intros Hm Hres Hconv Hnd.
  destruct (expandArray_flat result metricName w elems vs Hm Hres Hconv)
    as (rows & w' & Hrun & Hrows).
  exists rows, w'. split; [done|]. destruct Hrows as (_ & Hfields & _).
  split; [done|]. intros Hin.
  apply Forall_forall. intros r Hr.
  assert (fieldsAt w' (Metric r) ∈
            List.map (leafRow (RootFieldName result) (fieldsAt w (Metric result))) vs)
    as Hrow.
  { rewrite <-Hfields. apply list_elem_of_fmap. by exists r. }
  apply list_elem_of_fmap in Hrow as (v & Hrow & _).
  rewrite leafRow_shadowed in Hrow by done. by rewrite Hrow.
Qed.

(** ** Object flattening *)

Lemma combineObject_root result nameMap typeMap w :
  exists metrics w',
    combineObject result nameMap typeMap w = ((metrics ++ [result], None), w').
Proof.
  rewrite combineObject_eq. unfold combineObject_body, bind.
  destruct (gjson.ForEach _ _ _ _ w) as [metrics w']. by exists metrics, w'.
Qed.

Lemma processObjectFields_loop_ok metricName objectFields input : forall t0 w,
  exists t w',
    processObjectFields_loop metricName objectFields input t0 w = ((t, None), w') ∧
    length t0 + length objectFields <= length t.
Proof.
  induction objectFields as [|field objectFields IH]; intros t0 w.
  - exists t0, w. split; [done|]. simpl. lia.
  - cbn [processObjectFields_loop]. rewrite alloc_run. unfold bind.
    set (root := {| RootFieldName := lastString (strings.Split (ObjectField.Query field) ".");
                    DesiredType := ""; Metric := length (heap w);
                    Result := GetBytes input (ObjectField.Query field) |}).
    destruct (combineObject_root root (ObjectField.NameMap field)
                (ObjectField.TypeMap field) (allocW metricName w))
      as (metrics & w1 & ->).
    destruct (IH (t0 ++ List.map Metric (metrics ++ [root])) w1)
      as (t & w' & -> & Hlen).
    exists t, w'. split; [done|].
    rewrite length_app, length_map, length_app in Hlen. simpl in *. lia.
Qed.

(** C2, as the code has it: combineObject never returns an error.  Whatever
    happens inside the loop over the children, a failed conversion and a
    failed array expansion included, it returns the rows gathered so far and
    the row itself with a nil error, and processObjectFields returns at
    least one metric for every rule, with a nil error. *)
Theorem C2_combineObject_never_fails :
  (forall result nameMap typeMap w,
     exists metrics w',
       combineObject result nameMap typeMap w = ((metrics ++ [result], None), w')) ∧
  (forall metricName objectFields input w,
     exists t w',
       processObjectFields metricName objectFields input w = ((t, None), w') ∧
       length objectFields <= length t).
Proof.
  split; [apply combineObject_root|].
  intros metricName objectFields input w.
  destruct (processObjectFields_loop_ok metricName objectFields input [] w)
    as (t & w' & Hrun & Hlen).
  by exists t, w'.
Qed.

(** C9: an object-field rule whose query matches nothing still contributes
    exactly one metric, the root metric it allocated, with no field; a
    basic-field rule whose query matches nothing contributes a group of no
    rows. *)
Theorem C9_missing_object_query metricName field input w :
  GetBytes input (ObjectField.Query field) = gjson.Missing ->
  processObjectFields metricName [field] input w
  = (([length (heap w)], None), allocW metricName w) ∧
  fieldsAt (allocW metricName w) (length (heap w)) = [] ∧
  (forall objectFields t,
     processObjectFields_loop metricName (field :: objectFields) input t w
     = processObjectFields_loop metricName objectFields input
         (t ++ [length (heap w)]) (allocW metricName w)) ∧
  (forall basicField,
     GetBytes input (BasicField.Query basicField) = gjson.Missing ->
     collectBasicFields metricName [basicField] input [] w
     = (([[]], None), allocW metricName w)).
Proof.
  intros Hmiss. split_and!.
  - unfold processObjectFields. cbn [processObjectFields_loop].
    rewrite alloc_run, Hmiss. done.
  - apply fieldsAt_allocW_new.
  - intros objectFields t. cbn [processObjectFields_loop].
    rewrite alloc_run, Hmiss. done.
  - intros basicField Hb. cbn [collectBasicFields]. rewrite Hb. done.
Qed.

(** ** The basic-field processor *)

Lemma collectBasicFields_app metricName pre rest input : forall metricFields w,
  collectBasicFields metricName (pre ++ rest) input metricFields w
  = (let '((metricFields', err), w') :=
       collectBasicFields metricName pre input metricFields w in
     match err with
     | Some e => (([], Some e), w')
     | None => collectBasicFields metricName rest input metricFields' w'
     end).
Proof.
  induction pre as [|field pre IH]; intros metricFields w; [done|].
  cbn [collectBasicFields app].
  destruct (gjson.IsObject _); [done|].
  rewrite !alloc_run. unfold bind.
  destruct (expandArray _ _ _) as [[nodes [e|]] w1]; [done|].
  apply IH.
Qed.

Lemma collectBasicFields_error metricName basicFields input metricFields w mf e w' :
  collectBasicFields metricName basicFields input metricFields w = ((mf, Some e), w') ->
  mf = [].
Proof.
  revert metricFields w. induction basicFields as [|field basicFields IH];
    intros metricFields w; cbn [collectBasicFields]; [done|].
  destruct (gjson.IsObject _); [by intros [= <- _ _]|].
  rewrite alloc_run. unfold bind.
  destruct (expandArray _ _ _) as [[nodes [e'|]] w1]; [by intros [= <- _ _]|].
  apply IH.
Qed.

(** C8: when the query of a basic-field rule evaluates to an object, the
    processor returns no metrics and an error at that rule: the error of an
    earlier rule if one failed, the use-object_field error otherwise.  The
    heap is as the earlier rules left it, and neither the rest of this rule
    nor any later rule has a say in the result. *)
Theorem C8_object_result metricName pre field post input w :
  gjson.IsObject (GetBytes input (BasicField.Query field)) = true ->
  processBasicFields metricName (pre ++ field :: post) input w
  = (let '((_, err), w') := collectBasicFields metricName pre input [] w in
     (([], Some (match err with Some e => e | None => ErrUseObjectField end)), w')).
Proof.
  intros Hobj. unfold processBasicFields, bind.
  rewrite collectBasicFields_app.
  destruct (collectBasicFields metricName pre input [] w) as [[mf [e|]] w']; [done|].
  cbn [collectBasicFields]. by rewrite Hobj.
Qed.

Lemma collectBasicFields_cons metricName field basicFields input metricFields w :
  gjson.IsObject (GetBytes input (BasicField.Query field)) = false ->
  collectBasicFields metricName (field :: basicFields) input metricFields w
  = (let '((nodes, err), w1) :=
       expandArray (basicFieldNode field input (length (heap w))) metricName
         (allocW metricName w) in
     match err with
     | Some e => (([], Some e), w1)
     | None =>
         collectBasicFields metricName basicFields input
           (metricFields ++ [List.map Metric nodes]) w1
     end).
Proof.
  intros Hobj. cbn [collectBasicFields]. rewrite Hobj, alloc_run. unfold bind.
  fold (basicFieldName field). fold (basicFieldNode field input (length (heap w))).
  by destruct (expandArray _ _ _) as [[nodes [e|]] w1].
Qed.

Lemma sort_Slice_singleton less (g : list ptr) : sort_Slice less [g] = [g].
Proof. apply Permutation_singleton_r, sort_Slice_perm. Qed.

Lemma leafRow_nil fn v :
  leafRow fn [] v = [{| telegraf.Key := fn; telegraf.Value := v |}].
Proof. done. Qed.

(** C5, as the code has it.  A basic-field rule on a flat array whose
    elements all convert under the rule's declared type returns one metric
    per element, in document order, each holding just the converted element
    under the rule's field name.  And a nested array of strings, booleans
    and numbers with branching factors [dims], expanded with no declared
    type or at depth two and more, from accumulated fields that do not hold
    the field name, gives as many rows as the product of [dims], in document
    order, each holding the accumulated fields and then one leaf. *)
Theorem C5_array_rows :
  (forall metricName field input w elems vs,
     GetBytes input (BasicField.Query field) = gjson.Array elems ->
     Forall2 (convertsTo (BasicField.Type_ field) (basicFieldName field)) elems vs ->
     exists t w',
       processBasicFields metricName [field] input w = ((t, None), w') ∧
       length t = length elems ∧
       List.map (fieldsAt w') t
       = List.map (fun v => [{| telegraf.Key := basicFieldName field;
                                telegraf.Value := v |}]) vs) ∧
  (forall result metricName w dims,
     Metric result < length (heap w) ->
     dims <> [] -> uniform dims (Result result) ->
     DesiredType result = "" ∨ 2 <= length dims ->
     NoDup (keysOf (fieldsAt w (Metric result))) ->
     RootFieldName result ∉ keysOf (fieldsAt w (Metric result)) ->
     exists rows w',
       expandArray result metricName w = ((rows, None), w') ∧
       length rows = foldr Nat.mul 1 dims ∧
       List.map (fun r => fieldsAt w' (Metric r)) rows
       = List.map (fun leaf => fieldsAt w (Metric result)
                               ++ [{| telegraf.Key := RootFieldName result;
                                      telegraf.Value := gjson.Value leaf |}])
           (leaves (Result result))).
Proof.
  split.
  - intros metricName field input w elems vs Hget Hconv.
    unfold processBasicFields, bind.
    rewrite collectBasicFields_cons by by rewrite Hget.
    destruct (expandArray_flat (basicFieldNode field input (length (heap w)))
                metricName (allocW metricName w) elems vs)
      as (rows & w' & -> & Hrows); [rewrite length_allocW; simpl; lia|done|done|].
    cbn [collectBasicFields app]. unfold ret.
    rewrite sort_Slice_singleton. cbn [length Nat.ltb Nat.leb Nat.sub nth].
    unfold ret.
    exists (List.map Metric rows), w'.
    pose proof (arrayRows_length _ _ _ _ _ Hrows) as Hlen.
    rewrite length_map in Hlen. destruct Hrows as (_ & Hfields & _).
    simpl in Hfields. rewrite fieldsAt_allocW_new in Hfields.
    split_and!.
    + by destruct rows.
    + by rewrite length_map, Hlen, (Forall2_length _ _ _ Hconv).
    + rewrite map_map, Hfields. done.
  - intros result metricName w dims Hm Hne Hu Hty Hnd Hfn.
    destruct (expandArray_rows result metricName w Hm) as (rows & w' & Hrun & Hrows).
    { rewrite (uniform_IsArray _ _ Hu). by apply bool_decide_eq_true. }
    rewrite (rowsOf_uniform _ dims) in Hrun, Hrows by done.
    exists rows, w'. split; [done|].
    split; [|apply Hrows].
    apply arrayRows_length in Hrows. simpl in Hrows.
    by rewrite Hrows, length_map, (length_leaves dims).
Qed.

(** ** Flattening an object with an array child *)

Lemma combineObject_a_items root w :
  Metric root < length (heap w) ->
  fieldsAt w (Metric root) = [] ->
  Result root = gjson.Object
                  [("a", gjson.Number 1);
                   ("items", gjson.Array [gjson.Number 10; gjson.Number 20])] ->
  exists r1 r2 w',
    combineObject root ∅ ∅ w = (([r1; r2; root], None), w') ∧
    fieldsAt w' (Metric r1)
    = [{| telegraf.Key := "a"; telegraf.Value := Float64 1 |};
       {| telegraf.Key := "items"; telegraf.Value := Float64 10 |}] ∧
    fieldsAt w' (Metric r2)
    = [{| telegraf.Key := "a"; telegraf.Value := Float64 1 |};
       {| telegraf.Key := "items"; telegraf.Value := Float64 20 |}] ∧
    fieldsAt w' (Metric root)
    = [{| telegraf.Key := "a"; telegraf.Value := Float64 1 |}] ∧
    NoDup [Metric r1; Metric r2; Metric root] ∧
    length (heap w) <= Metric r1 ∧ length (heap w) <= Metric r2.
Proof.
  intros Hm Hempty Hres.
  rewrite combineObject_eq. unfold combineObject_body. rewrite Hres.
  cbn [gjson.ForEach gjson.eachMember]. unfold bind at 1. unfold bind at 1.
  set (w1 := updW (Metric root) (fun fs => telegraf.addField fs "a" (Float64 1)) w).
  assert (combineObject_iterator combineObject root ∅ ∅ "a" (gjson.Number 1) [] w
          = ((true, []), w1)) as -> by done.
  assert (fieldsAt w1 (Metric root)
          = [{| telegraf.Key := "a"; telegraf.Value := Float64 1 |}]) as Hroot1.
  { unfold w1. rewrite fieldsAt_updW_eq by done. by rewrite Hempty. }
  assert (length (heap w1) = length (heap w)) as Hl1 by apply length_updW.
  set (arrayNode := {| RootFieldName := "items"; DesiredType := "";
                       Metric := Metric root;
                       Result := gjson.Array [gjson.Number 10; gjson.Number 20] |}).
  destruct (expandArray_flat arrayNode
              (match heap w1 !! Metric root with
               | Some c => telegraf.name c
               | None => ""
               end)
              w1 [gjson.Number 10; gjson.Number 20] [Float64 10; Float64 20])
    as (rows & w' & Hrun & Hrows);
    [change (Metric arrayNode) with (Metric root); lia|done| |].
  { repeat constructor. }
  unfold bind at 1.
  assert (combineObject_iterator combineObject root ∅ ∅ "items"
            (gjson.Array [gjson.Number 10; gjson.Number 20]) [] w1
          = ((true, rows), w')) as ->.
  { unfold combineObject_iterator. cbn [gjson.IsArray]. unfold bind, metric.Name.
    fold arrayNode. by rewrite Hrun. }
  unfold bind, ret.
  pose proof (arrayRows_length _ _ _ _ _ Hrows) as Hlen.
  destruct rows as [|r1 [|r2 [|r3 rows]]]; try done.
  destruct Hrows as (Hg & Hfields & Hb & Hnd).
  simpl in Hfields. rewrite Hroot1 in Hfields.
  injection Hfields as Hf1 Hf2.
  apply Forall_cons in Hb as [[Hb1 _] Hb]. apply Forall_cons in Hb as [[Hb2 _] _].
  simpl in Hnd. apply NoDup_cons in Hnd as [Hn1 Hnd].
  exists r1, r2, w'. split_and!; try done.
  - by rewrite (grows_fieldsAt w1 w') by (done || lia).
  - rewrite list_elem_of_singleton in Hn1.
    apply NoDup_cons. split; [|apply NoDup_cons; split; [|apply NoDup_singleton]].
    + rewrite !elem_of_cons, elem_of_nil. intros [?|[?|[]]]; [done|lia].
    + rewrite list_elem_of_singleton. lia.
  - lia.
  - lia.
Qed.

(** C6: flattening the object with a scalar a and an array items of 10 and
    20, with empty name and type maps, returns three metrics in three
    different cells: two for the branches of the array, holding a and then
    items 10 respectively items 20, and last the root metric, holding a
    alone. *)
Theorem C6_object_with_array metricName field input w :
  GetBytes input (ObjectField.Query field)
  = gjson.Object [("a", gjson.Number 1);
                  ("items", gjson.Array [gjson.Number 10; gjson.Number 20])] ->
  ObjectField.NameMap field = ∅ -> ObjectField.TypeMap field = ∅ ->
  exists p1 p2 w',
    processObjectFields metricName [field] input w
    = (([p1; p2; length (heap w)], None), w') ∧
    fieldsAt w' p1
    = [{| telegraf.Key := "a"; telegraf.Value := Float64 1 |};
       {| telegraf.Key := "items"; telegraf.Value := Float64 10 |}] ∧
    fieldsAt w' p2
    = [{| telegraf.Key := "a"; telegraf.Value := Float64 1 |};
       {| telegraf.Key := "items"; telegraf.Value := Float64 20 |}] ∧
    fieldsAt w' (length (heap w))
    = [{| telegraf.Key := "a"; telegraf.Value := Float64 1 |}] ∧
    NoDup [p1; p2; length (heap w)].
Proof.
  intros Hget HnameMap HtypeMap.
  unfold processObjectFields. cbn [processObjectFields_loop].
  rewrite alloc_run, Hget, HnameMap, HtypeMap. unfold bind.
  set (root := {| RootFieldName := lastString (strings.Split (ObjectField.Query field) ".");
                  DesiredType := ""; Metric := length (heap w);
                  Result := gjson.Object _ |}).
  destruct (combineObject_a_items root (allocW metricName w))
    as (r1 & r2 & w' & -> & Hf1 & Hf2 & Hf3 & Hnd & _).
  - rewrite length_allocW. simpl. lia.
  - apply fieldsAt_allocW_new.
  - done.
  - by exists (Metric r1), (Metric r2), w'.
Qed.

(** ** Merging the groups of two basic-field rules *)




Lemma addField_single fn v fn' v' :
  telegraf.addField
    (telegraf.addField [{| telegraf.Key := fn; telegraf.Value := v |}] fn' v') fn' v'
  = telegraf.addField [{| telegraf.Key := fn; telegraf.Value := v |}] fn' v'.
Proof.
  simpl. destruct (String.eqb_spec fn fn') as [->|Hne]; simpl.
  - by rewrite String.eqb_refl.
  - apply String.eqb_neq in Hne as ->. by rewrite String.eqb_refl.
Qed.






(** ** The type converter and the declared types *)

(** A declared type that is none of string, int, float and bool is not
    refused: convertType treats it as it treats no declared type. *)
Theorem convertType_unrecognised_type input ty name :
  ty <> "string" -> ty <> "int" -> ty <> "float" -> ty <> "bool" ->
  convertType input ty name = convertType input "" name.
Proof.
  intros Hs Hi Hf Hb.
  apply String.eqb_neq in Hs, Hi, Hf, Hb.
  destruct input; try reflexivity; cbn; rewrite ?Hs, ?Hi, ?Hf, ?Hb; reflexivity.
Qed.

(** When convertType succeeds under one of the four declared types, the
    value it returns is of that kind, with one exception: a boolean under
    the declared type float comes back as the boolean it was. *)
Theorem convertType_kind input ty name v :
  convertType input ty name = (v, None) ->
  ty = "string" ∨ ty = "int" ∨ ty = "float" ∨ ty = "bool" ->
  hasKind ty v = true ∨ (ty = "float" ∧ v = input ∧ exists b, input = GoBool b).
Proof.
  intros Hconv Hty.
  destruct input as [|s|b|f|n|n'|l|l]; try discriminate Hconv;
    destruct Hty as [Hty|[Hty|[Hty|Hty]]]; subst ty; cbn in Hconv.
  all: try (injection Hconv as <-; by left).
  - destruct (strconv.Atoi s) as [r [e|]]; [discriminate|].
    injection Hconv as <-. by left.
  - destruct (ParseFloat s) as [r [e|]]; [discriminate|].
    injection Hconv as <-. by left.
  - destruct (strconv.ParseBool s) as [r [e|]]; [discriminate|].
    injection Hconv as <-. by left.
  - destruct b; injection Hconv as <-; by left.
  - injection Hconv as <-. right. split_and!; [done|done|by exists b].
  - destruct (PrimFloat.eqb f 0); [injection Hconv as <-; by left|].
    destruct (PrimFloat.eqb f 1); [injection Hconv as <-; by left|discriminate].
Qed.

(** A boolean converted to string converts back to the same boolean; the
    integer a boolean converts to is not taken back, whatever the declared
    type. *)
Theorem convertType_bool_round_trip (b : bool) name :
  (exists s,
     convertType (GoBool b) "string" name = (GoString s, None) ∧
     convertType (GoString s) "bool" name = (GoBool b, None)) ∧
  (exists n,
     convertType (GoBool b) "int" name = (Int64 n, None) ∧
     forall ty, convertType (Int64 n) ty name = (Nil, Some (ErrUnknownFormat name))).
Proof.
  split.
  - exists (strconv.FormatBool b). by destruct b.
  - exists (if b then 1 else 0)%Z. by destruct b.
Qed.

(** ** Array expansion: what every run keeps *)

Lemma rowsOfElems_error rowsOfArray fn ty acc elems e :
  (rowsOfElems rowsOfArray fn ty acc elems).2 = Some e -> e = ErrEncounteredObject.
Proof.
  induction elems as [|val elems IH]; simpl; [done|].
  destruct (gjson.IsObject val); [by intros [= <-]|].
  destruct (gjson.IsArray val).
  - destruct (rowsOfArray val _) as [r [e'|]]; [done|].
    destruct (rowsOfElems _ _ _ _ elems) as [rs e']. exact IH.
  - destruct (convertType _ _ _) as [v [e'|]]; [done|].
    destruct (rowsOfElems _ _ _ _ elems) as [rs e']. exact IH.
Qed.

Lemma rowsOf_Array_error elems fn ty acc e :
  (rowsOf (gjson.Array elems) fn ty acc).2 = Some e ->
  e = ErrEncounteredObject ∧ (rowsOf (gjson.Array elems) fn ty acc).1 = [].
Proof.
  rewrite rowsOf_Array.
  pose proof (rowsOfElems_error (fun val acc' => rowsOf val fn "" acc') fn ty acc elems)
    as H.
  destruct (rowsOfElems _ _ _ _ elems) as [rs [e'|]]; [|done].
  intros [= <-]. split; [by apply H|done].
Qed.

Lemma length_rowsOfElems_leaves fn ty acc elems :
  Forall (fun val => forall ty' acc',
            length (rowsOf val fn ty' acc').1 <= length (leaves val)) elems ->
  length (rowsOfElems (fun val acc' => rowsOf val fn "" acc') fn ty acc elems).1
  <= length (concat (List.map leaves elems)).
Proof.
  induction 1 as [|val elems Hval _ IH]; simpl; [done|].
  rewrite length_app.
  destruct (gjson.IsObject val); [simpl; lia|].
  destruct (gjson.IsArray val) eqn:Harr.
  - specialize (Hval "" (addFields [] acc)).
    destruct (rowsOf val fn "" _) as [r [e'|]]; [simpl; lia|].
    destruct (rowsOfElems _ _ _ _ elems) as [rs e']. simpl in *.
    rewrite length_app. lia.
  - assert (length (leaves val) = 1) as -> by by destruct val.
    destruct (convertType _ _ _) as [v [e'|]]; [simpl; lia|].
    destruct (rowsOfElems _ _ _ _ elems) as [rs e']. simpl in *. lia.
Qed.

Lemma length_rowsOf_leaves fn json : forall ty acc,
  length (rowsOf json fn ty acc).1 <= length (leaves json).
Proof.
  induction json as [| | | | |elems IH|members _] using Result_ind'; intros ty acc.
  6: { rewrite rowsOf_Array.
       pose proof (length_rowsOfElems_leaves fn ty acc elems IH) as H.
       destruct (rowsOfElems _ _ _ _ elems) as [rs [e|]]; simpl in *; lia. }
  all: cbv beta iota delta [rowsOf];
    try (destruct (convertType _ _ _) as [v [e|]]); simpl; lia.
Qed.

(** Off arrays, a value that converts is written into the metric of the
    row itself: expandArray returns the row it was given, allocates
    nothing, reads no clock and leaves every other metric as it was. *)
Theorem expandArray_scalar_in_place result metricName w v :
  Metric result < length (heap w) ->
  gjson.IsArray (Result result) = false ->
  gjson.IsObject (Result result) = false ->
  gjson.Exists (Result result) = true ->
  convertType (gjson.Value (Result result)) (DesiredType result)
    (RootFieldName result) = (v, None) ->
  exists w',
    expandArray result metricName w = (([result], None), w') ∧
    length (heap w') = length (heap w) ∧ ticks w' = ticks w ∧
    fieldsAt w' (Metric result)
    = telegraf.addField (fieldsAt w (Metric result)) (RootFieldName result) v ∧
    getField (fieldsAt w' (Metric result)) (RootFieldName result) = Some v ∧
    forall q, q <> Metric result -> fieldsAt w' q = fieldsAt w q.
Proof.
  intros Hm Harr Hobj Hex Hconv.
  rewrite expandArray_not_array by done. rewrite Hobj, Hex, Hconv.
  eexists. split; [reflexivity|].
  rewrite length_updW, fieldsAt_updW_eq by done.
  split_and!; [done|done|done|apply getField_addField_eq|].
  intros q Hq. by apply fieldsAt_updW_ne.
Qed.

(** Whatever an array holds, its expansion leaves every metric that
    existed as it was, the accumulated one included; the rows it returns
    are metrics it allocated, pairwise distinct, each under the field name
    of the row expanded and each holding a field of that name; and the only
    error it can return is the encountered-object one, with no rows. *)
Theorem expandArray_array_fresh result metricName w rows err w' :
  Metric result < length (heap w) ->
  gjson.IsArray (Result result) = true ->
  expandArray result metricName w = ((rows, err), w') ->
  grows w w' ∧
  (forall q, q < length (heap w) -> fieldsAt w' q = fieldsAt w q) ∧
  NoDup (List.map Metric rows) ∧
  Forall (fun r => length (heap w) <= Metric r < length (heap w') ∧
                   RootFieldName r = RootFieldName result ∧
                   RootFieldName result ∈ keysOf (fieldsAt w' (Metric r))) rows ∧
  (forall e, err = Some e -> e = ErrEncounteredObject ∧ rows = []).
Proof.
  intros Hm Harr Hrun.
  destruct (expandArray_rows result metricName w Hm Harr)
    as (rows0 & w0 & Hrun0 & Hg & Hrs & Hfresh & Hnd).
  rewrite Hrun0 in Hrun. injection Hrun as <- Herr <-.
  pose proof (rowsOf_rowOK (Result result) (RootFieldName result)
                (DesiredType result) (fieldsAt w (Metric result)) Harr) as Hok.
  rewrite <-Hrs in Hok. rewrite List.Forall_map in Hok.
  split_and!; [done|by intros q Hq; apply grows_fieldsAt|done| |].
  - apply Forall_forall. intros r Hr.
    pose proof (proj1 (Forall_forall _ _) Hfresh r Hr) as [Hlt Hfn].
    pose proof (proj1 (Forall_forall _ _) Hok r Hr) as [_ Hkey].
    by rewrite Hfn in *.
  - intros e He. rewrite He in Herr.
    destruct (Result result) as [| | | | |elems|] eqn:Hres; try discriminate.
    destruct (rowsOf_Array_error elems (RootFieldName result) (DesiredType result)
                (fieldsAt w (Metric result)) e Herr) as [-> Hnil].
    split; [done|]. rewrite Hnil in Hrs. by destruct rows0.
Qed.

(** expandArray never returns more rows than the JSON subtree of the row
    has innermost values. *)
Theorem expandArray_rows_le_leaves result metricName w rows err w' :
  Metric result < length (heap w) ->
  expandArray result metricName w = ((rows, err), w') ->
  length rows <= length (leaves (Result result)).
Proof.
  intros Hm Hrun.
  destruct (gjson.IsArray (Result result)) eqn:Harr.
  - destruct (expandArray_rows result metricName w Hm Harr)
      as (rows0 & w0 & Hrun0 & Hrows).
    rewrite Hrun0 in Hrun. injection Hrun as <- _ _.
    rewrite (arrayRows_length _ _ _ _ _ Hrows). apply length_rowsOf_leaves.
  - pose proof (expandArray_rows_le_1 _ _ _ _ _ _ Harr Hrun) as Hle.
    assert (length (leaves (Result result)) = 1) as ->; [|done].
    by destruct (Result result).
Qed.

(** ** The basic-field processor: groups, sorting and the output *)

Lemma collectBasicFields_length metricName basicFields input :
  forall metricFields w groups w1,
    collectBasicFields metricName basicFields input metricFields w
    = ((groups, None), w1) ->
    length groups = length metricFields + length basicFields.
Proof.
  induction basicFields as [|field basicFields IH]; intros metricFields w groups w1.
  - intros [= <- _]. simpl. lia.
  - destruct (gjson.IsObject (GetBytes input (BasicField.Query field))) eqn:Hobj.
    { cbn [collectBasicFields]. by rewrite Hobj. }
    rewrite collectBasicFields_cons by done.
    destruct (expandArray _ _ _) as [[nodes [e|]] w2]; [done|].
    intros Hrun. apply IH in Hrun. rewrite length_app in Hrun. simpl in Hrun.
    simpl. lia.
Qed.

Lemma forRange_length {A} (l : list A) (body : A -> M unit) :
  (forall x w, length (heap (body x w).2) = length (heap w)) ->
  forall w, length (heap (forRange l body w).2) = length (heap w).
Proof.
  intros Hbody. induction l as [|x l IH]; intros w; [done|].
  cbn [forRange]. unfold bind.
  pose proof (Hbody x w) as Hx. destruct (body x w) as [[] w1].
  rewrite IH. exact Hx.
Qed.

Lemma mergeMetricFields_length metricFields w :
  length (heap (mergeMetricFields metricFields w).2) = length (heap w).
Proof.
  unfold mergeMetricFields.
  apply forRange_length. intros i w1.
  apply forRange_length. intros p w2.
  apply forRange_length. intros c w3.
  rewrite copyFields_run. apply length_updW.
Qed.

(** In a list sorted by [lessLen] no group is longer than the last. *)
Lemma sorted_last_longest (l : list (list ptr)) :
  StronglySorted (fun a b => lessLen b a = false) l ->
  forall g, g ∈ l -> length g <= length (nth (length l - 1) l []).
Proof.
  induction 1 as [|x l Hsorted IH Hx]; intros g Hg; [by apply elem_of_nil in Hg|].
  destruct l as [|y l].
  - apply list_elem_of_singleton in Hg as ->. done.
  - change (nth (length (x :: y :: l) - 1) (x :: y :: l) [])
      with (nth (length l) (y :: l) []).
    assert (nth (length l) (y :: l) [] ∈ y :: l) as Hlast.
    { apply list_elem_of_In, nth_In. simpl. lia. }
    apply elem_of_cons in Hg as [->|Hg].
    + rewrite Forall_forall in Hx. specialize (Hx _ Hlast).
      unfold lessLen in Hx. apply Nat.ltb_ge in Hx. exact Hx.
    + specialize (IH g Hg). simpl in IH. by rewrite Nat.sub_0_r in IH.
Qed.

Lemma processBasicFields_last metricName basicFields input w groups w1 :
  collectBasicFields metricName basicFields input [] w = ((groups, None), w1) ->
  exists w',
    processBasicFields metricName basicFields input w
    = ((nth (length groups - 1) (sort_Slice lessLen groups) [], None), w') ∧
    length (heap w') = length (heap w1) ∧
    w' = (if 1 <? length groups
          then (mergeMetricFields (sort_Slice lessLen groups) w1).2 else w1).
Proof.
  intros Hrun. unfold processBasicFields, bind. rewrite Hrun.
  pose proof (Permutation_length (sort_Slice_perm lessLen groups)) as Hlen.
  rewrite Hlen.
  destruct (1 <? length groups) eqn:Hmany.
  - pose proof (mergeMetricFields_length (sort_Slice lessLen groups) w1) as Hheap.
    destruct (mergeMetricFields _ w1) as [[] w']. exists w'.
    split; [|done].
    destruct (0 <? length groups) eqn:Hsome; [|apply Nat.ltb_lt in Hmany;
      apply Nat.ltb_ge in Hsome; lia].
    cbn [andb]. destruct (nth _ _ _) as [|p g]; done.
  - exists w1. split; [|done]. unfold ret.
    destruct (0 <? length groups) eqn:Hsome.
    + cbn [andb]. destruct (nth _ _ _) as [|p g]; done.
    + cbn [andb]. apply Nat.ltb_ge in Hsome.
      destruct (sort_Slice lessLen groups) as [|g gs] eqn:Hs; [by destruct groups|].
      simpl in Hlen. lia.
Qed.

(** When every rule is collected without error, the processor returns one
    of the collected groups, one per rule, and none of them is longer than
    the one returned: the fields of the others live on only as copies in its
    metrics.  Nothing is allocated after the groups are collected. *)
Theorem processBasicFields_longest_group metricName basicFields input w groups w1 :
  collectBasicFields metricName basicFields input [] w = ((groups, None), w1) ->
  exists t w',
    processBasicFields metricName basicFields input w = ((t, None), w') ∧
    length groups = length basicFields ∧
    (forall g, g ∈ groups -> length g <= length t) ∧
    (basicFields <> [] -> t ∈ groups) ∧
    (basicFields = [] -> t = []) ∧
    length (heap w') = length (heap w1).
Proof.
  intros Hrun.
  destruct (processBasicFields_last _ _ _ _ _ _ Hrun) as (w' & Hrun' & Hheap & _).
  pose proof (collectBasicFields_length _ _ _ _ _ _ _ Hrun) as Hlen.
  pose proof (sort_Slice_perm lessLen groups) as Hperm.
  exists (nth (length groups - 1) (sort_Slice lessLen groups) []), w'.
  split_and!; [done|done| | | |done].
  - intros g Hg. rewrite <-(Permutation_length Hperm).
    apply sorted_last_longest; [apply sort_Slice_sorted|].
    apply list_elem_of_In. eapply Permutation_in; [symmetry; exact Hperm|].
    by apply list_elem_of_In.
  - intros Hne. apply list_elem_of_In.
    eapply Permutation_in; [exact Hperm|]. apply nth_In.
    rewrite (Permutation_length Hperm), Hlen. destruct basicFields; [done|simpl; lia].
  - intros ->. simpl in Hlen. destruct groups; [|done].
    apply Permutation_nil_r in Hperm. by rewrite Hperm.
Qed.

Lemma collectBasicFields_missing metricName basicFields input :
  Forall (fun f => GetBytes input (BasicField.Query f) = gjson.Missing) basicFields ->
  forall metricFields w,
    exists w1,
      collectBasicFields metricName basicFields input metricFields w
      = ((metricFields ++ replicate (length basicFields) [], None), w1) ∧
      length (heap w1) = length (heap w) + length basicFields.
Proof.
  induction 1 as [|field basicFields Hget _ IH]; intros metricFields w.
  - exists w. simpl. rewrite app_nil_r. split; [done|lia].
  - rewrite collectBasicFields_cons by by rewrite Hget.
    rewrite expandArray_not_array by (unfold basicFieldNode; simpl; by rewrite Hget).
    unfold basicFieldNode. simpl Result. rewrite Hget. simpl.
    destruct (IH (metricFields ++ [[]]) (allocW metricName w)) as (w1 & -> & Hlen).
    exists w1. split; [by rewrite <-app_assoc|].
    rewrite Hlen, length_allocW. lia.
Qed.

(** Rules whose queries match nothing give no metric at all, and no
    error; the metric allocated for each of them is left behind. *)
Theorem processBasicFields_all_missing metricName basicFields input w :
  Forall (fun f => GetBytes input (BasicField.Query f) = gjson.Missing) basicFields ->
  exists w',
    processBasicFields metricName basicFields input w = (([], None), w') ∧
    length (heap w') = length (heap w) + length basicFields.
Proof.
  intros Hmiss.
  destruct (collectBasicFields_missing metricName basicFields input Hmiss [] w)
    as (w1 & Hrun & Hlen).
  destruct (processBasicFields_last _ _ _ _ _ _ Hrun) as (w' & Hrun' & Hheap & _).
  exists w'. split; [|by rewrite Hheap].
  rewrite Hrun'. f_equal. f_equal.
  match goal with
  | |- nth ?n ?l ?d = _ => destruct (nth_in_or_default n l d) as [Hin|Hd]; [|exact Hd]
  end.
  apply (Permutation_in _ (sort_Slice_perm lessLen _)) in Hin.
  apply list_elem_of_In in Hin.
  change ([] ++ replicate (length basicFields) ([] : list ptr))
    with (replicate (length basicFields) ([] : list ptr)) in Hin at 2.
  apply elem_of_replicate in Hin as [Heq _]. exact Heq.
Qed.

(** A rule whose query selects a string, a boolean or a number that
    converts gives exactly one metric, the one the processor allocated for
    the rule, holding the converted value under the rule's field name and
    nothing else. *)
Theorem processBasicFields_scalar metricName field input w v :
  isScalar (GetBytes input (BasicField.Query field)) = true ->
  convertType (gjson.Value (GetBytes input (BasicField.Query field)))
    (BasicField.Type_ field) (basicFieldName field) = (v, None) ->
  exists w',
    processBasicFields metricName [field] input w
    = (([length (heap w)], None), w') ∧
    length (heap w') = S (length (heap w)) ∧
    fieldsAt w' (length (heap w))
    = [{| telegraf.Key := basicFieldName field; telegraf.Value := v |}] ∧
    forall q, q < length (heap w) -> fieldsAt w' q = fieldsAt w q.
Proof.
  intros Hsc Hconv.
  unfold processBasicFields, bind.
  rewrite collectBasicFields_cons by by destruct (GetBytes _ _).
  rewrite expandArray_not_array
    by (unfold basicFieldNode; simpl; by destruct (GetBytes _ _)).
  unfold basicFieldNode at 1 2 3 4 5. simpl.
  assert (gjson.IsObject (GetBytes input (BasicField.Query field)) = false) as ->
    by by destruct (GetBytes _ _).
  assert (gjson.Exists (GetBytes input (BasicField.Query field)) = true) as ->
    by by destruct (GetBytes _ _).
  rewrite Hconv. cbn [collectBasicFields app List.map Metric basicFieldNode].
  unfold ret. rewrite sort_Slice_singleton.
  cbn [length Nat.ltb Nat.leb Nat.sub nth andb]. unfold ret.
  eexists. split; [reflexivity|].
  rewrite length_updW, length_allocW.
  rewrite fieldsAt_updW_eq by (rewrite length_allocW; lia).
  rewrite fieldsAt_allocW_new.
  split_and!; [done|done|].
  intros q Hq. rewrite fieldsAt_updW_ne by lia.
  apply grows_fieldsAt; [apply grows_allocW|done].
Qed.

(** A rule whose query selects a value that is neither an array nor an
    object and does not convert (JSON null never does) fails the call with
    the converter's error; the rules after it are not looked at, and only
    the metric of the failing rule has been allocated. *)
Theorem processBasicFields_scalar_error metricName field rest input w e :
  gjson.IsObject (GetBytes input (BasicField.Query field)) = false ->
  gjson.IsArray (GetBytes input (BasicField.Query field)) = false ->
  gjson.Exists (GetBytes input (BasicField.Query field)) = true ->
  (convertType (gjson.Value (GetBytes input (BasicField.Query field)))
     (BasicField.Type_ field) (basicFieldName field)).2 = Some e ->
  processBasicFields metricName (field :: rest) input w
  = (([], Some e), allocW metricName w).
Proof.
  intros Hobj Harr Hex Hconv.
  unfold processBasicFields, bind.
  rewrite collectBasicFields_cons by done.
  rewrite expandArray_not_array by done.
  unfold basicFieldNode at 1 2 3 4 5. simpl. rewrite Hobj, Hex.
  destruct (convertType _ _ _) as [v' [e'|]]; [|done].
  simpl in Hconv. by injection Hconv as ->.
Qed.

Lemma collectBasicFields_scalar metricName field rest input metricFields w v :
  isScalar (GetBytes input (BasicField.Query field)) = true ->
  convertType (gjson.Value (GetBytes input (BasicField.Query field)))
    (BasicField.Type_ field) (basicFieldName field) = (v, None) ->
  collectBasicFields metricName (field :: rest) input metricFields w
  = collectBasicFields metricName rest input (metricFields ++ [[length (heap w)]])
      (updW (length (heap w))
         (fun fs => telegraf.addField fs (basicFieldName field) v)
         (allocW metricName w)).
Proof.
  intros Hsc Hconv.
  rewrite collectBasicFields_cons by by destruct (GetBytes _ _).
  rewrite expandArray_not_array
    by (unfold basicFieldNode; simpl; by destruct (GetBytes _ _)).
  unfold basicFieldNode at 1 2 3 4 5. simpl.
  assert (gjson.IsObject (GetBytes input (BasicField.Query field)) = false) as ->
    by by destruct (GetBytes _ _).
  assert (gjson.Exists (GetBytes input (BasicField.Query field)) = true) as ->
    by by destruct (GetBytes _ _).
  by rewrite Hconv.
Qed.

Lemma getField_pair k1 v1 k2 v2 :
  k1 <> k2 ->
  getField [{| telegraf.Key := k1; telegraf.Value := v1 |};
            {| telegraf.Key := k2; telegraf.Value := v2 |}] k1 = Some v1 ∧
  getField [{| telegraf.Key := k1; telegraf.Value := v1 |};
            {| telegraf.Key := k2; telegraf.Value := v2 |}] k2 = Some v2.
Proof.
  intros Hne. unfold getField. simpl. rewrite !String.eqb_refl.
  destruct (String.eqb_spec k1 k2) as [Heq|_]; done.
Qed.

Lemma mergeMetricFields_two (a b : ptr) w :
  mergeMetricFields [[a]; [b]] w
  = (tt, updW b (fun fs => addFields fs (fieldsAt w a)) w).
Proof.
  unfold mergeMetricFields. cbn [length Nat.sub seq forRange nth].
  unfold bind. by rewrite copyFields_run.
Qed.

(** Two rules that each select a scalar, under different field names, give
    one metric holding both values: the metric of one of the two rules
    (which one is up to the sort, the two groups being of equal length),
    with the field of the other copied into it. *)
Theorem processBasicFields_two_scalars metricName f1 f2 input w v1 v2 :
  isScalar (GetBytes input (BasicField.Query f1)) = true ->
  isScalar (GetBytes input (BasicField.Query f2)) = true ->
  convertType (gjson.Value (GetBytes input (BasicField.Query f1)))
    (BasicField.Type_ f1) (basicFieldName f1) = (v1, None) ->
  convertType (gjson.Value (GetBytes input (BasicField.Query f2)))
    (BasicField.Type_ f2) (basicFieldName f2) = (v2, None) ->
  basicFieldName f1 <> basicFieldName f2 ->
  exists p w',
    processBasicFields metricName [f1; f2] input w = (([p], None), w') ∧
    (p = length (heap w) ∨ p = S (length (heap w))) ∧
    length (heap w') = S (S (length (heap w))) ∧
    getField (fieldsAt w' p) (basicFieldName f1) = Some v1 ∧
    getField (fieldsAt w' p) (basicFieldName f2) = Some v2 ∧
    length (fieldsAt w' p) = 2.
Proof.
  intros Hs1 Hs2 Hc1 Hc2 Hne.
  set (m1 := length (heap w)).
  set (wa := updW m1 (fun fs => telegraf.addField fs (basicFieldName f1) v1)
               (allocW metricName w)).
  set (wb := updW (S m1) (fun fs => telegraf.addField fs (basicFieldName f2) v2)
               (allocW metricName wa)).
  assert (length (heap wa) = S m1) as Hla
    by (unfold wa; by rewrite length_updW, length_allocW).
  assert (length (heap wb) = S (S m1)) as Hlb
    by (unfold wb; by rewrite length_updW, length_allocW, Hla).
  assert (fieldsAt wa m1
          = [{| telegraf.Key := basicFieldName f1; telegraf.Value := v1 |}]) as Hfa.
  { unfold wa. rewrite fieldsAt_updW_eq by (rewrite length_allocW; unfold m1; lia).
    unfold m1. by rewrite fieldsAt_allocW_new. }
  assert (fieldsAt wb m1
          = [{| telegraf.Key := basicFieldName f1; telegraf.Value := v1 |}]) as Hf1.
  { unfold wb. rewrite fieldsAt_updW_ne by lia.
    rewrite (grows_fieldsAt wa) by (apply grows_allocW || lia). exact Hfa. }
  assert (fieldsAt wb (S m1)
          = [{| telegraf.Key := basicFieldName f2; telegraf.Value := v2 |}]) as Hf2.
  { unfold wb. rewrite fieldsAt_updW_eq by (rewrite length_allocW; lia).
    rewrite <-Hla. by rewrite fieldsAt_allocW_new. }
  assert (collectBasicFields metricName [f1; f2] input [] w
          = (([[m1]; [S m1]], None), wb)) as Hrun.
  { rewrite (collectBasicFields_scalar _ _ _ _ _ _ v1) by done.
    fold m1. fold wa.
    rewrite (collectBasicFields_scalar _ _ _ _ _ _ v2) by done.
    rewrite Hla. fold wb. done. }
  destruct (processBasicFields_last _ _ _ _ _ _ Hrun) as (w' & Hrun' & Hheap & Hw').
  cbn [length Nat.ltb Nat.leb Nat.sub] in Hrun', Hw'.
  pose proof (sort_Slice_perm lessLen [[m1]; [S m1]]) as Hperm.
  symmetry in Hperm. apply Permutation_length_2_inv in Hperm.
  destruct Hperm as [Hs|Hs]; rewrite Hs in Hrun', Hw'; cbn [nth] in Hrun';
    rewrite mergeMetricFields_two in Hw'; cbn [snd] in Hw'.
  - exists (S m1), w'. split; [done|]. split; [by right|].
    split; [by rewrite Hheap|].
    assert (fieldsAt w' (S m1)
            = [{| telegraf.Key := basicFieldName f2; telegraf.Value := v2 |};
               {| telegraf.Key := basicFieldName f1; telegraf.Value := v1 |}]) as ->.
    { rewrite Hw', fieldsAt_updW_eq by lia. rewrite Hf1, Hf2.
      rewrite addFields_cons, addFields_nil. cbn [telegraf.Key telegraf.Value].
      rewrite addField_notin; [done|].
      unfold keysOf. simpl. intros Hin. apply list_elem_of_singleton in Hin. done. }
    destruct (getField_pair (basicFieldName f2) v2 (basicFieldName f1) v1) as [? ?];
      [done|]. done.
  - exists m1, w'. split; [done|]. split; [by left|].
    split; [by rewrite Hheap|].
    assert (fieldsAt w' m1
            = [{| telegraf.Key := basicFieldName f1; telegraf.Value := v1 |};
               {| telegraf.Key := basicFieldName f2; telegraf.Value := v2 |}]) as ->.
    { rewrite Hw', fieldsAt_updW_eq by lia. rewrite Hf1, Hf2.
      rewrite addFields_cons, addFields_nil. cbn [telegraf.Key telegraf.Value].
      rewrite addField_notin; [done|].
      unfold keysOf. simpl. intros Hin. apply list_elem_of_singleton in Hin. done. }
    destruct (getField_pair (basicFieldName f1) v1 (basicFieldName f2) v2) as [? ?];
      [done|]. done.
Qed.

(** ** The field name of a rule *)

Lemma Split_no_sep seg sep :
  contains sep seg = false -> strings.Split seg sep = [seg].
Proof.
  induction seg as [|c seg IH]; simpl; [done|].
  destruct (Ascii.eqb c sep); [done|]. simpl. intros Hc. by rewrite IH.
Qed.

Lemma Split_last_piece pre seg sep :
  contains sep seg = false ->
  exists piece pieces,
    strings.Split (String.append pre (String sep seg)) sep = piece :: pieces ∧
    pieces <> [] ∧ List.last pieces "" = seg.
Proof.
  intros Hseg. induction pre as [|c pre (piece & pieces & IH & Hne & Hlast)]; simpl.
  - rewrite Ascii.eqb_refl, Split_no_sep by done. by exists "", [seg].
  - rewrite IH. destruct (Ascii.eqb c sep).
    + exists "", (piece :: pieces). split_and!; [done|done|].
      destruct pieces; [done|]. exact Hlast.
    + by exists (String c piece), pieces.
Qed.

(** The field name of a basic-field rule is the rule's name when it has
    one, and otherwise what follows the last dot of the query: the whole
    query when it has no dot. *)
Theorem basicFieldName_last_segment field pre seg :
  contains "." seg = false ->
  BasicField.Query field = seg ∨
  BasicField.Query field = String.append pre (String "." seg) ->
  basicFieldName field
  = if String.eqb (BasicField.Name field) "" then seg else BasicField.Name field.
Proof.
  intros Hseg Hq. unfold basicFieldName.
  destruct (String.eqb (BasicField.Name field) ""); [|done].
  destruct Hq as [->| ->].
  - by rewrite Split_no_sep.
  - destruct (Split_last_piece pre seg "." Hseg) as (piece & pieces & -> & Hne & Hlast).
    unfold lastString. destruct pieces; [done|]. exact Hlast.
Qed.

(** ** Object flattening without arrays *)

Local Arguments flatten : simpl never.

Lemma iterator_member self result nameMap typeMap key val metrics w :
  gjson.IsArray val = false -> gjson.IsObject val = false ->
  combineObject_iterator self result nameMap typeMap key val metrics w
  = match memberField nameMap typeMap (RootFieldName result) key val with
    | Some f =>
        ((true, metrics),
         updW (Metric result)
           (fun fs => telegraf.addField fs (telegraf.Key f) (telegraf.Value f)) w)
    | None => ((false, metrics), w)
    end.
Proof.
  intros Harr Hobj. unfold combineObject_iterator, memberField, objectFieldName.
  rewrite Harr, Hobj.
  destruct (typeMap !! key) as [desiredType|]; [|done].
  by destruct (convertType _ _ _) as [v [e|]].
Qed.

(** What the induction carries for a subtree without arrays. *)
Lemma eachMember_flatten result nameMap typeMap members :
  Forall (fun kv =>
            arrayFree kv.2 = true ->
            forall fn ty m w,
              combineObject {| RootFieldName := fn; DesiredType := ty;
                               Metric := m; Result := kv.2 |} nameMap typeMap w
              = (([{| RootFieldName := fn; DesiredType := ty;
                      Metric := m; Result := kv.2 |}], None),
                 updW m (flatten nameMap typeMap kv.2 fn) w)) members ->
  forallb (fun kv => match kv with (_, v) => arrayFree v end) members = true ->
  forall metrics w,
    gjson.eachMember (combineObject_iterator combineObject result nameMap typeMap)
      members metrics w
    = (metrics,
       updW (Metric result)
         (fun fs => flattenMembers
                      (fun val key acc' => flatten nameMap typeMap val key acc')
                      nameMap typeMap (RootFieldName result) members fs) w).
Proof.
  induction 1 as [|[key val] members Hval _ IH]; intros Hfree metrics w.
  - simpl. unfold ret. by rewrite updW_id.
  - simpl in Hfree. apply andb_prop in Hfree as [Hv Hfree].
    specialize (IH Hfree). specialize (Hval Hv).
    cbn [gjson.eachMember flattenMembers]. unfold bind.
    destruct (gjson.IsObject val) eqn:Hobj.
    + assert (gjson.IsArray val = false) as Harr by by destruct val.
      rewrite Harr.
      unfold combineObject_iterator at 1. rewrite Harr, Hobj. unfold bind.
      simpl in Hval. rewrite Hval. unfold ret.
      rewrite IH. by rewrite updW_updW.
    + assert (gjson.IsArray val = false) as Harr by by destruct val.
      rewrite Harr, iterator_member by done.
      destruct (memberField _ _ _ _ _) as [f|].
      * rewrite IH. by rewrite updW_updW.
      * unfold ret. by rewrite updW_id.
Qed.

Lemma combineObject_flatten nameMap typeMap json :
  arrayFree json = true ->
  forall fn ty m w,
    combineObject {| RootFieldName := fn; DesiredType := ty;
                     Metric := m; Result := json |} nameMap typeMap w
    = (([{| RootFieldName := fn; DesiredType := ty; Metric := m; Result := json |}],
        None),
       updW m (flatten nameMap typeMap json fn) w).
Proof.
  induction json as [| | | | |elems _|members IH] using Result_ind';
    intros Hfree fn ty m w; try discriminate Hfree;
    rewrite combineObject_eq; unfold combineObject_body, bind; cbn [Result gjson.ForEach].
  - unfold ret. unfold flatten. by rewrite updW_id.
  - unfold bind. rewrite iterator_member by done. cbn [RootFieldName Metric].
    unfold flatten.
    destruct (memberField _ _ _ _ _) as [f|]; unfold ret; [done|by rewrite updW_id].
  - unfold bind. rewrite iterator_member by done. cbn [RootFieldName Metric].
    unfold flatten.
    destruct (memberField _ _ _ _ _) as [f|]; unfold ret; [done|by rewrite updW_id].
  - unfold bind. rewrite iterator_member by done. cbn [RootFieldName Metric].
    unfold flatten.
    destruct (memberField _ _ _ _ _) as [f|]; unfold ret; [done|by rewrite updW_id].
  - unfold bind. rewrite iterator_member by done. cbn [RootFieldName Metric].
    unfold flatten.
    destruct (memberField _ _ _ _ _) as [f|]; unfold ret; [done|by rewrite updW_id].
  - rewrite (eachMember_flatten _ _ _ _ IH Hfree). done.
Qed.

Lemma membersConvert_arrayFree typeMap members vs :
  membersConvert typeMap members vs ->
  forallb (fun kv => match kv with (_, v) => arrayFree v end) members = true.
Proof.
  induction 1 as [|[key val] v members vs (Harr & Hobj & _) _ IH]; simpl; [done|].
  rewrite IH, andb_true_r. simpl in Harr, Hobj. by destruct val.
Qed.

Lemma flattenMembers_convert flattenObject nameMap typeMap fn pre vs rest acc :
  membersConvert typeMap pre vs ->
  flattenMembers flattenObject nameMap typeMap fn (pre ++ rest) acc
  = flattenMembers flattenObject nameMap typeMap fn rest
      (addFields acc (membersFields nameMap fn pre vs)).
Proof.
  intros Hconv. revert acc.
  induction Hconv as [|[key val] v pre vs (Harr & Hobj & Hv) _ IH]; intros acc;
    [done|].
  simpl in Harr, Hobj, Hv. cbn [app flattenMembers]. rewrite Harr, Hobj.
  unfold memberField. unfold membersFields. cbn [zip_with]. rewrite addFields_cons.
  cbn [telegraf.Key telegraf.Value fst].
  destruct (typeMap !! key) as [desiredType|].
  - rewrite Hv. cbn [telegraf.Key telegraf.Value]. apply IH.
  - subst v. cbn [telegraf.Key telegraf.Value]. apply IH.
Qed.

(** A JSON subtree without arrays, however deep, flattens into the one
    metric of the row: combineObject returns the row alone and no error,
    allocates nothing and leaves every other metric as it was. *)
Theorem combineObject_array_free result nameMap typeMap w :
  arrayFree (Result result) = true ->
  Metric result < length (heap w) ->
  exists w',
    combineObject result nameMap typeMap w = (([result], None), w') ∧
    length (heap w') = length (heap w) ∧ ticks w' = ticks w ∧
    fieldsAt w' (Metric result)
    = flatten nameMap typeMap (Result result) (RootFieldName result)
        (fieldsAt w (Metric result)) ∧
    forall q, q <> Metric result -> fieldsAt w' q = fieldsAt w q.
Proof.
  intros Hfree Hm. destruct result as [fn ty m json]. simpl in Hfree, Hm.
  rewrite combineObject_flatten by done.
  eexists. split; [reflexivity|].
  rewrite length_updW, fieldsAt_updW_eq by done.
  split_and!; [done|done|done|].
  intros q Hq. simpl in Hq. by apply fieldsAt_updW_ne.
Qed.



Lemma flattenMembers_convert_all flattenObject nameMap typeMap fn members vs acc :
  membersConvert typeMap members vs ->
  flattenMembers flattenObject nameMap typeMap fn members acc
  = addFields acc (membersFields nameMap fn members vs).
Proof.
  intros Hconv.
  pose proof (flattenMembers_convert flattenObject nameMap typeMap fn members vs []
                acc Hconv) as H.
  rewrite app_nil_r in H. exact H.
Qed.

Lemma contains_RemoveAll s c : contains c (strings.RemoveAll s c) = false.
Proof.
  induction s as [|c' s IH]; simpl; [done|].
  destruct (Ascii.eqb c' c) eqn:Hc; [done|]. simpl. by rewrite Hc.
Qed.

Lemma keysOf_membersFields_no_space nameMap fn members vs :
  Forall (fun kv => kv.1 <> "") members ->
  Forall (fun k => contains " " k = false)
    (keysOf (membersFields nameMap fn members vs)).
Proof.
  intros Hkeys. revert vs.
  induction Hkeys as [|[key val] members Hkey _ IH]; intros [|v vs]; try constructor.
  - unfold objectFieldName. simpl in *.
    destruct (String.eqb_spec key "") as [Heq|_]; [done|].
    apply contains_RemoveAll.
  - apply IH.
Qed.

(** The keys combineObject writes for the children of an object have no
    space in them, whatever the document and the name map spell: when the
    metric of the row had no such key before, it has none afterwards. *)
Theorem combineObject_keys_no_space result nameMap typeMap w members vs :
  Metric result < length (heap w) ->
  Result result = gjson.Object members ->
  membersConvert typeMap members vs ->
  Forall (fun kv => kv.1 <> "") members ->
  Forall (fun k => contains " " k = false) (keysOf (fieldsAt w (Metric result))) ->
  exists w',
    combineObject result nameMap typeMap w = (([result], None), w') ∧
    length (fieldsAt w' (Metric result)) <= length (fieldsAt w (Metric result))
                                            + length members ∧
    Forall (fun k => contains " " k = false) (keysOf (fieldsAt w' (Metric result))).
Proof.
  intros Hm Hres Hconv Hkeys Hold. destruct result as [fn ty m json].
  simpl in Hm, Hres, Hold. subst json.
  rewrite combineObject_flatten by (simpl; by eapply membersConvert_arrayFree).
  eexists. split; [reflexivity|].
  rewrite fieldsAt_updW_eq by done. unfold flatten. cbn [RootFieldName Metric].
  rewrite (flattenMembers_convert_all _ _ _ _ _ vs) by done.
  split.
  - assert (forall fl fs, length (addFields fs fl) <= length fs + length fl) as Hlen.
    { induction fl as [|f fl IH]; intros fs; [rewrite addFields_nil; simpl; lia|].
      rewrite addFields_cons. etrans; [apply IH|].
      assert (length (telegraf.addField fs (telegraf.Key f) (telegraf.Value f))
              <= S (length fs)) as Hadd.
      { clear. induction fs as [|g fs IH]; simpl; [lia|].
        destruct (String.eqb _ _); simpl; lia. }
      simpl. lia. }
    etrans; [apply Hlen|]. unfold membersFields.
    rewrite length_zip_with. lia.
  - apply Forall_forall. intros k Hk.
    apply elem_of_keysOf_addFields in Hk as [Hk|Hk].
    + rewrite Forall_forall in Hold. by apply Hold.
    + pose proof (keysOf_membersFields_no_space nameMap fn members vs Hkeys) as Hnew.
      rewrite Forall_forall in Hnew. by apply Hnew.
Qed.

(** ** An object with an array child *)




(** ** The object-field processor *)

(** An object-field rule whose query selects a scalar or null, with no
    type declared for the empty key, gives one metric holding the value
    as it is under the last word of the query. *)
Theorem processObjectFields_scalar metricName field input w :
  gjson.IsArray (GetBytes input (ObjectField.Query field)) = false ->
  gjson.IsObject (GetBytes input (ObjectField.Query field)) = false ->
  gjson.Exists (GetBytes input (ObjectField.Query field)) = true ->
  ObjectField.TypeMap field !! "" = None ->
  exists w',
    processObjectFields metricName [field] input w
    = (([length (heap w)], None), w') ∧
    length (heap w') = S (length (heap w)) ∧
    fieldsAt w' (length (heap w))
    = [{| telegraf.Key := lastString (strings.Split (ObjectField.Query field) ".");
          telegraf.Value := gjson.Value (GetBytes input (ObjectField.Query field)) |}].
Proof.
  intros Harr Hobj Hex Hty.
  unfold processObjectFields. cbn [processObjectFields_loop].
  rewrite alloc_run. unfold bind.
  rewrite combineObject_flatten by by destruct (GetBytes _ _).
  cbn [processObjectFields_loop app List.map Metric]. unfold ret.
  eexists. split; [reflexivity|].
  rewrite length_updW, length_allocW.
  rewrite fieldsAt_updW_eq by (rewrite length_allocW; lia).
  rewrite fieldsAt_allocW_new. split; [done|].
  destruct (GetBytes input (ObjectField.Query field)); try discriminate;
    unfold flatten, memberField; by rewrite Hty.
Qed.

Lemma processObjectFields_loop_acc metricName objectFields input :
  forall t0 w,
    exists r w',
      processObjectFields_loop metricName objectFields input t0 w
      = ((t0 ++ r, None), w') ∧
      processObjectFields_loop metricName objectFields input [] w
      = ((r, None), w').
Proof.
  induction objectFields as [|field objectFields IH]; intros t0 w.
  - exists [], w. simpl. by rewrite app_nil_r.
  - cbn [processObjectFields_loop]. rewrite !alloc_run. unfold bind.
    match goal with
    | |- context [combineObject ?r ?nm ?tm ?w1] =>
        destruct (combineObject_root r nm tm w1) as (metrics & w1' & ->)
    end.
    match goal with
    | |- context [processObjectFields_loop _ _ _ (t0 ++ ?l) ?w1] =>
        destruct (IH (t0 ++ l) w1) as (r & w' & -> & Hr);
        destruct (IH ([] ++ l) w1) as (r' & w'' & -> & Hr')
    end.
    rewrite Hr in Hr'. injection Hr' as <- <-.
    eexists _, w'. split; [|reflexivity]. by rewrite <-app_assoc.
Qed.

(** Object-field rules are processed one after the other on the heap the
    rules before left, and the output of a list of rules is the output of
    its first part followed by the output of the rest; no part fails. *)
Theorem processObjectFields_app metricName fields1 fields2 input w :
  exists t1 w1 t2 w2,
    processObjectFields metricName fields1 input w = ((t1, None), w1) ∧
    processObjectFields metricName fields2 input w1 = ((t2, None), w2) ∧
    processObjectFields metricName (fields1 ++ fields2) input w
    = ((t1 ++ t2, None), w2).
Proof.
  unfold processObjectFields.
  assert (forall t0 w0,
            processObjectFields_loop metricName (fields1 ++ fields2) input t0 w0
            = (let '((t, _), w1) :=
                 processObjectFields_loop metricName fields1 input t0 w0 in
               processObjectFields_loop metricName fields2 input t w1)) as Happ.
  { induction fields1 as [|field fields1 IH]; intros t0 w0; [done|].
    cbn [app processObjectFields_loop]. rewrite !alloc_run. unfold bind.
    match goal with
    | |- context [combineObject ?r ?nm ?tm ?w1] =>
        destruct (combineObject_root r nm tm w1) as (metrics & w2 & ->)
    end.
    apply IH. }
  destruct (processObjectFields_loop_acc metricName fields1 input [] w)
    as (t1 & w1 & Hrun1 & _).
  destruct (processObjectFields_loop_acc metricName fields2 input t1 w1)
    as (t2 & w2 & Hrun2 & Hrun2').
  exists t1, w1, t2, w2. simpl in Hrun1.
  split; [done|]. split; [done|]. by rewrite Happ, Hrun1.
Qed.

(** ** Parse *)

Lemma processBasicFields_error metricName basicFields input w t e w' :
  processBasicFields metricName basicFields input w = ((t, Some e), w') -> t = [].
Proof.
  unfold processBasicFields, bind.
  destruct (collectBasicFields _ _ _ _ _) as [[mf [e'|]] w1]; [by intros [= <- _ _]|].
  destruct (if 1 <? _ then _ else _) as [[] w2].
  by destruct (_ && _).
Qed.

Lemma Parse_loop_acc configs input :
  forall t w,
    Parse_loop configs input t w
    = match Parse_loop configs input [] w with
      | ((r, None), w') => ((t ++ r, None), w')
      | ((_, Some e), w') => (([], Some e), w')
      end.
Proof.
  induction configs as [|config configs IH]; intros t w.
  - simpl. by rewrite app_nil_r.
  - cbn [Parse_loop]. unfold bind.
    destruct (processBasicFields _ _ _ _) as [[b [e|]] w1]; [done|].
    destruct (processObjectFields _ _ _ _) as [[o [e|]] w2]; [done|].
    rewrite (IH ((t ++ b) ++ o)), (IH (([] ++ b) ++ o)).
    destruct (Parse_loop configs input [] w2) as [[r [e|]] w3]; [done|].
    simpl. by rewrite <-!app_assoc.
Qed.

Lemma Parse_loop_app configs1 configs2 input :
  forall t w,
    Parse_loop (configs1 ++ configs2) input t w
    = match Parse_loop configs1 input t w with
      | ((r, None), w1) => Parse_loop configs2 input r w1
      | ((_, Some e), w1) => (([], Some e), w1)
      end.
Proof.
  induction configs1 as [|config configs1 IH]; intros t w; [done|].
  cbn [app Parse_loop]. unfold bind.
  destruct (processBasicFields _ _ _ _) as [[b [e|]] w1]; [done|].
  destruct (processObjectFields _ _ _ _) as [[o [e|]] w2]; [done|].
  apply IH.
Qed.

Lemma Parse_loop_error configs input :
  forall t w r e w',
    Parse_loop configs input t w = ((r, Some e), w') ->
    r = [] ∧
    exists config w0,
      config ∈ configs ∧
      processBasicFields (Config.MetricName config) (Config.BasicFields config)
        input w0 = (([], Some e), w').
Proof.
  induction configs as [|config configs IH]; intros t w r e w'; [done|].
  cbn [Parse_loop]. unfold bind.
  destruct (processBasicFields _ _ _ w) as [[b [e1|]] w1] eqn:Hb.
  - intros [= <- <- <-]. split; [done|].
    exists config, w. split; [apply list_elem_of_here|].
    by rewrite (processBasicFields_error _ _ _ _ _ _ _ Hb) in Hb.
  - destruct (processObjectFields_loop_ok (Config.MetricName config)
                (Config.ObjectFields config) input [] w1) as (o & w2 & Ho & _).
    unfold processObjectFields. rewrite Ho.
    intros Hrun. destruct (IH _ _ _ _ _ Hrun) as [-> (c & w0 & Hc & Hrun')].
    split; [done|]. exists c, w0. split; [by apply list_elem_of_further|done].
Qed.

(** Parse never returns metrics together with an error.  It fails either
    at once, on input that is not valid JSON, with nothing allocated, or
    with the error of the basic-field processor on one of the configs:
    object-field rules never make it fail. *)
Theorem Parse_error Configs input w t e w' :
  Parse Configs input w = ((t, Some e), w') ->
  t = [] ∧
  ((Valid input = false ∧ e = ErrInvalidJSON ∧ w' = w) ∨
   (Valid input = true ∧
    exists config w0,
      config ∈ Configs ∧
      processBasicFields (Config.MetricName config) (Config.BasicFields config)
        input w0 = (([], Some e), w'))).
Proof.
  unfold Parse. destruct (Valid input).
  - simpl. intros Hrun. destruct (Parse_loop_error _ _ _ _ _ _ _ Hrun) as [-> H].
    split; [done|]. by right.
  - simpl. intros [= <- <- <-]. split; [done|]. by left.
Qed.

(** On valid input the metrics of a list of configs are the metrics of its
    first part followed by those of the rest, the rest being parsed on the
    heap the first part left; when the rest fails, the metrics of the first
    part are dropped with it. *)
Theorem Parse_app Configs1 Configs2 input w t1 w1 :
  Valid input = true ->
  Parse Configs1 input w = ((t1, None), w1) ->
  Parse (Configs1 ++ Configs2) input w
  = match Parse Configs2 input w1 with
    | ((t2, None), w2) => ((t1 ++ t2, None), w2)
    | ((_, Some e), w2) => (([], Some e), w2)
    end.
Proof.
  unfold Parse. intros ->. simpl. intros Hrun.
  rewrite Parse_loop_app, Hrun. apply Parse_loop_acc.
Qed.

(** Within a config the metrics of the basic-field rules come first, then
    those of the object-field rules, then the metrics of the configs after
    it. *)
Theorem Parse_cons config Configs input w b w1 o w2 r w3 :
  Valid input = true ->
  processBasicFields (Config.MetricName config) (Config.BasicFields config) input w
  = ((b, None), w1) ->
  processObjectFields (Config.MetricName config) (Config.ObjectFields config) input w1
  = ((o, None), w2) ->
  Parse Configs input w2 = ((r, None), w3) ->
  Parse (config :: Configs) input w = ((b ++ o ++ r, None), w3).
Proof.
  unfold Parse. intros ->. simpl. intros Hb Ho Hr.
  unfold bind. rewrite Hb, Ho, Parse_loop_acc, Hr. by rewrite <-app_assoc.
Qed.

(** ** The names of the metrics *)

Lemma length_namesOf w : length (namesOf w) = length (heap w).
Proof. apply length_fmap. Qed.

Lemma namesOf_updW p f w : namesOf (updW p f w) = namesOf w.
Proof.
  unfold namesOf, updW. simpl.
  rewrite (list_fmap_alter telegraf.name _ (fun x => x)).
  - by apply list_alter_id.
  - apply Forall_forall. by intros [].
Qed.

Lemma namesOf_allocW metricName w :
  namesOf (allocW metricName w) = namesOf w ++ [metricName].
Proof. unfold namesOf, allocW. simpl. by rewrite fmap_app. Qed.

Lemma allocatedAs_refl metricName w : allocatedAs metricName w w.
Proof. exists 0. simpl. by rewrite app_nil_r. Qed.

Lemma allocatedAs_trans metricName w1 w2 w3 :
  allocatedAs metricName w1 w2 -> allocatedAs metricName w2 w3 ->
  allocatedAs metricName w1 w3.
Proof.
  intros [k1 H1] [k2 H2]. exists (k1 + k2).
  by rewrite H2, H1, <-app_assoc, replicate_add.
Qed.

Lemma allocatedAs_updW metricName w p f : allocatedAs metricName w (updW p f w).
Proof. exists 0. rewrite namesOf_updW. simpl. by rewrite app_nil_r. Qed.

Lemma allocatedAs_allocW metricName w : allocatedAs metricName w (allocW metricName w).
Proof. exists 1. apply namesOf_allocW. Qed.

Lemma allocatedAs_branchW metricName m w :
  allocatedAs metricName w (branchW metricName m w).
Proof.
  unfold branchW. eapply allocatedAs_trans;
    [apply allocatedAs_allocW|apply allocatedAs_updW].
Qed.

Lemma allocatedAs_length metricName w w' :
  allocatedAs metricName w w' -> length (heap w) <= length (heap w').
Proof.
  intros [k Hk]. rewrite <-!length_namesOf, Hk, length_app. lia.
Qed.

Lemma allocatedAs_old metricName w w' p x :
  allocatedAs metricName w w' -> namesOf w !! p = Some x -> namesOf w' !! p = Some x.
Proof. intros [k ->] Hp. by apply lookup_app_l_Some. Qed.

Lemma allocatedAs_new metricName w w' p :
  allocatedAs metricName w w' ->
  length (heap w) <= p < length (heap w') ->
  namesOf w' !! p = Some metricName.
Proof.
  intros [k Hk] [Hlo Hhi]. rewrite <-!length_namesOf in *. rewrite Hk in *.
  rewrite length_app, length_replicate in Hhi.
  rewrite lookup_app_r by done. apply lookup_replicate. split; [done|lia].
Qed.

Lemma Name_run m w metricName :
  namesOf w !! m = Some metricName -> metric.Name m w = (metricName, w).
Proof.
  unfold namesOf, metric.Name. rewrite list_lookup_fmap.
  destruct (heap w !! m) as [c|]; [|done]. by intros [= ->].
Qed.

Lemma forRange_keeps {A B} (phi : world -> B) (l : list A) (body : A -> M unit) :
  (forall x w, phi (body x w).2 = phi w) ->
  forall w, phi (forRange l body w).2 = phi w.
Proof.
  intros Hbody. induction l as [|x l IH]; intros w; [done|].
  cbn [forRange]. unfold bind.
  pose proof (Hbody x w) as Hx. destruct (body x w) as [[] w1].
  rewrite IH. exact Hx.
Qed.

Lemma mergeMetricFields_names metricFields w :
  namesOf (mergeMetricFields metricFields w).2 = namesOf w.
Proof.
  unfold mergeMetricFields.
  apply forRange_keeps. intros i w1.
  apply forRange_keeps. intros p w2.
  apply forRange_keeps. intros c w3.
  rewrite copyFields_run. apply namesOf_updW.
Qed.

Lemma eachElem_names result metricName elems :
  Forall (fun val =>
            forall fn ty m w, m < length (heap w) ->
              allocatedAs metricName w
                (expandArray {| RootFieldName := fn; DesiredType := ty;
                                Metric := m; Result := val |} metricName w).2) elems ->
  forall i s w,
    Metric result < length (heap w) ->
    allocatedAs metricName w
      (gjson.eachElem arrayKey (expandArray_iterator expandArray result metricName)
         i elems s w).2.
Proof.
  induction 1 as [|val elems Hval _ IH]; intros i [err results] w Hm.
  - apply allocatedAs_refl.
  - cbn [gjson.eachElem]. unfold bind.
    assert (exists b s1 w1,
              expandArray_iterator expandArray result metricName (arrayKey i) val
                (err, results) w = ((b, s1), w1) ∧
              allocatedAs metricName w w1) as (b & s1 & w1 & -> & Ha).
    { destruct (gjson.IsObject val) eqn:Hobj.
      - rewrite iterator_object by done. eexists _, _, _. split; [done|].
        apply allocatedAs_refl.
      - destruct (gjson.IsArray val) eqn:Harr.
        + rewrite iterator_array by done.
          specialize (Hval (RootFieldName result) "" (length (heap w))
                        (branchW metricName (Metric result) w)).
          destruct (expandArray _ _ _) as [[r [e|]] w1]; eexists _, _, _;
            (split; [done|]);
            (eapply allocatedAs_trans; [apply allocatedAs_branchW|]);
            apply Hval; rewrite branchW_length; lia.
        + rewrite iterator_scalar by done.
          destruct (convertType _ _ _) as [v [e|]]; eexists _, _, _;
            (split; [done|]).
          * apply allocatedAs_branchW.
          * eapply allocatedAs_trans; [apply allocatedAs_branchW|].
            apply allocatedAs_updW. }
    destruct b; [|exact Ha].
    eapply allocatedAs_trans; [exact Ha|]. apply IH.
    apply allocatedAs_length in Ha. lia.
Qed.

Lemma expandArray_names metricName json :
  forall fn ty m w, m < length (heap w) ->
    allocatedAs metricName w
      (expandArray {| RootFieldName := fn; DesiredType := ty;
                      Metric := m; Result := json |} metricName w).2.
Proof.
  induction json as [| | | | |elems IH|members _] using Result_ind';
    intros fn ty m w Hm.
  6: { rewrite expandArray_eq. unfold expandArray_body, expandArray_rest.
       cbn [Result gjson.IsObject gjson.IsArray gjson.ForEach]. unfold bind.
       pose proof (eachElem_names
                     {| RootFieldName := fn; DesiredType := ty; Metric := m;
                        Result := gjson.Array elems |} metricName elems IH 0
                     (None, []) w Hm) as Ha.
       destruct (gjson.eachElem _ _ _ _ _ _) as [[[e|] results] w1]; exact Ha. }
  all: rewrite expandArray_not_array by done; cbn [Result gjson.IsObject gjson.Exists].
  all: try apply allocatedAs_refl.
  all: destruct (convertType _ _ _) as [v [e|]];
    [apply allocatedAs_refl|apply allocatedAs_updW].
Qed.

(** The rows expandArray returns are the row it was given or rows on
    metrics it allocated. *)
Lemma expandArray_row_range result metricName w rows err w' :
  Metric result < length (heap w) ->
  expandArray result metricName w = ((rows, err), w') ->
  Forall (fun r => Metric r < length (heap w') ∧
                   (Metric r = Metric result ∨ length (heap w) <= Metric r)) rows.
Proof.
  intros Hm Hrun.
  destruct (gjson.IsArray (Result result)) eqn:Harr.
  - destruct (expandArray_rows result metricName w Hm Harr)
      as (rows0 & w0 & Hrun0 & _ & _ & Hfresh & _).
    rewrite Hrun0 in Hrun. injection Hrun as <- _ <-.
    eapply Forall_impl; [exact Hfresh|]. intros r [[Hlo Hhi] _]. split; [done|by right].
  - rewrite expandArray_not_array in Hrun by done.
    destruct (gjson.IsObject _); [injection Hrun as <- _ _; constructor|].
    destruct (gjson.Exists _); [|injection Hrun as <- _ _; constructor].
    destruct (convertType _ _ _) as [v [e|]]; injection Hrun as <- _ <-;
      [constructor|].
    apply Forall_singleton. rewrite length_updW. split; [done|by left].
Qed.

Lemma collectBasicFields_names metricName basicFields input :
  forall metricFields w,
    allocatedAs metricName w
      (collectBasicFields metricName basicFields input metricFields w).2.
Proof.
  induction basicFields as [|field basicFields IH]; intros metricFields w.
  - apply allocatedAs_refl.
  - destruct (gjson.IsObject (GetBytes input (BasicField.Query field))) eqn:Hobj.
    { cbn [collectBasicFields]. rewrite Hobj. apply allocatedAs_refl. }
    rewrite collectBasicFields_cons by done.
    assert (length (heap w) < length (heap (allocW metricName w))) as Hlt
      by (rewrite length_allocW; lia).
    pose proof (expandArray_names metricName (GetBytes input (BasicField.Query field))
                  (basicFieldName field) (BasicField.Type_ field) (length (heap w))
                  (allocW metricName w) Hlt) as Ha.
    fold (basicFieldNode field input (length (heap w))) in Ha.
    destruct (expandArray _ _ _) as [[nodes [e|]] w2] eqn:Hrun;
      rewrite ?Hrun in Ha; simpl in Ha;
      (eapply allocatedAs_trans; [apply allocatedAs_allocW|]).
    + exact Ha.
    + eapply allocatedAs_trans; [exact Ha|apply IH].
Qed.

Lemma collectBasicFields_range metricName basicFields input :
  forall metricFields w groups w1,
    collectBasicFields metricName basicFields input metricFields w
    = ((groups, None), w1) ->
    exists new, groups = metricFields ++ new ∧ Forall (allocatedIn w w1) new.
Proof.
  induction basicFields as [|field basicFields IH]; intros metricFields w groups w1.
  - intros [= <- <-]. exists []. by rewrite app_nil_r.
  - destruct (gjson.IsObject (GetBytes input (BasicField.Query field))) eqn:Hobj.
    { cbn [collectBasicFields]. by rewrite Hobj. }
    rewrite collectBasicFields_cons by done.
    assert (length (heap w) < length (heap (allocW metricName w))) as Hlt
      by (rewrite length_allocW; lia).
    pose proof (expandArray_names metricName (GetBytes input (BasicField.Query field))
                  (basicFieldName field) (BasicField.Type_ field) (length (heap w))
                  (allocW metricName w) Hlt) as Hgrow.
    fold (basicFieldNode field input (length (heap w))) in Hgrow.
    destruct (expandArray _ _ _) as [[nodes [e|]] w2] eqn:Hrun; [done|].
    rewrite ?Hrun in Hgrow. simpl in Hgrow. apply allocatedAs_length in Hgrow.
    rewrite length_allocW in Hgrow.
    intros Hrest.
    pose proof (collectBasicFields_names metricName basicFields input
                  (metricFields ++ [List.map Metric nodes]) w2) as Ha.
    rewrite Hrest in Ha. simpl in Ha. apply allocatedAs_length in Ha.
    apply expandArray_row_range in Hrun; [|exact Hlt].
    destruct (IH _ _ _ _ Hrest) as (new & -> & Hnew).
    exists (List.map Metric nodes :: new). split; [by rewrite <-app_assoc|].
    constructor.
    + unfold allocatedIn. rewrite List.Forall_map.
      eapply Forall_impl; [exact Hrun|]. intros r [Hhi Hlo].
      rewrite length_allocW in Hlo. simpl in Hlo. lia.
    + eapply Forall_impl; [exact Hnew|]. intros g Hg.
      eapply Forall_impl; [exact Hg|]. intros q [Hlo Hhi]. lia.
Qed.

Lemma processBasicFields_names metricName basicFields input w t err w' :
  processBasicFields metricName basicFields input w = ((t, err), w') ->
  allocatedAs metricName w w' ∧
  Forall (fun p => length (heap w) <= p ∧ namesOf w' !! p = Some metricName) t.
Proof.
  intros Hrun.
  pose proof (collectBasicFields_names metricName basicFields input [] w) as Ha.
  destruct (collectBasicFields metricName basicFields input [] w)
    as [[groups [e|]] w1] eqn:Hcollect; simpl in Ha.
  - unfold processBasicFields, bind in Hrun. rewrite Hcollect in Hrun.
    injection Hrun as <- _ <-. split; [done|constructor].
  - destruct (processBasicFields_last _ _ _ _ _ _ Hcollect)
      as (w2 & Hrun2 & Hheap & Hw2).
    rewrite Hrun2 in Hrun. injection Hrun as <- _ <-.
    assert (namesOf w2 = namesOf w1) as Hnames.
    { rewrite Hw2. destruct (1 <? length groups); [|done].
      apply mergeMetricFields_names. }
    assert (allocatedAs metricName w w2) as Ha2.
    { destruct Ha as [k Hk]. exists k. by rewrite Hnames. }
    split; [done|].
    destruct (collectBasicFields_range _ _ _ _ _ _ _ Hcollect) as (new & -> & Hnew).
    simpl in *.
    match goal with
    | |- Forall _ (nth ?n ?l ?d) =>
        destruct (nth_in_or_default n l d) as [Hin|Hd]; [|rewrite Hd; constructor]
    end.
    apply (Permutation_in _ (sort_Slice_perm lessLen _)) in Hin.
    apply list_elem_of_In in Hin.
    rewrite Forall_forall in Hnew. specialize (Hnew _ Hin).
    eapply Forall_impl; [exact Hnew|]. intros p [Hlo Hhi]. split; [done|].
    apply (allocatedAs_new metricName w); [done|]. rewrite Hheap. lia.
Qed.

Lemma allocatedIn_mono w0 w1 w w' ps :
  allocatedIn w0 w1 ps ->
  length (heap w) <= length (heap w0) -> length (heap w1) <= length (heap w') ->
  allocatedIn w w' ps.
Proof.
  intros Hps Hlo Hhi. eapply Forall_impl; [exact Hps|]. intros p [? ?]. lia.
Qed.

Lemma iterator_names metricName result nameMap typeMap key val metrics w :
  (gjson.IsObject val = true -> flattensAs metricName val) ->
  namesOf w !! Metric result = Some metricName ->
  exists b new w1,
    combineObject_iterator combineObject result nameMap typeMap key val metrics w
    = ((b, metrics ++ new), w1) ∧
    allocatedAs metricName w w1 ∧
    allocatedIn w w1 (List.map Metric new).
Proof.
  intros Hval Hname.
  assert (Metric result < length (heap w)) as Hm.
  { apply lookup_lt_Some in Hname. by rewrite length_namesOf in Hname. }
  destruct (gjson.IsArray val) eqn:Harr.
  - unfold combineObject_iterator. rewrite Harr. unfold bind.
    rewrite (Name_run _ _ _ Hname).
    set (arrayNode := {| RootFieldName := key; DesiredType := "";
                         Metric := Metric result; Result := val |}).
    pose proof (expandArray_names metricName val key "" (Metric result) w Hm) as Ha.
    fold arrayNode in Ha.
    destruct (expandArray_rows arrayNode metricName w Hm Harr)
      as (rows & w1 & Hrun & _ & _ & Hfresh & _).
    rewrite Hrun in Ha |- *. simpl in Ha.
    destruct (rowsOf _ _ _ _).2 as [e|].
    + exists false, [], w1. rewrite app_nil_r. split_and!; [done|done|constructor].
    + exists true, rows, w1. split_and!; [done|done|].
      unfold allocatedIn. rewrite List.Forall_map.
      eapply Forall_impl; [exact Hfresh|]. by intros r [? _].
  - destruct (gjson.IsObject val) eqn:Hobj.
    + unfold combineObject_iterator. rewrite Harr, Hobj. unfold bind.
      destruct (Hval eq_refl key "" (Metric result) nameMap typeMap w Hname)
        as (ms & w1 & -> & Ha & _).
      exists true, [], w1. rewrite app_nil_r. split_and!; [done|done|constructor].
    + rewrite iterator_member by done.
      destruct (memberField _ _ _ _ _) as [f|].
      * eexists true, [], _. rewrite app_nil_r.
        split_and!; [done|apply allocatedAs_updW|constructor].
      * exists false, [], w. rewrite app_nil_r.
        split_and!; [done|apply allocatedAs_refl|constructor].
Qed.

Lemma eachMember_names metricName result nameMap typeMap members :
  Forall (fun kv => flattensAs metricName kv.2) members ->
  forall metrics w,
    namesOf w !! Metric result = Some metricName ->
    exists new w',
      gjson.eachMember (combineObject_iterator combineObject result nameMap typeMap)
        members metrics w = (metrics ++ new, w') ∧
      allocatedAs metricName w w' ∧
      allocatedIn w w' (List.map Metric new).
Proof.
  induction 1 as [|[key val] members Hval _ IH]; intros metrics w Hname.
  - exists [], w. simpl. rewrite app_nil_r.
    split_and!; [done|apply allocatedAs_refl|constructor].
  - cbn [gjson.eachMember]. unfold bind.
    destruct (iterator_names metricName result nameMap typeMap key val metrics w
                (fun _ => Hval) Hname) as (b & new & w1 & -> & Ha & Hnew).
    destruct b.
    + destruct (IH (metrics ++ new) w1 (allocatedAs_old _ _ _ _ _ Ha Hname))
        as (new' & w' & -> & Ha' & Hnew').
      exists (new ++ new'), w'. rewrite app_assoc.
      split_and!; [done|by eapply allocatedAs_trans|].
      rewrite map_app. apply Forall_app. split.
      * eapply allocatedIn_mono; [exact Hnew|done|by eapply allocatedAs_length].
      * eapply allocatedIn_mono; [exact Hnew'|by eapply allocatedAs_length|done].
    + exists new, w1. done.
Qed.

Lemma eachElem_flatten_names metricName result nameMap typeMap elems :
  Forall (flattensAs metricName) elems ->
  forall i metrics w,
    namesOf w !! Metric result = Some metricName ->
    exists new w',
      gjson.eachElem arrayKey
        (combineObject_iterator combineObject result nameMap typeMap)
        i elems metrics w = (metrics ++ new, w') ∧
      allocatedAs metricName w w' ∧
      allocatedIn w w' (List.map Metric new).
Proof.
  induction 1 as [|val elems Hval _ IH]; intros i metrics w Hname.
  - exists [], w. simpl. rewrite app_nil_r.
    split_and!; [done|apply allocatedAs_refl|constructor].
  - cbn [gjson.eachElem]. unfold bind.
    destruct (iterator_names metricName result nameMap typeMap (arrayKey i) val
                metrics w (fun _ => Hval) Hname) as (b & new & w1 & -> & Ha & Hnew).
    destruct b.
    + destruct (IH (S i) (metrics ++ new) w1 (allocatedAs_old _ _ _ _ _ Ha Hname))
        as (new' & w' & -> & Ha' & Hnew').
      exists (new ++ new'), w'. rewrite app_assoc.
      split_and!; [done|by eapply allocatedAs_trans|].
      rewrite map_app. apply Forall_app. split.
      * eapply allocatedIn_mono; [exact Hnew|done|by eapply allocatedAs_length].
      * eapply allocatedIn_mono; [exact Hnew'|by eapply allocatedAs_length|done].
    + exists new, w1. done.
Qed.

Lemma combineObject_names metricName json : flattensAs metricName json.
Proof.
  induction json as [| | | | |elems IH|members IH] using Result_ind';
    intros fn ty m nameMap typeMap w Hname;
    rewrite combineObject_eq; unfold combineObject_body; cbn [Result gjson.ForEach];
    unfold bind at 1.
  - exists [], w. split_and!; [done|apply allocatedAs_refl|constructor].
  - unfold bind.
    destruct (iterator_names metricName
                {| RootFieldName := fn; DesiredType := ty; Metric := m;
                   Result := gjson.Null |} nameMap typeMap "" gjson.Null [] w)
      as (b & new & w1 & -> & Ha & Hnew); [done|done|].
    by exists new, w1.
  - unfold bind.
    destruct (iterator_names metricName
                {| RootFieldName := fn; DesiredType := ty; Metric := m;
                   Result := gjson.Bool b |} nameMap typeMap "" (gjson.Bool b) [] w)
      as (b' & new & w1 & -> & Ha & Hnew); [done|done|].
    by exists new, w1.
  - unfold bind.
    destruct (iterator_names metricName
                {| RootFieldName := fn; DesiredType := ty; Metric := m;
                   Result := gjson.Number n |} nameMap typeMap "" (gjson.Number n) [] w)
      as (b & new & w1 & -> & Ha & Hnew); [done|done|].
    by exists new, w1.
  - unfold bind.
    destruct (iterator_names metricName
                {| RootFieldName := fn; DesiredType := ty; Metric := m;
                   Result := gjson.Str s |} nameMap typeMap "" (gjson.Str s) [] w)
      as (b & new & w1 & -> & Ha & Hnew); [done|done|].
    by exists new, w1.
  - destruct (eachElem_flatten_names metricName
                {| RootFieldName := fn; DesiredType := ty; Metric := m;
                   Result := gjson.Array elems |} nameMap typeMap elems IH 0 [] w Hname)
      as (new & w1 & -> & Ha & Hnew).
    by exists new, w1.
  - destruct (eachMember_names metricName
                {| RootFieldName := fn; DesiredType := ty; Metric := m;
                   Result := gjson.Object members |} nameMap typeMap members IH [] w
                Hname)
      as (new & w1 & -> & Ha & Hnew).
    by exists new, w1.
Qed.

Lemma processObjectFields_loop_names metricName objectFields input :
  forall t0 w,
    exists r w',
      processObjectFields_loop metricName objectFields input t0 w
      = ((t0 ++ r, None), w') ∧
      allocatedAs metricName w w' ∧ allocatedIn w w' r.
Proof.
  induction objectFields as [|field objectFields IH]; intros t0 w.
  - exists [], w. simpl. rewrite app_nil_r.
    split_and!; [done|apply allocatedAs_refl|constructor].
  - cbn [processObjectFields_loop]. rewrite alloc_run. unfold bind.
    assert (namesOf (allocW metricName w) !! length (heap w) = Some metricName)
      as Hname.
    { rewrite namesOf_allocW, <-length_namesOf. apply list_lookup_middle. done. }
    destruct (combineObject_names metricName (GetBytes input (ObjectField.Query field))
                (lastString (strings.Split (ObjectField.Query field) ".")) ""
                (length (heap w)) (ObjectField.NameMap field)
                (ObjectField.TypeMap field) (allocW metricName w) Hname)
      as (metrics & w1 & -> & Ha & Hin).
    destruct (IH (t0 ++ List.map Metric (metrics ++ [
                {| RootFieldName := lastString (strings.Split (ObjectField.Query field) ".");
                   DesiredType := ""; Metric := length (heap w);
                   Result := GetBytes input (ObjectField.Query field) |}])) w1)
      as (r & w' & -> & Ha' & Hin').
    pose proof (allocatedAs_length _ _ _ Ha) as Hl1.
    pose proof (allocatedAs_length _ _ _ Ha') as Hl2.
    rewrite length_allocW in Hl1.
    eexists _, w'. split; [by rewrite <-app_assoc|].
    split.
    { eapply allocatedAs_trans; [apply allocatedAs_allocW|].
      by eapply allocatedAs_trans. }
    apply Forall_app. split.
    + rewrite map_app. apply Forall_app. split.
      * eapply allocatedIn_mono; [exact Hin|rewrite length_allocW; lia|done].
      * apply Forall_singleton. simpl. lia.
    + eapply allocatedIn_mono; [exact Hin'|lia|done].
Qed.

Lemma processObjectFields_names metricName objectFields input w t err w' :
  processObjectFields metricName objectFields input w = ((t, err), w') ->
  allocatedAs metricName w w' ∧
  Forall (fun p => length (heap w) <= p ∧ namesOf w' !! p = Some metricName) t.
Proof.
  unfold processObjectFields. intros Hrun.
  destruct (processObjectFields_loop_names metricName objectFields input [] w)
    as (r & w1 & Hrun1 & Ha & Hin).
  rewrite Hrun1 in Hrun. injection Hrun as <- _ <-.
  split; [done|]. simpl.
  eapply Forall_impl; [exact Hin|]. intros p Hp. split; [apply Hp|].
  by apply (allocatedAs_new metricName w).
Qed.

(** Every metric the basic-field processor returns is one it allocated
    during the call, under the metric name it was given; the metrics that
    existed before keep their names. *)
Theorem processBasicFields_metric_names metricName basicFields input w t err w' :
  processBasicFields metricName basicFields input w = ((t, err), w') ->
  allocatedAs metricName w w' ∧
  Forall (fun p => length (heap w) <= p ∧ namesOf w' !! p = Some metricName) t.
Proof.
  intros Hrun.
  destruct (processBasicFields_names _ _ _ _ _ _ _ Hrun) as [Hnames Hnew].
  split; [exact Hnames|exact Hnew].
Qed.

(** Every metric the object-field processor returns is one it allocated
    during the call, under the metric name it was given: the metrics of
    array elements take the name of the metric of the row they branch from.
    The metrics that existed before keep their names. *)
Theorem processObjectFields_metric_names metricName objectFields input w t err w' :
  processObjectFields metricName objectFields input w = ((t, err), w') ->
  allocatedAs metricName w w' ∧
  Forall (fun p => length (heap w) <= p ∧ namesOf w' !! p = Some metricName) t.
Proof.
  intros Hrun.
  destruct (processObjectFields_names _ _ _ _ _ _ _ Hrun) as [Hnames Hnew].
  split; [exact Hnames|exact Hnew].
Qed.

Lemma Parse_loop_names configs input :
  forall t0 w t err w',
    Parse_loop configs input t0 w = ((t, err), w') ->
    namesOf w `prefix_of` namesOf w' ∧
    (err = None ->
     exists r, t = t0 ++ r ∧
       Forall (fun p => length (heap w) <= p ∧
                        exists config, config ∈ configs ∧
                          namesOf w' !! p = Some (Config.MetricName config)) r).
Proof.
  induction configs as [|config configs IH]; intros t0 w t err w'.
  - intros [= <- <- <-]. split; [done|]. intros _. exists []. by rewrite app_nil_r.
  - cbn [Parse_loop]. unfold bind.
    destruct (processBasicFields _ _ _ w) as [[b [e|]] w1] eqn:Hb.
    { intros [= <- <- <-]. apply processBasicFields_names in Hb as [[k Hk] _].
      split; [by eexists|done]. }
    destruct (processObjectFields _ _ _ w1) as [[o [e|]] w2] eqn:Ho.
    { intros [= <- <- <-]. apply processBasicFields_names in Hb as [[k Hk] _].
      apply processObjectFields_names in Ho as [[k' Hk'] _].
      split; [|done]. rewrite Hk', Hk, <-app_assoc. by eexists. }
    intros Hrun.
    apply processBasicFields_names in Hb as [Hab Hbs].
    apply processObjectFields_names in Ho as [Hao Hos].
    destruct (IH _ _ _ _ _ Hrun) as [Hpre Hrest].
    pose proof (allocatedAs_length _ _ _ Hab) as Hl1.
    pose proof (allocatedAs_length _ _ _ Hao) as Hl2.
    assert (namesOf w1 `prefix_of` namesOf w2) as Hp12
      by (destruct Hao as [k ->]; by eexists).
    assert (namesOf w `prefix_of` namesOf w1) as Hp01
      by (destruct Hab as [k ->]; by eexists).
    split; [by repeat (etrans; [eassumption|])|].
    intros ->. destruct (Hrest eq_refl) as (r & -> & Hr).
    exists (b ++ o ++ r). split; [by rewrite <-!app_assoc|].
    apply Forall_app. split; [|apply Forall_app; split].
    + eapply Forall_impl; [exact Hbs|]. intros p [Hlo Hn]. split; [done|].
      exists config. split; [apply list_elem_of_here|].
      eapply prefix_lookup_Some; [|exact Hpre].
      eapply prefix_lookup_Some; [exact Hn|exact Hp12].
    + eapply Forall_impl; [exact Hos|]. intros p [Hlo Hn]. split; [lia|].
      exists config. split; [apply list_elem_of_here|].
      eapply prefix_lookup_Some; [exact Hn|exact Hpre].
    + eapply Forall_impl; [exact Hr|]. intros p [Hlo (c & Hc & Hn)]. split; [lia|].
      exists c. split; [by apply list_elem_of_further|done].
Qed.

(** Every metric Parse returns was allocated by that call of Parse and
    carries the metric name of one of the configs; metrics that existed
    before are neither returned nor renamed. *)
Theorem Parse_metric_names Configs input w t err w' :
  Parse Configs input w = ((t, err), w') ->
  namesOf w `prefix_of` namesOf w' ∧
  Forall (fun p => length (heap w) <= p ∧
                   exists config, config ∈ Configs ∧
                     namesOf w' !! p = Some (Config.MetricName config)) t.
Proof.
  unfold Parse. destruct (Valid input); simpl.
  - intros Hrun. destruct (Parse_loop_names _ _ _ _ _ _ _ Hrun) as [Hpre Hrest].
    split; [done|]. destruct err as [e|].
    + destruct (Parse_loop_error _ _ _ _ _ _ _ Hrun) as [-> _]. constructor.
    + destruct (Hrest eq_refl) as (r & -> & Hr). exact Hr.
  - intros [= <- <- <-]. split; [done|constructor].
Qed.

(** ** The metrics that existed before a call *)

Lemma eachElem_keeps {S} (I : world -> Prop)
    (iterator : string -> gjson.Result -> S -> M (bool * S)) elems :
  (forall key val s w, val ∈ elems -> I w -> I (iterator key val s w).2) ->
  forall i s w, I w -> I (gjson.eachElem arrayKey iterator i elems s w).2.
Proof.
  induction elems as [|val elems IH]; intros Hstep i s w Hw; [done|].
  cbn [gjson.eachElem]. unfold bind.
  pose proof (Hstep (arrayKey i) val s w (list_elem_of_here _ _) Hw) as H1.
  destruct (iterator (arrayKey i) val s w) as [[more s1] w1]. simpl in H1.
  destruct more; [|done].
  apply IH; [|done]. intros key val' s' w' Hin. apply Hstep.
  by apply list_elem_of_further.
Qed.

Lemma eachMember_keeps {S} (I : world -> Prop)
    (iterator : string -> gjson.Result -> S -> M (bool * S)) members :
  (forall key val s w, (key, val) ∈ members -> I w -> I (iterator key val s w).2) ->
  forall s w, I w -> I (gjson.eachMember iterator members s w).2.
Proof.
  induction members as [|[key val] members IH]; intros Hstep s w Hw; [done|].
  cbn [gjson.eachMember]. unfold bind.
  pose proof (Hstep key val s w (list_elem_of_here _ _) Hw) as H1.
  destruct (iterator key val s w) as [[more s1] w1]. simpl in H1.
  destruct more; [|done].
  apply IH; [|done]. intros key' val' s' w' Hin. apply Hstep.
  by apply list_elem_of_further.
Qed.

Lemma expandArray_grows result metricName w0 w :
  grows w0 w -> length (heap w0) <= Metric result -> Metric result < length (heap w) ->
  grows w0 (expandArray result metricName w).2.
Proof.
  intros Hg Hlo Hhi.
  destruct (gjson.IsArray (Result result)) eqn:Harr.
  - destruct (expandArray_rows result metricName w Hhi Harr)
      as (rows & w' & -> & Hg' & _).
    by eapply grows_trans.
  - rewrite expandArray_not_array by done.
    destruct (gjson.IsObject _); [done|].
    destruct (gjson.Exists _); [|done].
    destruct (convertType _ _ _) as [v [e|]]; [done|].
    by apply grows_updW.
Qed.

Lemma iterator_grows result nameMap typeMap key val metrics w0 w :
  (gjson.IsObject val = true ->
   forall fn ty nm tm w1,
     grows w0 w1 -> Metric result < length (heap w1) ->
     grows w0 (combineObject {| RootFieldName := fn; DesiredType := ty;
                                Metric := Metric result; Result := val |}
                 nm tm w1).2) ->
  length (heap w0) <= Metric result ->
  grows w0 w ∧ Metric result < length (heap w) ->
  grows w0 (combineObject_iterator combineObject result nameMap typeMap key val
              metrics w).2 ∧
  Metric result
  < length (heap (combineObject_iterator combineObject result nameMap typeMap key val
                    metrics w).2).
Proof.
  intros Hval Hlo [Hg Hhi].
  assert (forall w', grows w0 w' -> grows w w' ∨ length (heap w') = length (heap w) ->
                     grows w0 w' ∧ Metric result < length (heap w')) as Hdone.
  { intros w' Hg' [Hw|Hw]; (split; [done|]); [apply grows_length in Hw|]; lia. }
  destruct (gjson.IsArray val) eqn:Harr.
  - unfold combineObject_iterator. rewrite Harr. unfold bind, metric.Name.
    set (arrayNode := {| RootFieldName := key; DesiredType := "";
                         Metric := Metric result; Result := val |}).
    destruct (expandArray_rows arrayNode
                (match heap w !! Metric result with
                 | Some c => telegraf.name c
                 | None => ""
                 end) w Hhi Harr) as (rows & w' & -> & Hg' & _).
    destruct (rowsOf _ _ _ _).2 as [e|]; simpl;
      (apply Hdone; [by eapply grows_trans|by left]).
  - destruct (gjson.IsObject val) eqn:Hobj.
    + unfold combineObject_iterator. rewrite Harr, Hobj. unfold bind.
      specialize (Hval eq_refl key "" nameMap typeMap w Hg Hhi).
      destruct (combineObject_names
                  match namesOf w !! Metric result with
                  | Some n => n
                  | None => ""
                  end val key "" (Metric result) nameMap typeMap w)
        as (ms & w' & Hrun & Ha & _).
      { destruct (namesOf w !! Metric result) eqn:Hn; [done|].
        apply lookup_ge_None in Hn. rewrite length_namesOf in Hn. lia. }
      rewrite Hrun in Hval |- *. simpl in Hval |- *. split; [done|].
      apply allocatedAs_length in Ha. lia.
    + rewrite iterator_member by done.
      destruct (memberField _ _ _ _ _) as [f|]; simpl.
      * apply Hdone; [by apply grows_updW|right; apply length_updW].
      * by apply Hdone; [|right].
Qed.

Lemma combineObject_grows json :
  forall fn ty m nameMap typeMap w0 w,
    grows w0 w -> length (heap w0) <= m -> m < length (heap w) ->
    grows w0 (combineObject {| RootFieldName := fn; DesiredType := ty;
                               Metric := m; Result := json |} nameMap typeMap w).2.
Proof.
  induction json as [| | | | |elems IH|members IH] using Result_ind';
    intros fn ty m nameMap typeMap w0 w Hg Hlo Hhi;
    rewrite combineObject_eq; unfold combineObject_body; cbn [Result gjson.ForEach];
    unfold bind at 1.
  - done.
  - unfold bind.
    pose proof (iterator_grows {| RootFieldName := fn; DesiredType := ty; Metric := m;
                                  Result := gjson.Null |} nameMap typeMap ""
                  gjson.Null [] w0 w) as H.
    destruct (combineObject_iterator _ _ _ _ _ _ _ _) as [[b ms] w1].
    apply H; done.
  - unfold bind.
    pose proof (iterator_grows {| RootFieldName := fn; DesiredType := ty; Metric := m;
                                  Result := gjson.Bool b |} nameMap typeMap ""
                  (gjson.Bool b) [] w0 w) as H.
    destruct (combineObject_iterator _ _ _ _ _ _ _ _) as [[b' ms] w1].
    apply H; done.
  - unfold bind.
    pose proof (iterator_grows {| RootFieldName := fn; DesiredType := ty; Metric := m;
                                  Result := gjson.Number n |} nameMap typeMap ""
                  (gjson.Number n) [] w0 w) as H.
    destruct (combineObject_iterator _ _ _ _ _ _ _ _) as [[b ms] w1].
    apply H; done.
  - unfold bind.
    pose proof (iterator_grows {| RootFieldName := fn; DesiredType := ty; Metric := m;
                                  Result := gjson.Str s |} nameMap typeMap ""
                  (gjson.Str s) [] w0 w) as H.
    destruct (combineObject_iterator _ _ _ _ _ _ _ _) as [[b ms] w1].
    apply H; done.
  - pose proof (eachElem_keeps
                  (fun w1 => grows w0 w1 ∧ m < length (heap w1))
                  (combineObject_iterator combineObject
                     {| RootFieldName := fn; DesiredType := ty; Metric := m;
                        Result := gjson.Array elems |} nameMap typeMap) elems) as H.
    destruct (gjson.eachElem _ _ _ _ _ _) as [ms w1] eqn:Hrun.
    specialize (H ltac:(intros key val s w2 Hin Hw2;
                        apply iterator_grows; [|done|done];
                        intros _ fn' ty' nm tm w3 Hg3 Hhi3;
                        rewrite Forall_forall in IH; by apply (IH val Hin))
                  0 [] w (conj Hg Hhi)).
    rewrite Hrun in H. apply H.
  - pose proof (eachMember_keeps
                  (fun w1 => grows w0 w1 ∧ m < length (heap w1))
                  (combineObject_iterator combineObject
                     {| RootFieldName := fn; DesiredType := ty; Metric := m;
                        Result := gjson.Object members |} nameMap typeMap) members) as H.
    destruct (gjson.eachMember _ _ _ _) as [ms w1] eqn:Hrun.
    specialize (H ltac:(intros key val s w2 Hin Hw2;
                        apply iterator_grows; [|done|done];
                        intros _ fn' ty' nm tm w3 Hg3 Hhi3;
                        rewrite Forall_forall in IH; by apply (IH (key, val) Hin))
                  [] w (conj Hg Hhi)).
    rewrite Hrun in H. apply H.
Qed.

Lemma collectBasicFields_grows metricName basicFields input :
  forall metricFields w,
    grows w (collectBasicFields metricName basicFields input metricFields w).2.
Proof.
  induction basicFields as [|field basicFields IH]; intros metricFields w.
  - apply grows_refl.
  - destruct (gjson.IsObject (GetBytes input (BasicField.Query field))) eqn:Hobj.
    { cbn [collectBasicFields]. rewrite Hobj. apply grows_refl. }
    rewrite collectBasicFields_cons by done.
    pose proof (expandArray_grows (basicFieldNode field input (length (heap w)))
                  metricName w (allocW metricName w) (grows_allocW _ _)) as Hg.
    destruct (expandArray _ _ _) as [[nodes [e|]] w2]; cbn [snd] in Hg.
    + apply Hg; [simpl; lia|rewrite length_allocW; simpl; lia].
    + eapply grows_trans; [|apply IH].
      apply Hg; [simpl; lia|rewrite length_allocW; simpl; lia].
Qed.

Lemma forRange_grows {A} w0 (P : A -> Prop) (l : list A) (body : A -> M unit) :
  (forall x w, P x -> grows w0 w -> grows w0 (body x w).2) ->
  Forall P l ->
  forall w, grows w0 w -> grows w0 (forRange l body w).2.
Proof.
  intros Hbody. induction 1 as [|x l Hx _ IH]; intros w Hg; [done|].
  cbn [forRange]. unfold bind.
  pose proof (Hbody x w Hx Hg) as H1. destruct (body x w) as [[] w1].
  by apply IH.
Qed.

Lemma mergeMetricFields_grows metricFields w0 w :
  Forall (Forall (fun c => length (heap w0) <= c)) metricFields ->
  grows w0 w ->
  grows w0 (mergeMetricFields metricFields w).2.
Proof.
  intros Hgs Hg. unfold mergeMetricFields.
  assert (forall i, Forall (fun c => length (heap w0) <= c) (nth i metricFields []))
    as Hnth.
  { intros i. destruct (nth_in_or_default i metricFields []) as [Hin|Hd];
      [|rewrite Hd; constructor].
    rewrite Forall_forall in Hgs. apply Hgs. by apply list_elem_of_In. }
  apply (forRange_grows w0 (fun _ => True)); [|by apply Forall_forall|done].
  intros i w1 _ Hg1.
  apply (forRange_grows w0 (fun _ => True)); [|by apply Forall_forall|done].
  intros p w2 _ Hg2.
  apply (forRange_grows w0 (fun c => length (heap w0) <= c)); [|apply Hnth|done].
  intros c w3 Hc Hg3. rewrite copyFields_run. by apply grows_updW.
Qed.

Lemma processBasicFields_grows metricName basicFields input w :
  grows w (processBasicFields metricName basicFields input w).2.
Proof.
  pose proof (collectBasicFields_grows metricName basicFields input [] w) as Hg.
  destruct (collectBasicFields metricName basicFields input [] w)
    as [[groups [e|]] w1] eqn:Hcollect; simpl in Hg.
  - unfold processBasicFields, bind. by rewrite Hcollect.
  - destruct (processBasicFields_last _ _ _ _ _ _ Hcollect) as (w2 & -> & _ & ->).
    simpl. destruct (1 <? length groups); [|done].
    apply mergeMetricFields_grows; [|done].
    destruct (collectBasicFields_range _ _ _ _ _ _ _ Hcollect) as (new & -> & Hnew).
    simpl. apply Forall_forall. intros g Hg'.
    apply list_elem_of_In in Hg'.
    apply (Permutation_in _ (sort_Slice_perm lessLen _)) in Hg'.
    apply list_elem_of_In in Hg'.
    rewrite Forall_forall in Hnew. specialize (Hnew g Hg').
    eapply Forall_impl; [exact Hnew|]. by intros c [? _].
Qed.

Lemma processObjectFields_loop_grows metricName objectFields input :
  forall t w, grows w (processObjectFields_loop metricName objectFields input t w).2.
Proof.
  induction objectFields as [|field objectFields IH]; intros t w; [apply grows_refl|].
  cbn [processObjectFields_loop]. rewrite alloc_run. unfold bind.
  pose proof (combineObject_grows (GetBytes input (ObjectField.Query field))
                (lastString (strings.Split (ObjectField.Query field) ".")) ""
                (length (heap w)) (ObjectField.NameMap field)
                (ObjectField.TypeMap field) w (allocW metricName w)
                (grows_allocW _ _) (le_n _)) as Hg.
  destruct (combineObject _ _ _ _) as [[metrics [e|]] w1]; cbn [snd] in Hg.
  - apply Hg. rewrite length_allocW. lia.
  - eapply grows_trans; [|apply IH]. apply Hg. rewrite length_allocW. lia.
Qed.

Lemma Parse_loop_grows configs input :
  forall t w, grows w (Parse_loop configs input t w).2.
Proof.
  induction configs as [|config configs IH]; intros t w; [apply grows_refl|].
  cbn [Parse_loop]. unfold bind.
  pose proof (processBasicFields_grows (Config.MetricName config)
                (Config.BasicFields config) input w) as Hb.
  destruct (processBasicFields _ _ _ w) as [[b [e|]] w1]; simpl in Hb; [done|].
  pose proof (processObjectFields_loop_grows (Config.MetricName config)
                (Config.ObjectFields config) input [] w1) as Ho.
  fold (processObjectFields (Config.MetricName config) (Config.ObjectFields config)
          input) in Ho.
  destruct (processObjectFields _ _ _ w1) as [[o [e|]] w2]; simpl in Ho.
  - by eapply grows_trans.
  - eapply grows_trans; [exact Hb|]. eapply grows_trans; [exact Ho|]. apply IH.
Qed.

(** The basic-field processor writes only to metrics it allocated: every
    metric that existed before the call is afterwards as it was, whether the
    call fails or not. *)
Theorem processBasicFields_keeps_heap metricName basicFields input w t err w' :
  processBasicFields metricName basicFields input w = ((t, err), w') ->
  forall q, q < length (heap w) -> heap w' !! q = heap w !! q.
Proof.
  intros Hrun q Hq.
  pose proof (processBasicFields_grows metricName basicFields input w) as Hg.
  rewrite Hrun in Hg. by apply grows_lookup.
Qed.

(** The object-field processor writes only to metrics it allocated: every
    metric that existed before the call is afterwards as it was. *)
Theorem processObjectFields_keeps_heap metricName objectFields input w t err w' :
  processObjectFields metricName objectFields input w = ((t, err), w') ->
  forall q, q < length (heap w) -> heap w' !! q = heap w !! q.
Proof.
  intros Hrun q Hq.
  pose proof (processObjectFields_loop_grows metricName objectFields input [] w) as Hg.
  fold (processObjectFields metricName objectFields input) in Hg.
  rewrite Hrun in Hg. by apply grows_lookup.
Qed.

(** What Parse returned for the first configs of a list is not touched by
    the configs after them: when the first part alone returns the metrics
    [t1], each of them is, after the whole list is parsed, as the first part
    left it. *)
Theorem Parse_keeps_earlier_metrics Configs1 Configs2 input w t1 w1 t err w' :
  Parse Configs1 input w = ((t1, None), w1) ->
  Parse (Configs1 ++ Configs2) input w = ((t, err), w') ->
  Forall (fun p => p < length (heap w1) ∧ heap w' !! p = heap w1 !! p) t1.
Proof.
  unfold Parse. destruct (Valid input); [|done]. simpl. intros Hrun1 Hrun.
  rewrite Parse_loop_app, Hrun1 in Hrun.
  pose proof (Parse_loop_grows Configs2 input t1 w1) as Hg.
  rewrite Hrun in Hg. simpl in Hg.
  destruct (Parse_loop_names _ _ _ _ _ _ _ Hrun1) as [_ Hnames].
  destruct (Hnames eq_refl) as (r & Hr & Hall). simpl in Hr. subst r.
  eapply Forall_impl; [exact Hall|]. intros p [_ (c & _ & Hn)].
  apply lookup_lt_Some in Hn. rewrite length_namesOf in Hn.
  split; [done|]. by apply grows_lookup.
Qed.

End Parser.

(** ** The concrete setting meets what the theorems ask of the sort *)

Lemma Example_sort_Slice_perm (less : list nat -> list nat -> bool) l :
  Example.sort_Slice less l ≡ₚ l.
Proof. apply merge_sort_Permutation. Qed.

Lemma Example_sort_Slice_sorted l :
  StronglySorted (fun a b => lessLen b a = false) (Example.sort_Slice lessLen l).
Proof.
  apply StronglySorted_merge_sort.
  - intros a b c Hab Hbc. unfold lessLen in *.
    apply Nat.ltb_ge in Hab, Hbc. apply Nat.ltb_ge. lia.
  - intros a b. unfold lessLen.
    destruct (Nat.ltb_spec (length b) (length a)) as [Hlt|Hge]; [|by left].
    right. apply Nat.ltb_ge. lia.
Qed.

(** ** The theorems on the concrete setting *)

Local Open Scope nat_scope.

(** [C7_convert_examples] on -1234.5 to int and on 2.0 to bool. *)
Lemma C7_convert_examples_witness :
  convertType Example.int64_unrepresentable Example.ParseFloat Example.Sprint
    (Float64 (-1234.5)) "int" "f" = (Int64 (-1234), None)
  ∧ convertType Example.int64_unrepresentable Example.ParseFloat Example.Sprint
      (Float64 2) "bool" "f" = (Nil, Some (ErrUnableToConvert "f" "bool" None)).
Proof.
  destruct (C7_convert_examples Example.int64_unrepresentable Example.ParseFloat
              Example.Sprint "f")
    as (_ & _ & _ & _ & _ & Hbool & _ & _ & _ & _ & _ & Hint).
  split.
  - apply (Hint (-1234.5)%float true 5429388417957888%positive (-42)%Z).
    + vm_compute. reflexivity.
    + vm_compute. split; [intros H; discriminate H|reflexivity].
  - apply (Hbool 2%float); reflexivity.
Defined.

(** 3.0 to bool is a conversion error, not true. *)
Lemma C7_bool_of_3_counterexample :
  convertType Example.int64_unrepresentable Example.ParseFloat Example.Sprint
    (Float64 3) "bool" "f" = (Nil, Some (ErrUnableToConvert "f" "bool" None))
  ∧ convertType Example.int64_unrepresentable Example.ParseFloat Example.Sprint
      (Float64 3) "bool" "f" ≠ (GoBool true, None).
Proof. split; [reflexivity|discriminate]. Qed.

(** With an empty declared type the value of a JSON null is refused, not
    returned unchanged. *)
Lemma C4_null_counterexample :
  gjson.Value gjson.Null = Nil
  ∧ convertType Example.int64_unrepresentable Example.ParseFloat Example.Sprint
      Nil "" "f" = (Nil, Some (ErrUnknownFormat "f"))
  ∧ ¬ (forall input,
         convertType Example.int64_unrepresentable Example.ParseFloat
           Example.Sprint input "" "f" = (input, None)).
Proof.
  split; [reflexivity|]. split; [reflexivity|].
  intros H. specialize (H Nil). discriminate H.
Qed.

(** [C1_partial_rows] on [1,"x",3] declared int: the second element does
    not convert, and the row of the first comes back with a nil error. *)
Lemma C1_partial_rows_witness :
  ∃ rows w',
    expandArray Example.TimeFunc Example.arrayKey Example.int64_unrepresentable
      Example.ParseFloat Example.Sprint
      (Example.node "f" "int" 0
         (gjson.Array ([gjson.Number 1] ++ gjson.Str "x" :: [gjson.Number 3])))
      "m" Example.w1 = (rows, None, w')
    ∧ length rows = 1
    ∧ map (fun r => fieldsAt w' (Metric r)) rows =
      [[{| telegraf.Key := "f"; telegraf.Value := Int64 1 |}]].
Proof.
  refine (proj2 (C1_partial_rows Example.TimeFunc Example.arrayKey
                   Example.int64_unrepresentable Example.ParseFloat Example.Sprint
                   (Example.node "f" "int" 0 _) "m" Example.w1
                   [gjson.Number 1] (gjson.Str "x") [gjson.Number 3] [Int64 1]
                   _ _ _ _) _ _).
  - simpl. lia.
  - reflexivity.
  - repeat constructor.
  - reflexivity.
  - reflexivity.
  - discriminate.
Defined.

(** The failing input of C1 run: the second element of [1,"x",3] does not
    convert to int, and expandArray returns the row of the first element
    with a nil error; in [[1],[{}]] the nested expansion of [{}] fails and
    the row of [1] comes back with a nil error. *)
Lemma expandArray_partial_rows_run :
  (expandArray Example.TimeFunc Example.arrayKey Example.int64_unrepresentable
     Example.ParseFloat Example.Sprint
     (Example.node "mixed" "int" 0 (Example.GetBytes "" "mixed")) "m" Example.w1).1
  = ([Example.node "mixed" "" 1 (gjson.Number 1)], None)
  ∧ (expandArray Example.TimeFunc Example.arrayKey Example.int64_unrepresentable
       Example.ParseFloat Example.Sprint
       (Example.node "deep" "" 0 (Example.GetBytes "" "deep")) "m" Example.w1).1
    = ([Example.node "deep" "" 2 (gjson.Number 1)], None).
Proof. split; vm_compute; reflexivity. Qed.

(** [C10_accumulated_overwrites] on [10,20] under the field name items, on
    a metric that already holds items = "old": both rows keep "old". *)
Lemma C10_accumulated_overwrites_witness :
  ∃ rows w',
    expandArray Example.TimeFunc Example.arrayKey Example.int64_unrepresentable
      Example.ParseFloat Example.Sprint
      (Example.node "items" "" 0 (gjson.Array [gjson.Number 10; gjson.Number 20]))
      "m" Example.w2 = (rows, None, w')
    ∧ map (fun r => fieldsAt w' (Metric r)) rows =
      [[{| telegraf.Key := "items"; telegraf.Value := GoString "old" |}];
       [{| telegraf.Key := "items"; telegraf.Value := GoString "old" |}]]
    ∧ Forall (fun r => getField (fieldsAt w' (Metric r)) "items"
                       = Some (GoString "old")) rows.
Proof.
  destruct (C10_accumulated_overwrites Example.TimeFunc Example.arrayKey
              Example.int64_unrepresentable Example.ParseFloat Example.Sprint
              (Example.node "items" "" 0
                 (gjson.Array [gjson.Number 10; gjson.Number 20]))
              "m" Example.w2 [gjson.Number 10; gjson.Number 20]
              [Float64 10; Float64 20])
    as (rows & w' & Hrun & Hmap & Hall).
  - simpl. lia.
  - reflexivity.
  - repeat constructor.
  - repeat constructor. vm_compute. by intros ?%elem_of_nil.
  - exists rows, w'. split; [exact Hrun|]. split; [exact Hmap|].
    eapply Forall_impl; [apply Hall; vm_compute; left|].
    intros r [_ Hget]. exact Hget.
Defined.

(** The failing input of C2 run: the child a of {"a":"x"} is declared int
    and does not convert; combineObject returns the root row with a nil
    error, and processObjectFields emits the root metric, without a field. *)
Lemma processObjectFields_swallows_run :
  ∃ w',
    processObjectFields Example.TimeFunc Example.arrayKey
      Example.int64_unrepresentable Example.ParseFloat Example.Sprint
      Example.GetBytes "m" [Example.object "bad" {[ "a" := "int" ]}] "" Example.w0
    = ([0], None, w')
    ∧ fieldsAt w' 0 = [].
Proof. eexists. split; vm_compute; reflexivity. Qed.

(** [C9_missing_object_query] on a query that is not in the document. *)
Lemma C9_missing_object_query_witness :
  processObjectFields Example.TimeFunc Example.arrayKey
    Example.int64_unrepresentable Example.ParseFloat Example.Sprint
    Example.GetBytes "m" [Example.object "none" ∅] "" Example.w0
  = ([0], None, allocW Example.TimeFunc "m" Example.w0)
  ∧ fieldsAt (allocW Example.TimeFunc "m" Example.w0) 0 = []
  ∧ collectBasicFields Example.TimeFunc Example.arrayKey
      Example.int64_unrepresentable Example.ParseFloat Example.Sprint
      Example.GetBytes "m" [Example.basic "none" ""] "" [] Example.w0
    = ([[]], None, allocW Example.TimeFunc "m" Example.w0).
Proof.
  destruct (C9_missing_object_query Example.TimeFunc Example.arrayKey
              Example.int64_unrepresentable Example.ParseFloat Example.Sprint
              Example.GetBytes "m" (Example.object "none" ∅) "" Example.w0)
    as (Hrun & Hempty & _ & Hbasic).
  - reflexivity.
  - split; [exact Hrun|]. split; [exact Hempty|].
    apply (Hbasic (Example.basic "none" "")). reflexivity.
Defined.

(** [C8_object_result] on three rules, the second of which selects an
    object. *)
Lemma C8_object_result_witness :
  ∃ w',
    processBasicFields Example.TimeFunc Example.arrayKey
      Example.int64_unrepresentable Example.ParseFloat Example.Sprint
      Example.GetBytes Example.sort_Slice "m"
      ([Example.basic "a" ""] ++ Example.basic "obj" "" :: [Example.basic "b" ""])
      "" Example.w0
    = ([], Some ErrUseObjectField, w').
Proof.
  eexists.
  rewrite (C8_object_result Example.TimeFunc Example.arrayKey
             Example.int64_unrepresentable Example.ParseFloat Example.Sprint
             Example.GetBytes Example.sort_Slice "m"
             [Example.basic "a" ""] (Example.basic "obj" "") [Example.basic "b" ""]
             "" Example.w0) by reflexivity.
  reflexivity.
Defined.

(** [C5_array_rows] on the flat array [10,20,30] and on the 2 by 3 grid
    [[1,2,3],[4,5,6]]. *)
Lemma C5_array_rows_witness :
  (∃ t w',
     processBasicFields Example.TimeFunc Example.arrayKey
       Example.int64_unrepresentable Example.ParseFloat Example.Sprint
       Example.GetBytes Example.sort_Slice "m" [Example.basic "b" ""] ""
       Example.w0 = (t, None, w')
     ∧ length t = 3
     ∧ map (fieldsAt w') t =
       [[{| telegraf.Key := "b"; telegraf.Value := Float64 10 |}];
        [{| telegraf.Key := "b"; telegraf.Value := Float64 20 |}];
        [{| telegraf.Key := "b"; telegraf.Value := Float64 30 |}]])
  ∧ (∃ rows w',
       expandArray Example.TimeFunc Example.arrayKey
         Example.int64_unrepresentable Example.ParseFloat Example.Sprint
         (Example.node "grid" "" 0 (Example.GetBytes "" "grid")) "m" Example.w1
       = (rows, None, w')
       ∧ length rows = 6
       ∧ map (fun r => fieldsAt w' (Metric r)) rows =
         map (fun f => [{| telegraf.Key := "grid"; telegraf.Value := Float64 f |}])
           [1; 2; 3; 4; 5; 6]%float).
Proof.
  destruct (C5_array_rows Example.TimeFunc Example.arrayKey
              Example.int64_unrepresentable Example.ParseFloat Example.Sprint
              Example.GetBytes Example.sort_Slice Example_sort_Slice_perm)
    as [Hflat Hnested].
  split.
  - apply (Hflat "m" (Example.basic "b" "") "" Example.w0
             [gjson.Number 10; gjson.Number 20; gjson.Number 30]
             [Float64 10; Float64 20; Float64 30]).
    + reflexivity.
    + repeat constructor.
  - apply (Hnested (Example.node "grid" "" 0 (Example.GetBytes "" "grid")) "m"
             Example.w1 [2; 3]).
    + simpl. lia.
    + discriminate.
    + vm_compute. repeat constructor.
    + by left.
    + vm_compute. constructor.
    + vm_compute. by intros ?%elem_of_nil.
Defined.

(** A flat array of two strings of which the second does not convert to
    the declared int gives one metric, and the flat array [null] gives none. *)
Lemma C5_flat_array_counterexample :
  Example.GetBytes "" "strs" = gjson.Array [gjson.Str "7"; gjson.Str "x"]
  ∧ (processBasicFields Example.TimeFunc Example.arrayKey
       Example.int64_unrepresentable Example.ParseFloat Example.Sprint
       Example.GetBytes Example.sort_Slice "m" [Example.basic "strs" "int"] ""
       Example.w0).1 = ([1], None)
  ∧ Example.GetBytes "" "nulls" = gjson.Array [gjson.Null]
  ∧ (processBasicFields Example.TimeFunc Example.arrayKey
       Example.int64_unrepresentable Example.ParseFloat Example.Sprint
       Example.GetBytes Example.sort_Slice "m" [Example.basic "nulls" ""] ""
       Example.w0).1 = ([], None).
Proof. repeat split; vm_compute; reflexivity. Qed.

(** [C6_object_with_array] on the document's member obj. *)
Lemma C6_object_with_array_witness :
  ∃ p1 p2 w',
    processObjectFields Example.TimeFunc Example.arrayKey
      Example.int64_unrepresentable Example.ParseFloat Example.Sprint
      Example.GetBytes "m" [Example.object "obj" ∅] "" Example.w0
    = ([p1; p2; 0], None, w')
    ∧ fieldsAt w' p1 = [{| telegraf.Key := "a"; telegraf.Value := Float64 1 |};
                        {| telegraf.Key := "items"; telegraf.Value := Float64 10 |}]
    ∧ fieldsAt w' p2 = [{| telegraf.Key := "a"; telegraf.Value := Float64 1 |};
                        {| telegraf.Key := "items"; telegraf.Value := Float64 20 |}]
    ∧ fieldsAt w' 0 = [{| telegraf.Key := "a"; telegraf.Value := Float64 1 |}]
    ∧ NoDup [p1; p2; 0].
Proof.
  apply (C6_object_with_array Example.TimeFunc Example.arrayKey
           Example.int64_unrepresentable Example.ParseFloat Example.Sprint
           Example.GetBytes "m" (Example.object "obj" ∅) "" Example.w0);
    reflexivity.
Defined.


(** [convertType_unrecognised_type] on the declared type uint. *)
Lemma convertType_unrecognised_type_witness :
  convertType Example.int64_unrepresentable Example.ParseFloat Example.Sprint (GoString "5") "uint" "f"
  = convertType Example.int64_unrepresentable Example.ParseFloat Example.Sprint (GoString "5") "" "f".
Proof.
  apply (convertType_unrecognised_type Example.int64_unrepresentable Example.ParseFloat Example.Sprint (GoString "5") "uint" "f");
    discriminate.
Defined.

(** [convertType_kind] on "42" declared int. *)
Lemma convertType_kind_witness :
  hasKind "int" (Int 42) = true ∨
  ("int" = "float" ∧ Int 42 = GoString "42" ∧ exists b, GoString "42" = GoBool b).
Proof.
  apply (convertType_kind Example.int64_unrepresentable Example.ParseFloat Example.Sprint (GoString "42") "int" "f" (Int 42));
    [reflexivity|right; by left].
Defined.

(** [expandArray_scalar_in_place] on the string "42" declared int, on a
    heap of one metric. *)
Lemma expandArray_scalar_in_place_witness :
  exists w',
    expandArray Example.TimeFunc Example.arrayKey Example.int64_unrepresentable
      Example.ParseFloat Example.Sprint
      (Example.node "s" "int" 0 (gjson.Str "42")) "m" Example.w1
    = (([Example.node "s" "int" 0 (gjson.Str "42")], None), w') ∧
    length (heap w') = 1 ∧
    fieldsAt w' 0 = [{| telegraf.Key := "s"; telegraf.Value := Int 42 |}].
Proof.
  destruct (expandArray_scalar_in_place Example.TimeFunc Example.arrayKey Example.int64_unrepresentable
      Example.ParseFloat Example.Sprint
              (Example.node "s" "int" 0 (gjson.Str "42")) "m" Example.w1 (Int 42))
    as (w' & Hrun & Hlen & _ & Hfields & _); [simpl; lia|done..|].
  exists w'. split; [exact Hrun|]. split; [exact Hlen|exact Hfields].
Defined.

(** [expandArray_array_fresh] on [1,"x",3] declared int. *)
Lemma expandArray_array_fresh_witness :
  exists rows err w',
    expandArray Example.TimeFunc Example.arrayKey Example.int64_unrepresentable
      Example.ParseFloat Example.Sprint
      (Example.node "mixed" "int" 0 (Example.GetBytes "" "mixed")) "m" Example.w1
    = ((rows, err), w') ∧
    grows Example.w1 w' ∧ NoDup (List.map Metric rows) ∧
    Forall (fun r => "mixed" ∈ keysOf (fieldsAt w' (Metric r))) rows.
Proof.
  edestruct (expandArray_array_fresh Example.TimeFunc Example.arrayKey Example.int64_unrepresentable
      Example.ParseFloat Example.Sprint
               (Example.node "mixed" "int" 0 (Example.GetBytes "" "mixed")) "m"
               Example.w1) as (Hg & _ & Hnd & Hrows & _);
    [simpl; lia|reflexivity|vm_compute; reflexivity|].
  eexists _, _, _. split; [vm_compute; reflexivity|].
  split; [exact Hg|]. split; [exact Hnd|].
  eapply Forall_impl; [exact Hrows|]. by intros r (_ & _ & Hkey).
Defined.

(** [expandArray_rows_le_leaves] on the 2 by 3 grid. *)
Lemma expandArray_rows_le_leaves_witness :
  exists rows err w',
    expandArray Example.TimeFunc Example.arrayKey Example.int64_unrepresentable
      Example.ParseFloat Example.Sprint
      (Example.node "grid" "" 0 (Example.GetBytes "" "grid")) "m" Example.w1
    = ((rows, err), w') ∧
    length rows <= 6.
Proof.
  eexists _, _, _. split; [vm_compute; reflexivity|].
  eapply (expandArray_rows_le_leaves Example.TimeFunc Example.arrayKey Example.int64_unrepresentable
      Example.ParseFloat Example.Sprint
            (Example.node "grid" "" 0 (Example.GetBytes "" "grid")) "m"
            Example.w1); [simpl; lia|vm_compute; reflexivity].
Defined.

(** [processBasicFields_longest_group] on the rules a, of [1,2], and b,
    of [10,20,30]. *)
Lemma processBasicFields_longest_group_witness :
  exists t w',
    processBasicFields Example.TimeFunc Example.arrayKey Example.int64_unrepresentable
      Example.ParseFloat Example.Sprint
      Example.GetBytes Example.sort_Slice "m"
      [Example.basic "a" ""; Example.basic "b" ""] "" Example.w0
    = ((t, None), w') ∧
    t ∈ [[1; 2]; [4; 5; 6]] ∧ 3 <= length t ∧ length (heap w') = 7.
Proof.
  edestruct (processBasicFields_longest_group Example.TimeFunc Example.arrayKey Example.int64_unrepresentable
      Example.ParseFloat Example.Sprint
               Example.GetBytes Example.sort_Slice
               Example_sort_Slice_perm Example_sort_Slice_sorted
               "m" [Example.basic "a" ""; Example.basic "b" ""] "" Example.w0)
    as (t & w' & Hrun & _ & Hlong & Hin & _ & Hheap);
    [vm_compute; reflexivity|].
  exists t, w'. split; [exact Hrun|]. split; [by apply Hin|].
  split; [|exact Hheap].
  apply (Hlong [4; 5; 6]). apply list_elem_of_further, list_elem_of_here.
Defined.

(** [processBasicFields_all_missing] on two rules whose queries are not
    in the document. *)
Lemma processBasicFields_all_missing_witness :
  exists w',
    processBasicFields Example.TimeFunc Example.arrayKey Example.int64_unrepresentable
      Example.ParseFloat Example.Sprint
      Example.GetBytes Example.sort_Slice "m"
      [Example.basic "none" ""; Example.basic "x.y" "int"] "" Example.w1
    = (([], None), w') ∧
    length (heap w') = 3.
Proof.
  apply (processBasicFields_all_missing Example.TimeFunc Example.arrayKey Example.int64_unrepresentable
      Example.ParseFloat Example.Sprint
           Example.GetBytes Example.sort_Slice Example_sort_Slice_perm
           "m" [Example.basic "none" ""; Example.basic "x.y" "int"] "" Example.w1).
  repeat constructor.
Defined.

(** [processBasicFields_scalar] on the string "42" declared int. *)
Lemma processBasicFields_scalar_witness :
  exists w',
    processBasicFields Example.TimeFunc Example.arrayKey Example.int64_unrepresentable
      Example.ParseFloat Example.Sprint
      Example.GetProfile Example.sort_Slice "m" [Example.basic "s" "int"] ""
      Example.w1
    = (([1], None), w') ∧
    length (heap w') = 2 ∧
    fieldsAt w' 1 = [{| telegraf.Key := "s"; telegraf.Value := Int 42 |}] ∧
    fieldsAt w' 0 = [].
Proof.
  destruct (processBasicFields_scalar Example.TimeFunc Example.arrayKey Example.int64_unrepresentable
      Example.ParseFloat Example.Sprint
              Example.GetProfile Example.sort_Slice Example_sort_Slice_perm
              "m" (Example.basic "s" "int") "" Example.w1 (Int 42))
    as (w' & Hrun & Hlen & Hfields & Hold); [reflexivity|reflexivity|].
  exists w'. split; [exact Hrun|]. split; [exact Hlen|]. split; [exact Hfields|].
  apply (Hold 0). simpl. lia.
Defined.

(** [processBasicFields_scalar_error] on a rule that selects null,
    followed by a rule that would succeed. *)
Lemma processBasicFields_scalar_error_witness :
  processBasicFields Example.TimeFunc Example.arrayKey Example.int64_unrepresentable
      Example.ParseFloat Example.Sprint
    Example.GetProfile Example.sort_Slice "m"
    [Example.basic "nothing" ""; Example.basic "n" ""] "" Example.w0
  = (([], Some (ErrUnknownFormat "nothing")), allocW Example.TimeFunc "m" Example.w0).
Proof.
  apply (processBasicFields_scalar_error Example.TimeFunc Example.arrayKey Example.int64_unrepresentable
      Example.ParseFloat Example.Sprint
           Example.GetProfile Example.sort_Slice "m" (Example.basic "nothing" "")
           [Example.basic "n" ""] "" Example.w0 (ErrUnknownFormat "nothing"));
    reflexivity.
Defined.

(** [processBasicFields_two_scalars] on the number 7 and the string "42"
    declared int. *)
Lemma processBasicFields_two_scalars_witness :
  exists p w',
    processBasicFields Example.TimeFunc Example.arrayKey Example.int64_unrepresentable
      Example.ParseFloat Example.Sprint
      Example.GetProfile Example.sort_Slice "m"
      [Example.basic "n" ""; Example.basic "s" "int"] "" Example.w0
    = (([p], None), w') ∧
    getField (fieldsAt w' p) "n" = Some (Float64 7) ∧
    getField (fieldsAt w' p) "s" = Some (Int 42) ∧
    length (fieldsAt w' p) = 2.
Proof.
  destruct (processBasicFields_two_scalars Example.TimeFunc Example.arrayKey Example.int64_unrepresentable
      Example.ParseFloat Example.Sprint
              Example.GetProfile Example.sort_Slice Example_sort_Slice_perm
              "m" (Example.basic "n" "") (Example.basic "s" "int") "" Example.w0
              (Float64 7) (Int 42))
    as (p & w' & Hrun & _ & _ & Hn & Hs & Hlen);
    [reflexivity|reflexivity|reflexivity|reflexivity|discriminate|].
  exists p, w'. split; [exact Hrun|]. split; [exact Hn|]. split; [exact Hs|exact Hlen].
Defined.

(** [basicFieldName_last_segment] on the query a.b.c of a rule without a
    name. *)
Lemma basicFieldName_last_segment_witness :
  basicFieldName (Example.basic "a.b.c" "") = "c".
Proof.
  apply (basicFieldName_last_segment (Example.basic "a.b.c" "") "a.b" "c");
    [reflexivity|by right].
Defined.

(** [combineObject_array_free] on the host object of the profile, two
    levels deep. *)
Lemma combineObject_array_free_witness :
  exists w',
    combineObject Example.TimeFunc Example.arrayKey Example.int64_unrepresentable
      Example.ParseFloat Example.Sprint
      (Example.node "host" "" 0 (Example.GetProfile "" "host"))
      {[ "up time" := "uptime seconds" ]} {[ "up time" := "int" ]} Example.w1
    = (([Example.node "host" "" 0 (Example.GetProfile "" "host")], None), w') ∧
    length (heap w') = 1 ∧
    fieldsAt w' 0
    = [{| telegraf.Key := "name"; telegraf.Value := GoString "a b" |};
       {| telegraf.Key := "uptimeseconds"; telegraf.Value := Int64 3 |};
       {| telegraf.Key := "kernel"; telegraf.Value := GoString "6.1" |}].
Proof.
  destruct (combineObject_array_free Example.TimeFunc Example.arrayKey Example.int64_unrepresentable
      Example.ParseFloat Example.Sprint
              (Example.node "host" "" 0 (Example.GetProfile "" "host"))
              {[ "up time" := "uptime seconds" ]} {[ "up time" := "int" ]} Example.w1)
    as (w' & Hrun & Hlen & _ & Hfields & _); [reflexivity|simpl; lia|].
  exists w'. split; [exact Hrun|]. split; [exact Hlen|].
  etrans; [exact Hfields|vm_compute; reflexivity].
Defined.




(** [processObjectFields_scalar] on a rule whose query selects the
    number 7. *)
Lemma processObjectFields_scalar_witness :
  exists w',
    processObjectFields Example.TimeFunc Example.arrayKey Example.int64_unrepresentable
      Example.ParseFloat Example.Sprint
      Example.GetProfile "m" [Example.object "n" ∅] "" Example.w0
    = (([0], None), w') ∧
    length (heap w') = 1 ∧
    fieldsAt w' 0 = [{| telegraf.Key := "n"; telegraf.Value := Float64 7 |}].
Proof.
  destruct (processObjectFields_scalar Example.TimeFunc Example.arrayKey Example.int64_unrepresentable
      Example.ParseFloat Example.Sprint
              Example.GetProfile "m" (Example.object "n" ∅) "" Example.w0)
    as (w' & Hrun & Hlen & Hfields); [reflexivity..|].
  exists w'. split; [exact Hrun|]. split; [exact Hlen|exact Hfields].
Defined.

(** [combineObject_keys_no_space] on an object whose keys have spaces,
    one of them renamed to a name with a space. *)
Lemma combineObject_keys_no_space_witness :
  exists w',
    combineObject Example.TimeFunc Example.arrayKey Example.int64_unrepresentable
      Example.ParseFloat Example.Sprint
      (Example.node "host" "" 0
         (gjson.Object [("name", gjson.Str "a b"); ("up time", gjson.Number 3)]))
      {[ "name" := "host name" ]} ∅ Example.w1
    = (([Example.node "host" "" 0
           (gjson.Object [("name", gjson.Str "a b"); ("up time", gjson.Number 3)])],
        None), w') ∧
    Forall (fun k => contains " " k = false) (keysOf (fieldsAt w' 0)).
Proof.
  destruct (combineObject_keys_no_space Example.TimeFunc Example.arrayKey Example.int64_unrepresentable
      Example.ParseFloat Example.Sprint
              (Example.node "host" "" 0
                 (gjson.Object [("name", gjson.Str "a b"); ("up time", gjson.Number 3)]))
              {[ "name" := "host name" ]} ∅ Example.w1
              [("name", gjson.Str "a b"); ("up time", gjson.Number 3)]
              [GoString "a b"; Float64 3])
    as (w' & Hrun & _ & Hkeys); [simpl; lia|reflexivity| | | |].
  { repeat constructor. }
  { repeat constructor; discriminate. }
  { constructor. }
  exists w'. split; [exact Hrun|exact Hkeys].
Defined.

(** [processBasicFields_keeps_heap] on the rules a and b, on a heap whose
    metric holds a field. *)
Lemma processBasicFields_keeps_heap_witness :
  exists t err w',
    processBasicFields Example.TimeFunc Example.arrayKey Example.int64_unrepresentable
      Example.ParseFloat Example.Sprint
      Example.GetBytes Example.sort_Slice "m"
      [Example.basic "a" ""; Example.basic "b" ""] "" Example.w2
    = ((t, err), w') ∧
    heap w' !! 0 = heap Example.w2 !! 0.
Proof.
  eexists _, _, _. split; [vm_compute; reflexivity|].
  eapply (processBasicFields_keeps_heap Example.TimeFunc Example.arrayKey Example.int64_unrepresentable
      Example.ParseFloat Example.Sprint
            Example.GetBytes Example.sort_Slice Example_sort_Slice_perm "m"
            [Example.basic "a" ""; Example.basic "b" ""] "" Example.w2);
    [vm_compute; reflexivity|simpl; lia].
Defined.

(** [processObjectFields_keeps_heap] on the object with an array child,
    on a heap whose metric holds the field items. *)
Lemma processObjectFields_keeps_heap_witness :
  exists t err w',
    processObjectFields Example.TimeFunc Example.arrayKey Example.int64_unrepresentable
      Example.ParseFloat Example.Sprint
      Example.GetBytes "m" [Example.object "obj" ∅] "" Example.w2
    = ((t, err), w') ∧
    heap w' !! 0 = heap Example.w2 !! 0.
Proof.
  eexists _, _, _. split; [vm_compute; reflexivity|].
  eapply (processObjectFields_keeps_heap Example.TimeFunc Example.arrayKey Example.int64_unrepresentable
      Example.ParseFloat Example.Sprint
            Example.GetBytes "m" [Example.object "obj" ∅] "" Example.w2);
    [vm_compute; reflexivity|simpl; lia].
Defined.

(** [Parse_keeps_earlier_metrics] on a config of basic-field rules
    followed by a config of object-field rules. *)
Lemma Parse_keeps_earlier_metrics_witness :
  exists w1 t err w',
    Parse Example.TimeFunc Example.arrayKey Example.int64_unrepresentable
      Example.ParseFloat Example.Sprint
      Example.Valid Example.GetBytes Example.sort_Slice
      [Example.config "m" [Example.basic "a" ""] []] "" Example.w0
    = (([1; 2], None), w1) ∧
    Parse Example.TimeFunc Example.arrayKey Example.int64_unrepresentable
      Example.ParseFloat Example.Sprint
      Example.Valid Example.GetBytes Example.sort_Slice
      ([Example.config "m" [Example.basic "a" ""] []]
       ++ [Example.config "k" [] [Example.object "obj" ∅]]) "" Example.w0
    = ((t, err), w') ∧
    Forall (fun p => p < length (heap w1) ∧ heap w' !! p = heap w1 !! p) [1; 2].
Proof.
  eexists _, _, _, _. split; [vm_compute; reflexivity|].
  split; [vm_compute; reflexivity|].
  eapply (Parse_keeps_earlier_metrics Example.TimeFunc Example.arrayKey Example.int64_unrepresentable
      Example.ParseFloat Example.Sprint
            Example.Valid Example.GetBytes Example.sort_Slice
            Example_sort_Slice_perm
            [Example.config "m" [Example.basic "a" ""] []]
            [Example.config "k" [] [Example.object "obj" ∅]] "" Example.w0);
    vm_compute; reflexivity.
Defined.

(** [Parse_error] on two configs, the second of which has a basic-field
    rule that selects an object. *)
Lemma Parse_error_witness :
  exists e w',
    Parse Example.TimeFunc Example.arrayKey Example.int64_unrepresentable
      Example.ParseFloat Example.Sprint
      Example.Valid Example.GetBytes Example.sort_Slice
      [Example.config "m" [Example.basic "a" ""] [];
       Example.config "k" [Example.basic "obj" ""] []] "" Example.w0
    = (([], Some e), w') ∧
    exists config w0,
      config ∈ [Example.config "m" [Example.basic "a" ""] [];
                Example.config "k" [Example.basic "obj" ""] []] ∧
      processBasicFields Example.TimeFunc Example.arrayKey Example.int64_unrepresentable
      Example.ParseFloat Example.Sprint
        Example.GetBytes Example.sort_Slice
        (Config.MetricName config) (Config.BasicFields config) "" w0
      = (([], Some e), w').
Proof.
  edestruct (Parse_error Example.TimeFunc Example.arrayKey Example.int64_unrepresentable
      Example.ParseFloat Example.Sprint
               Example.Valid Example.GetBytes Example.sort_Slice
               [Example.config "m" [Example.basic "a" ""] [];
                Example.config "k" [Example.basic "obj" ""] []] "" Example.w0)
    as [Ht [(Hvalid & _)|(_ & Hconfig)]]; [vm_compute; reflexivity|discriminate|].
  eexists _, _. split; [vm_compute; reflexivity|exact Hconfig].
Defined.

(** [Parse_app] on a config of basic-field rules followed by a config of
    object-field rules. *)
Lemma Parse_app_witness :
  exists w',
    Parse Example.TimeFunc Example.arrayKey Example.int64_unrepresentable
      Example.ParseFloat Example.Sprint
      Example.Valid Example.GetBytes Example.sort_Slice
      ([Example.config "m" [Example.basic "a" ""] []]
       ++ [Example.config "k" [] [Example.object "obj" ∅]]) "" Example.w0
    = (([1; 2] ++ [4; 5; 3], None), w').
Proof.
  eexists.
  erewrite (Parse_app Example.TimeFunc Example.arrayKey Example.int64_unrepresentable
      Example.ParseFloat Example.Sprint
              Example.Valid Example.GetBytes Example.sort_Slice
              [Example.config "m" [Example.basic "a" ""] []]
              [Example.config "k" [] [Example.object "obj" ∅]] "" Example.w0);
    [|reflexivity|vm_compute; reflexivity].
  vm_compute. reflexivity.
Defined.

(** [Parse_cons] on a config with a basic-field rule and an object-field
    rule, followed by a config with one basic-field rule. *)
Lemma Parse_cons_witness :
  exists w',
    Parse Example.TimeFunc Example.arrayKey Example.int64_unrepresentable
      Example.ParseFloat Example.Sprint
      Example.Valid Example.GetBytes Example.sort_Slice
      (Example.config "m" [Example.basic "a" ""] [Example.object "obj" ∅]
       :: [Example.config "k" [Example.basic "b" ""] []]) "" Example.w0
    = (([1; 2] ++ [4; 5; 3] ++ [7; 8; 9], None), w').
Proof.
  eexists.
  eapply (Parse_cons Example.TimeFunc Example.arrayKey Example.int64_unrepresentable
      Example.ParseFloat Example.Sprint
            Example.Valid Example.GetBytes Example.sort_Slice
            (Example.config "m" [Example.basic "a" ""] [Example.object "obj" ∅])
            [Example.config "k" [Example.basic "b" ""] []] "" Example.w0);
    [reflexivity|vm_compute; reflexivity..].
Defined.

(** [processBasicFields_metric_names] on the rules a and b. *)
Lemma processBasicFields_metric_names_witness :
  exists t w',
    processBasicFields Example.TimeFunc Example.arrayKey Example.int64_unrepresentable
      Example.ParseFloat Example.Sprint
      Example.GetBytes Example.sort_Slice "m"
      [Example.basic "a" ""; Example.basic "b" ""] "" Example.w2
    = ((t, None), w') ∧
    namesOf w' !! 0 = Some "m" ∧
    Forall (fun p => 1 <= p ∧ namesOf w' !! p = Some "m") t.
Proof.
  edestruct (processBasicFields_metric_names Example.TimeFunc Example.arrayKey Example.int64_unrepresentable
      Example.ParseFloat Example.Sprint
               Example.GetBytes Example.sort_Slice Example_sort_Slice_perm "m"
               [Example.basic "a" ""; Example.basic "b" ""] "" Example.w2)
    as [Ha Hall]; [vm_compute; reflexivity|].
  eexists _, _. split; [vm_compute; reflexivity|].
  split; [|exact Hall].
  eapply allocatedAs_old; [exact Ha|reflexivity].
Defined.

(** [processObjectFields_metric_names] on the object with an array
    child, under the metric name k on a heap whose metric is named m. *)
Lemma processObjectFields_metric_names_witness :
  exists t w',
    processObjectFields Example.TimeFunc Example.arrayKey Example.int64_unrepresentable
      Example.ParseFloat Example.Sprint
      Example.GetBytes "k" [Example.object "obj" ∅] "" Example.w1
    = ((t, None), w') ∧
    length t = 3 ∧
    namesOf w' !! 0 = Some "m" ∧
    Forall (fun p => 1 <= p ∧ namesOf w' !! p = Some "k") t.
Proof.
  edestruct (processObjectFields_metric_names Example.TimeFunc Example.arrayKey Example.int64_unrepresentable
      Example.ParseFloat Example.Sprint
               Example.GetBytes "k" [Example.object "obj" ∅] "" Example.w1)
    as [Ha Hall]; [vm_compute; reflexivity|].
  eexists _, _. split; [vm_compute; reflexivity|].
  split; [reflexivity|]. split; [|exact Hall].
  eapply allocatedAs_old; [exact Ha|reflexivity].
Defined.

(** [Parse_metric_names] on two configs with different metric names. *)
Lemma Parse_metric_names_witness :
  exists t w',
    Parse Example.TimeFunc Example.arrayKey Example.int64_unrepresentable
      Example.ParseFloat Example.Sprint
      Example.Valid Example.GetBytes Example.sort_Slice
      [Example.config "m" [Example.basic "a" ""] [];
       Example.config "k" [] [Example.object "obj" ∅]] "" Example.w1
    = ((t, None), w') ∧
    length t = 5 ∧
    Forall (fun p => 1 <= p ∧
                     (namesOf w' !! p = Some "m" ∨ namesOf w' !! p = Some "k")) t.
Proof.
  edestruct (Parse_metric_names Example.TimeFunc Example.arrayKey Example.int64_unrepresentable
      Example.ParseFloat Example.Sprint
               Example.Valid Example.GetBytes Example.sort_Slice
               Example_sort_Slice_perm
               [Example.config "m" [Example.basic "a" ""] [];
                Example.config "k" [] [Example.object "obj" ∅]] "" Example.w1)
    as [_ Hall]; [vm_compute; reflexivity|].
  eexists _, _. split; [vm_compute; reflexivity|].
  split; [reflexivity|].
  eapply Forall_impl; [exact Hall|].
  intros p [Hlo (config & Hin & Hname)]. split; [exact Hlo|].
  apply elem_of_cons in Hin as [->|Hin]; [by left|].
  apply list_elem_of_singleton in Hin as ->. by right.
Defined.
